(** * p2ch12/train_seg.py: dice loss, metrics buffer, reducer, checkpoints

    A shallow embedding of the training harness of [LunaTrainingApp]
    ([src/p2ch12/train_seg.py]) and the properties of its loss, of its
    per-epoch metrics buffer, of the reducer [logMetrics], of the image
    log [logImages] and of the promotion of checkpoints in [main] /
    [saveModel].

    Numbers.  The program computes on IEEE-754 values (torch and numpy
    float32, Python floats).  They are embedded as exact rationals with
    the three special values of the format: every operation is the IEEE
    one without the final rounding step and without a sign on zero.
    What the embedding keeps is what the program's control flow depends
    on: [0/0] is NaN, [x/0] is an infinity, NaN compares false with
    everything and is truthy, and a zero is falsy.

    Rounding is not embedded.  The statements about the dice loss and
    about the counts of a batch are kept to what rounding to float32
    does not change: the range of the loss is closed, the counts are
    sums of binary masks, a smoothing constant is taken in the normal
    range of float32 (a smaller one would round to 0), and two results
    are said to be equal where the program computes them by the same
    operations. *)

From Stdlib Require Import List Bool Arith ZArith QArith Qcanon Lia Lqa.
From Stdlib Require Import Ascii String DecimalString DecimalNat.
Import ListNotations.

Set Implicit Arguments.

(** ** Numbers *)

Module Num.

Inductive num : Type :=
| Fin (q : Qc)
| PInf
| NInf
| NaN.

Definition qz (z : Z) : Qc := Q2Qc (inject_Z z).
Definition of_Z (z : Z) : num := Fin (qz z).
Definition of_nat (n : nat) : num := of_Z (Z.of_nat n).
Definition of_bool (b : bool) : num := if b then of_Z 1 else of_Z 0.

Definition zero : num := of_Z 0.
Definition one : num := of_Z 1.

(** [np.isfinite] *)
Definition isfinite (x : num) : bool :=
  match x with Fin _ => true | _ => false end.

(** Python truth value of a number, as used by [x or 1]: only a zero is
    falsy (NaN and the infinities are truthy). *)
Definition truthy (x : num) : bool :=
  match x with
  | Fin q => if Qc_eq_dec q 0 then false else true
  | _ => true
  end.

(** [x or y] on numbers. *)
Definition por (x y : num) : num := if truthy x then x else y.

Definition neg (x : num) : num :=
  match x with
  | Fin q => Fin (- q)
  | PInf => NInf
  | NInf => PInf
  | NaN => NaN
  end.

Definition add (x y : num) : num :=
  match x, y with
  | NaN, _ | _, NaN => NaN
  | Fin a, Fin b => Fin (a + b)
  | PInf, NInf | NInf, PInf => NaN
  | PInf, _ | _, PInf => PInf
  | NInf, _ | _, NInf => NInf
  end.

Definition sub (x y : num) : num := add x (neg y).

(** An infinity of the sign of [q]; NaN for [q = 0]. *)
Definition inf_of_sign (q : Qc) : num :=
  match q ?= 0 with
  | Eq => NaN
  | Gt => PInf
  | Lt => NInf
  end.

Definition mul (x y : num) : num :=
  match x, y with
  | NaN, _ | _, NaN => NaN
  | Fin a, Fin b => Fin (a * b)
  | Fin a, PInf | PInf, Fin a => inf_of_sign a
  | Fin a, NInf | NInf, Fin a => inf_of_sign (- a)
  | PInf, PInf | NInf, NInf => PInf
  | PInf, NInf | NInf, PInf => NInf
  end.

(** numpy division: a zero divisor gives NaN ([0/0]) or an infinity, it
    does not raise. *)
Definition div (x y : num) : num :=
  match x, y with
  | NaN, _ | _, NaN => NaN
  | Fin a, Fin b => if Qc_eq_dec b 0 then inf_of_sign a else Fin (a / b)
  | Fin _, (PInf | NInf) => zero
  | (PInf | NInf), (PInf | NInf) => NaN
  | PInf, Fin b => if Qclt_le_dec b 0 then NInf else PInf
  | NInf, Fin b => if Qclt_le_dec b 0 then PInf else NInf
  end.

(** [x > y], [x == y] and [x >= y]; false as soon as one side is NaN. *)
Definition gtb (x y : num) : bool :=
  match x, y with
  | NaN, _ | _, NaN => false
  | Fin a, Fin b => if Qclt_le_dec b a then true else false
  | PInf, (Fin _ | NInf) => true
  | Fin _, NInf => true
  | _, _ => false
  end.

Definition eqb (x y : num) : bool :=
  match x, y with
  | Fin a, Fin b => if Qc_eq_dec a b then true else false
  | PInf, PInf | NInf, NInf => true
  | _, _ => false
  end.

Definition geb (x y : num) : bool := gtb x y || eqb x y.

(** Python's builtin [max(a, b)]: [b] when [b > a], otherwise [a]. *)
Definition pymax (a b : num) : num := if gtb b a then b else a.

(** Largest finite float32, the value [np.nan_to_num] gives an infinity
    of a float32 array: (2 - 2^-23) * 2^127. *)
Definition float32_max : Qc := qz ((2 ^ 24 - 1) * 2 ^ 104).

(** Smallest positive normal float32, 2^-126.  A constant between it and
    [float32_max] is a float32 other than 0 and the infinities once it is
    rounded into a tensor. *)
Definition float32_min_normal : Qc := Q2Qc (1 # 2 ^ 126).

(** [np.nan_to_num] *)
Definition nan_to_num (x : num) : num :=
  match x with
  | NaN => zero
  | PInf => Fin float32_max
  | NInf => Fin (- float32_max)
  | Fin _ => x
  end.

(** [t.sum()] of a one-dimensional array. *)
Fixpoint sum (l : list num) : num :=
  match l with
  | [] => zero
  | x :: l' => add x (sum l')
  end.

(** [a.mean()] of a one-dimensional array: the sum over the number of
    entries, NaN for an empty array. *)
Definition mean (l : list num) : num := div (sum l) (of_nat (List.length l)).

(** Decimal literal [n / d]. *)
Definition lit (n : Z) (d : positive) : num := Fin (Q2Qc (n # d)).

(** The same value ([NaN] is the same value as [NaN]). *)
Definition same (x y : num) : bool :=
  match x, y with
  | Fin a, Fin b => Qc_eq_bool a b
  | PInf, PInf | NInf, NInf | NaN, NaN => true
  | _, _ => false
  end.

End Num.

Import Num.

Open Scope nat_scope.

(** A strict order on numbers: [x < y], false as soon as one side is NaN. *)
Definition lt (x y : num) : Prop := Num.gtb y x = true.

Declare Scope num_scope.
Delimit Scope num_scope with num.
Bind Scope num_scope with num.
Infix "+" := add : num_scope.
Infix "-" := sub : num_scope.
Infix "*" := mul : num_scope.
Infix "/" := div : num_scope.

(** ** Errors

    A Python exception ends the call that raises it; the kinds the
    harness can raise are kept apart. *)

Inductive error : Type :=
| AssertionError   (* a failed [assert] *)
| ShapeError       (* torch: operand or slice shapes do not match *)
| IndexError       (* an index outside the array *)
| ValueError       (* [range] with a step of 0; numpy: a reshape to another
                      size, operands of different shapes *)
| AttributeError.  (* a method called on [None] *)

Inductive result (A : Type) : Type :=
| Ok (a : A)
| Raise (e : error).

Arguments Ok {A} a.
Arguments Raise {A} e.

Definition bind {A B : Type} (m : result A) (k : A -> result B) : result B :=
  match m with
  | Ok a => k a
  | Raise e => Raise e
  end.

Notation "x <- m ;; k" := (bind m (fun x => k))
  (at level 61, m at next level, right associativity).

(** ** Tensors

    A one-dimensional tensor is the list of its entries.  A tensor of
    shape [N, ...] is the list of its [N] samples, each sample the
    row-major list of its entries: the view [t.view(t.size(0), -1)] of the
    source.  An operation on two tensors needs operands of one shape;
    operands of different shapes raise (torch would first try to
    broadcast dimensions of size one, which the harness never uses). *)

Definition vec := list num.
Definition tensor := list (list num).

Fixpoint vzip (f : num -> num -> num) (a b : vec) : result vec :=
  match a, b with
  | [], [] => Ok []
  | x :: a', y :: b' => r <- vzip f a' b' ;; Ok (f x y :: r)
  | _, _ => Raise ShapeError
  end.

Fixpoint tzip (f : num -> num -> num) (a b : tensor) : result tensor :=
  match a, b with
  | [], [] => Ok []
  | x :: a', y :: b' =>
      s <- vzip f x y ;; r <- tzip f a' b' ;; Ok (s :: r)
  | _, _ => Raise ShapeError
  end.

(** [a[ndx]] *)
Definition get (A : Type) (a : list A) (ndx : nat) : result A :=
  match nth_error a ndx with
  | Some x => Ok x
  | None => Raise IndexError
  end.

(** A Python scalar applied to every entry. *)
Definition vscal (f : num -> num) (a : vec) : vec := map f a.
Definition tscal (f : num -> num) (a : tensor) : tensor := map (map f) a.

Definition ones_like (a : vec) : vec := map (fun _ => one) a.

(** ** The dice loss ([LunaTrainingApp.diceLoss], lines 305-324)

    The flag [p] of the source only switches debug logging on; no caller
    sets it and it is left out. *)

Definition sum_dim1 (t : tensor) : vec := map sum t.

Definition default_epsilon : num := of_Z 1024.

Definition diceLoss (label_devtensor prediction_devtensor : tensor)
    (epsilon : num) : result vec :=
  let diceLabel_devtensor := sum_dim1 label_devtensor in
  let dicePrediction_devtensor := sum_dim1 prediction_devtensor in
  prod <- tzip mul prediction_devtensor label_devtensor ;;
  let diceCorrect_devtensor := sum_dim1 prod in
  let epsilon_devtensor :=
    vscal (fun x => x * epsilon)%num (ones_like diceCorrect_devtensor) in
  numer <- vzip add (vscal (fun x => of_Z 2 * x)%num diceCorrect_devtensor)
                epsilon_devtensor ;;
  den0 <- vzip add dicePrediction_devtensor diceLabel_devtensor ;;
  denom <- vzip add den0 epsilon_devtensor ;;
  quot <- vzip div numer denom ;;
  Ok (vscal (fun x => one - x)%num quot).

(** ** The metrics buffer

    [metrics_devtensor] is a two-dimensional tensor of [METRICS_SIZE] rows
    and one column per sample of the epoch.  Next to the array the
    embedding keeps the list of the slice assignments made so far: the
    source has no such list, it is there to count how often a cell was
    written. *)

Definition METRICS_LABEL_NDX : nat := 0.
Definition METRICS_LOSS_NDX : nat := 1.
Definition METRICS_MAL_LOSS_NDX : nat := 2.
(* METRICS_ALL_LOSS_NDX = 3 is commented out in the source *)
Definition METRICS_MTP_NDX : nat := 4.
Definition METRICS_MFN_NDX : nat := 5.
Definition METRICS_MFP_NDX : nat := 6.
Definition METRICS_ATP_NDX : nat := 7.
Definition METRICS_AFN_NDX : nat := 8.
Definition METRICS_AFP_NDX : nat := 9.

Definition METRICS_SIZE : nat := 10.

Record write : Type := MkWrite { w_row : nat; w_start : nat; w_stop : nat }.

Record metrics : Type := Metrics { data : tensor; writes : list write }.

(** [torch.zeros(rows, cols)] *)
Definition zeros (rows cols : nat) : tensor := repeat (repeat zero cols) rows.

(** [row[start:stop] = vals]: the slice is cut to the row, and the values
    must fill it exactly. *)
Definition set_slice (row : vec) (start stop : nat) (vals : vec) : result vec :=
  let n := List.length row in
  let lo := Nat.min start n in
  let hi := Nat.max lo (Nat.min stop n) in
  if Nat.eqb (List.length vals) (hi - lo)
  then Ok (firstn lo row ++ vals ++ skipn hi row)
  else Raise ShapeError.

(** [metrics_devtensor[ndx, start:stop] = vals] *)
Definition assign (m : metrics) (ndx start stop : nat) (vals : vec)
  : result metrics :=
  match nth_error (data m) ndx with
  | None => Raise IndexError
  | Some row =>
      row' <- set_slice row start stop vals ;;
      Ok (Metrics (firstn ndx (data m) ++ row' :: skipn (S ndx) (data m))
                  (writes m ++ [MkWrite ndx start stop]))
  end.

(** How many of the assignments in [ws] wrote the cell [(r, c)]. *)
Definition covers (r c : nat) (w : write) : bool :=
  Nat.eqb (w_row w) r && Nat.leb (w_start w) c && Nat.ltb c (w_stop w).

Definition times_written (ws : list write) (r c : nat) : nat :=
  List.length (filter (covers r c) ws).

(** ** Batches

    One sample of the data set, and a batch as the data loader collates
    it: field by field, the samples stacked along a new first dimension.
    The series and slice identifiers of a sample are not used by the
    loss step and are left out.  The benign and malignant masks are taken
    with the shape of the label mask. *)

Record sample : Type := Sample {
  s_input : list num;
  s_label_mask : list num;
  s_label : Z;
  s_ben : list num;
  s_mal : list num }.

Record batch : Type := Batch {
  input_tensor : tensor;
  label_tensor : tensor;
  label_list : list Z;
  ben_tensor : tensor;
  mal_tensor : tensor }.

Definition collate (l : list sample) : batch :=
  Batch (map s_input l) (map s_label_mask l) (map s_label l)
        (map s_ben l) (map s_mal l).

(** The batch sampler of [torch.utils.data.DataLoader] with
    [drop_last=False]: indices are collected until [batch_size] of them
    are there; what is left at the end makes a last, shorter batch. *)
Fixpoint batch_sampler (A : Type) (batch_size : nat) (cur : list A)
    (sampler : list A) : list (list A) :=
  match sampler with
  | [] => match cur with [] => [] | _ => [cur] end
  | idx :: rest =>
      let cur' := cur ++ [idx] in
      if Nat.eqb (List.length cur') batch_size
      then cur' :: batch_sampler batch_size [] rest
      else batch_sampler batch_size cur' rest
  end.

(** What [dl.dataset[(series_uid, slice_ndx, False)]] returns (lines
    332-334): the channels of the input (the slices of the CT around one
    slice and, last, a mask), the nodule mask with its one channel, and
    the benign and malignant masks, and the series of the slice.  Each
    image is the list of its entries.  The label and the slice index of
    the tuple are not used by [logImages]. *)
Record slice_tup : Type := SliceTup {
  ct_tensor : list vec;
  nodule_tensor : list vec;
  slice_ben_tensor : vec;
  slice_mal_tensor : vec;
  slice_series_uid : string }.

(** A data loader with the data set behind it.  [dataset] is the data
    set as the loader iterates it; [series_list], [contextSlices_count]
    and [getitem] are the attributes of the data set and its indexing by
    series and slice, which [logImages] uses. *)
Record DataLoader : Type := Loader {
  dataset : list sample;
  batch_size : nat;
  num_workers : nat;
  series_list : list string;
  contextSlices_count : nat;
  getitem : string -> nat -> slice_tup }.

Definition batches (dl : DataLoader) : list batch :=
  map collate (batch_sampler (batch_size dl) [] (dataset dl)).

(** Modelled from the spec: [enumerateWithEstimate] of [util.util], which
    is not among the sources.  The spec has the epoch driver hand each
    batch to the loss step with its [batchIndex], batches pulled strictly
    in order, and the worker count used only to pace the progress
    estimate: it is [enumerate], counting from 0. *)
Fixpoint enumerate_from (A : Type) (n : nat) (l : list A) : list (nat * A) :=
  match l with
  | [] => []
  | x :: l' => (n, x) :: enumerate_from (S n) l'
  end.

Definition enumerateWithEstimate (A : Type) (iter : list A) (start_ndx : nat)
  : list (nat * A) := enumerate_from 0 iter.

(** [sorted(l)] for a list of strings: by insertion, in the order of the
    code points. *)
Fixpoint insert_sorted (x : string) (l : list string) : list string :=
  match l with
  | [] => [x]
  | y :: l' => if String.leb x y then x :: l else y :: insert_sorted x l'
  end.

Definition sorted (l : list string) : list string :=
  fold_right insert_sorted [] l.

(** [range(0, stop, step)]: the multiples of [step] below [stop]; a step
    of 0 raises [ValueError]. *)
Definition range_step (stop step : nat) : result (list nat) :=
  if Nat.eqb step 0 then Raise ValueError
  else Ok (map (fun i => i * step) (seq 0 ((stop + step - 1) / step))).

(** ** The loss step and the epoch drivers

    The network and the optimizer are collaborators of the harness.  The
    state they own (parameters, momentum buffers) is a type [params];
    [forward] is [self.model(input)], and [sgd_step] is what
    [loss_var.backward(); self.optimizer.step()] makes of the state for
    the batch whose loss was just computed, together with what the call
    of the network in training mode did to it.  [observe] is what a call
    of the network in training mode alone makes of the state (a layer
    such as batch normalization updates its running statistics): it is
    the effect of the calls of [logImages], which runs after
    [self.model.train()].  In evaluation mode a call leaves the state
    alone.  [getCt_shape0] is [getCt(series_uid).ary.shape[0]], the
    number of slices of the CT of a series ([.dsets] is not among the
    sources). *)

Section Harness.

Variable params : Type.
Variable forward : params -> tensor -> tensor.
Variable observe : params -> tensor -> params.
Variable sgd_step : params -> batch -> params.
Variable getCt_shape0 : string -> nat.

(** [intersectionSum = lambda a, b: (a * b).view(a.size(0), -1).sum(dim=1)] *)
Definition intersectionSum (a b : tensor) : result vec :=
  ab <- tzip mul a b ;; Ok (sum_dim1 ab).

(** [1 - t] *)
Definition one_minus (t : tensor) : tensor := tscal (fun x => one - x)%num t.

(** [LunaTrainingApp.computeBatchLoss], lines 255-302.  Returns the
    buffer after the writes and [diceLoss_devtensor.mean()]. *)
Definition computeBatchLoss (model : params) (batch_ndx : nat)
    (batch_tup : batch) (batch_size : nat) (metrics_devtensor : metrics)
  : result (metrics * num) :=
  let label_devtensor := label_tensor batch_tup in
  let mal_devtensor := mal_tensor batch_tup in
  let ben_devtensor := ben_tensor batch_tup in
  let start_ndx := batch_ndx * batch_size in
  let end_ndx := start_ndx + List.length (label_tensor batch_tup) in
  let prediction_devtensor := forward model (input_tensor batch_tup) in
  diceLoss_devtensor <-
    diceLoss label_devtensor prediction_devtensor default_epsilon ;;
  let predictionBool_devtensor :=
    tscal (fun x => of_bool (gtb x (lit 1 2))) prediction_devtensor in
  m <- assign metrics_devtensor METRICS_LABEL_NDX start_ndx end_ndx
         (map of_Z (label_list batch_tup)) ;;
  m <- assign m METRICS_LOSS_NDX start_ndx end_ndx diceLoss_devtensor ;;
  tp <- intersectionSum label_devtensor predictionBool_devtensor ;;
  fn <- intersectionSum label_devtensor (one_minus predictionBool_devtensor) ;;
  fp <- intersectionSum (one_minus label_devtensor) predictionBool_devtensor ;;
  m <- assign m METRICS_ATP_NDX start_ndx end_ndx tp ;;
  m <- assign m METRICS_AFN_NDX start_ndx end_ndx fn ;;
  m <- assign m METRICS_AFP_NDX start_ndx end_ndx fp ;;
  malPred_devtensor <-
    tzip mul predictionBool_devtensor (one_minus ben_devtensor) ;;
  tp <- intersectionSum mal_devtensor malPred_devtensor ;;
  fn <- intersectionSum mal_devtensor (one_minus malPred_devtensor) ;;
  fp <- intersectionSum (one_minus label_devtensor) malPred_devtensor ;;
  ls <- diceLoss mal_devtensor malPred_devtensor default_epsilon ;;
  m <- assign m METRICS_MTP_NDX start_ndx end_ndx tp ;;
  m <- assign m METRICS_MFN_NDX start_ndx end_ndx fn ;;
  (* metrics_devtensor[METRICS_MFP_NDX, start_ndx:end_ndx] = fp
     is commented out in the source *)
  m <- assign m METRICS_MAL_LOSS_NDX start_ndx end_ndx ls ;;
  Ok (m, mean diceLoss_devtensor).

(** The loop of [doTesting]: the model is the same for every batch. *)
Fixpoint testing_loop (model : params) (batch_size : nat)
    (batch_iter : list (nat * batch)) (m : metrics) : result metrics :=
  match batch_iter with
  | [] => Ok m
  | (batch_ndx, batch_tup) :: rest =>
      r <- computeBatchLoss model batch_ndx batch_tup batch_size m ;;
      testing_loop model batch_size rest (fst r)
  end.

(** [LunaTrainingApp.doTesting], lines 240-253. *)
Definition doTesting (model : params) (test_dl : DataLoader) : result metrics :=
  let testingMetrics_devtensor :=
    Metrics (zeros METRICS_SIZE (List.length (dataset test_dl))) [] in
  let batch_iter := enumerateWithEstimate (batches test_dl) (num_workers test_dl) in
  testing_loop model (batch_size test_dl) batch_iter testingMetrics_devtensor.

(** The loop of [doTraining]: each batch ends with an optimizer step. *)
Fixpoint training_loop (model : params) (batch_size : nat)
    (batch_iter : list (nat * batch)) (m : metrics) : result (params * metrics) :=
  match batch_iter with
  | [] => Ok (model, m)
  | (batch_ndx, batch_tup) :: rest =>
      r <- computeBatchLoss model batch_ndx batch_tup batch_size m ;;
      training_loop (sgd_step model batch_tup) batch_size rest (fst r)
  end.

(** [LunaTrainingApp.doTraining], lines 218-238.  Returns the trained
    state, the new [totalTrainingSamples_count] and the buffer. *)
Definition doTraining (model : params) (totalTrainingSamples_count : nat)
    (train_dl : DataLoader) : result (params * nat * metrics) :=
  let trainingMetrics_devtensor :=
    Metrics (zeros METRICS_SIZE (List.length (dataset train_dl))) [] in
  let batch_iter := enumerateWithEstimate (batches train_dl) (num_workers train_dl) in
  r <- training_loop model (batch_size train_dl) batch_iter
         trainingMetrics_devtensor ;;
  let size1 := match data (snd r) with [] => 0 | row :: _ => List.length row end in
  Ok (fst r, totalTrainingSamples_count + size1, snd r).

(** ** The images of an epoch ([LunaTrainingApp.logImages], lines 327-373)

    The arrays built in lines 348-373 only reach the tensorboard writer,
    which is left out here as it is in [logMetrics]; so is [mode_str],
    which selects the writer and names the image.  What is kept is what
    the method does to the state of the network, and where it raises.

    An array is the list of its entries, so that an operation of numpy
    on two arrays is taken to need as many entries on both sides (numpy
    would first try to broadcast dimensions of size one), and an array of
    512 * 512 entries stands for a 512 by 512 image.  The network has
    one output channel ([n_classes=1], line 130): [prediction_ary[0]] is
    the whole prediction of the sample. *)

(** [ct_tensor[:-1,:,:] += 1000; ct_tensor[:-1,:,:] /= 2000] *)
Definition scale_ct (ct_tensor : list vec) : list vec :=
  let n := List.length ct_tensor - 1 in
  map (map (fun x => (x + of_Z 1000) / of_Z 2000)%num) (firstn n ct_tensor)
  ++ skipn n ct_tensor.

(** [a * b] for two arrays of numpy, as far as its shape goes. *)
Definition np_mul (a b : vec) : result nat :=
  if Nat.eqb (List.length a) (List.length b)
  then Ok (List.length a)
  else Raise ValueError.

(** [image_ary[:,:,c] += x] for an array [x] of [size] entries, and
    [a.reshape((512,512,1))] for an array [a] of [size] entries. *)
Definition np_image (size : nat) : result unit :=
  if Nat.eqb size (512 * 512) then Ok tt else Raise ValueError.

(** The body of the inner loop, lines 332-373.  Line 334 binds
    [series_uid] anew, to the series of the tuple: the body returns it
    with the state of the network. *)
Definition logImages_slice (model : params) (epoch_ndx : nat)
    (dl : DataLoader) (series_uid : string) (slice_ndx : nat)
  : result (params * string) :=
  let sample_tup := getitem dl series_uid slice_ndx in
  let series_uid := slice_series_uid sample_tup in
  let ct_tensor := scale_ct (ct_tensor sample_tup) in
  let input_devtensor := [List.concat ct_tensor] in
  prediction_ary <- get (forward model input_devtensor) 0 ;;
  let model := observe model input_devtensor in
  let label_ary := nodule_tensor sample_tup in
  let ben_ary := slice_ben_tensor sample_tup in
  let mal_ary := slice_mal_tensor sample_tup in
  ctx <- get ct_tensor (contextSlices_count dl) ;;
  _ <- np_image (List.length ctx) ;;
  label0 <- get label_ary 0 ;;
  red <- np_mul prediction_ary label0 ;;
  _ <- np_image red ;;
  green <- np_mul prediction_ary mal_ary ;;
  _ <- np_image green ;;
  blue <- np_mul prediction_ary ben_ary ;;
  _ <- np_image blue ;;
  if Nat.eqb epoch_ndx 1
  then
    ctx <- get ct_tensor (contextSlices_count dl) ;;
    _ <- np_image (List.length ctx) ;;
    last <- get ct_tensor (List.length ct_tensor - 1) ;;
    red <- np_mul label0 last ;;
    _ <- np_image red ;;
    _ <- np_image (List.length mal_ary) ;;
    _ <- np_image (List.length ben_ary) ;;
    Ok (model, series_uid)
  else Ok (model, series_uid).

Fixpoint logImages_slices (model : params) (epoch_ndx : nat)
    (dl : DataLoader) (series_uid : string) (slices : list nat)
  : result params :=
  match slices with
  | [] => Ok model
  | slice_ndx :: rest =>
      r <- logImages_slice model epoch_ndx dl series_uid slice_ndx ;;
      logImages_slices (fst r) epoch_ndx dl (snd r) rest
  end.

Fixpoint logImages_series (model : params) (epoch_ndx : nat)
    (dl : DataLoader) (series : list string) : result params :=
  match series with
  | [] => Ok model
  | series_uid :: rest =>
      let shape0 := getCt_shape0 series_uid in
      slices <- range_step shape0 (shape0 / 5) ;;
      model <- logImages_slices model epoch_ndx dl series_uid slices ;;
      logImages_series model epoch_ndx dl rest
  end.

(** Returns the state of the network after the calls. *)
Definition logImages (model : params) (epoch_ndx : nat) (dl : DataLoader)
  : result params :=
  logImages_series model epoch_ndx dl (firstn 12 (sorted (series_list dl))).

End Harness.

(** ** The reducer ([LunaTrainingApp.logMetrics], lines 376-462)

    [metrics_dict], with a field for each of its seven string keys
    ('loss/all', 'loss/mal', 'correct/mal', 'correct/all', 'pr/precision',
    'pr/recall', 'pr/f1_score').  The epoch index and the mode string of
    the source only reach the log lines and the tensorboard writer, which
    take no part in the returned value; they are left out. *)

Record metrics_dict : Type := MetricsDict {
  loss_all : num;
  loss_mal : num;
  correct_mal : num;
  correct_all : num;
  pr_precision : num;
  pr_recall : num;
  pr_f1_score : num }.

(** [row[mask]]: the entries of [row] at which the boolean mask holds. *)
Definition select (mask : list bool) (row : vec) : vec :=
  map snd (filter fst (combine mask row)).

(** The expression of lines 456-460, in the four entries of
    [metrics_dict] it reads. *)
Definition score (f1_score recall lossMal lossAll : num) : num :=
  (one + f1_score
     - recall * lit 1 100
     - lossMal * lit 1 1000
     - lossAll * lit 1 10000)%num.

Definition logMetrics (metrics_ary : tensor) : result (metrics_dict * num) :=
  let sum_ary := map sum metrics_ary in
  if negb (forallb (forallb isfinite) metrics_ary) then Raise AssertionError else
  label_row <- get metrics_ary METRICS_LABEL_NDX ;;
  let malLabel_mask := map (fun x => eqb x (of_Z 1) || eqb x (of_Z 3)) label_row in
  sum_atp <- get sum_ary METRICS_ATP_NDX ;;
  sum_afn <- get sum_ary METRICS_AFN_NDX ;;
  sum_mtp <- get sum_ary METRICS_MTP_NDX ;;
  sum_mfn <- get sum_ary METRICS_MFN_NDX ;;
  loss_row <- get metrics_ary METRICS_LOSS_NDX ;;
  mal_loss_row <- get metrics_ary METRICS_MAL_LOSS_NDX ;;
  sum_afp <- get sum_ary METRICS_AFP_NDX ;;
  let precision := (sum_atp / por (sum_atp + sum_afp) (of_Z 1))%num in
  let recall := (sum_atp / por (sum_atp + sum_afn) (of_Z 1))%num in
  let d :=
    {| loss_all := mean loss_row;
       loss_mal := nan_to_num (mean (select malLabel_mask mal_loss_row));
       correct_mal := (sum_mtp / (sum_mtp + sum_mfn) * of_Z 100)%num;
       correct_all := (sum_atp / (sum_atp + sum_afn) * of_Z 100)%num;
       pr_precision := precision;
       pr_recall := recall;
       pr_f1_score :=
         (of_Z 2 * (precision * recall) / por (precision + recall) (of_Z 1))%num |} in
  Ok (d, score (pr_f1_score d) (pr_recall d) (loss_mal d) (loss_all d)).

(** ** Checkpoints ([LunaTrainingApp.saveModel], lines 487-534) *)

(** [posixpath.join] of two components. *)
Definition starts_with_sep (b : string) : bool :=
  match b with
  | String c _ => Ascii.eqb c "/"
  | EmptyString => false
  end.

Fixpoint ends_with_sep (a : string) : bool :=
  match a with
  | EmptyString => false
  | String c EmptyString => Ascii.eqb c "/"
  | String _ a' => ends_with_sep a'
  end.

Definition path_join (a b : string) : string :=
  if starts_with_sep b then b
  else if match a with EmptyString => true | _ => ends_with_sep a end
       then (a ++ b)%string
       else (a ++ "/" ++ b)%string.

(** ['{}'.format(n)] for a natural number. *)
Definition format_nat (n : nat) : string :=
  NilEmpty.string_of_uint (Nat.to_uint n).

Record cli_args : Type := Cli {
  epochs : nat;
  tb_prefix : string;
  comment : string }.

Section App.

Variable params : Type.
Variable forward : params -> tensor -> tensor.
Variable observe : params -> tensor -> params.
Variable sgd_step : params -> batch -> params.
Variable getCt_shape0 : string -> nat.

(** The bundle [torch.save] writes.  [ck_state] stands for both
    [model.state_dict()] and [self.optimizer.state_dict()]. *)
Record checkpoint : Type := Checkpoint {
  ck_state : params;
  model_name : string;
  optimizer_name : string;
  epoch : nat;
  ck_totalTrainingSamples_count : nat }.

(** The file system: the files written so far, the latest first. *)
Definition store := list (string * checkpoint).

Definition torch_save (state : checkpoint) (file_path : string) (fs : store)
  : store := (file_path, state) :: fs.

Fixpoint read_file (fs : store) (file_path : string) : option checkpoint :=
  match fs with
  | [] => None
  | (p, state) :: fs' =>
      if String.eqb p file_path then Some state else read_file fs' file_path
  end.

(** The application object and the files it has written.  [trn_writer]
    tells whether the two tensorboard writers exist: [__init__] sets
    them to [None] and [initTensorboardWriters], which [logMetrics] calls
    first, creates them. *)
Record app : Type := App {
  cli : cli_args;
  time_str : string;
  totalTrainingSamples_count : nat;
  model : params;
  trn_writer : bool;
  files : store }.

(** The path of a state file; [tail] is the sample count or ['best']. *)
Definition state_path (self : app) (type_str tail : string) : string :=
  path_join
    (path_join (path_join (path_join "data-unversioned" "part2") "models")
               (tb_prefix (cli self)))
    (type_str ++ "_" ++ time_str self ++ "_" ++ comment (cli self)
       ++ "." ++ tail ++ ".state")%string.

Definition saveModel (self : app) (type_str : string) (epoch_ndx : nat)
    (isBest : bool) : app :=
  let file_path :=
    state_path self type_str (format_nat (totalTrainingSamples_count self)) in
  let state :=
    {| ck_state := model self;
       model_name := "UNetWrapper";
       optimizer_name := "SGD";
       epoch := epoch_ndx;
       ck_totalTrainingSamples_count := totalTrainingSamples_count self |} in
  let fs := torch_save state file_path (files self) in
  let fs :=
    if isBest
    then torch_save state (state_path self type_str "best") fs
    else fs in
  App (cli self) (time_str self) (totalTrainingSamples_count self)
      (model self) (trn_writer self) fs.

(** ** The epoch loop ([LunaTrainingApp.main], lines 183-216)

    [run_epoch] is the part of the loop body up to the evaluation score:
    training, the reduction and the images of the training pass, the
    images of the evaluation set, the evaluation pass and its
    reduction.

    An exception that leaves [main] ends the process (line 538).  What
    is left of the run then is what it has written: the outcome of a run
    is the files, the history of the completed epochs and, if the loop
    ran to its end, the application object. *)

Inductive outcome : Type :=
| Finished (self : app)
| Aborted (e : error).

(** What the loop did in one epoch: the score, and the flag [saveModel]
    was called with. *)
Record epoch_log : Type := EpochLog {
  e_ndx : nat;
  e_score : num;
  e_isBest : bool }.

Section Loop.

Variable run_epoch : app -> nat -> result (app * num).

(** [n] epochs from [epoch_ndx] on.  No file is written between the
    start of an epoch and its call of [saveModel]: when the epoch raises,
    the files are those the epochs before have left. *)
Fixpoint main_loop (n epoch_ndx : nat) (self : app) (best_score : num)
    (hist : list epoch_log) : store * list epoch_log * outcome :=
  match n with
  | O => (files self, hist, Finished self)
  | S n' =>
      match run_epoch self epoch_ndx with
      | Raise e => (files self, hist, Aborted e)
      | Ok (self1, score) =>
          let best_score := pymax score best_score in
          let isBest := eqb score best_score in
          let self2 := saveModel self1 "seg" epoch_ndx isBest in
          main_loop n' (S epoch_ndx) self2 best_score
                    (hist ++ [EpochLog epoch_ndx score isBest])
      end
  end.

End Loop.

Variable train_dl : DataLoader.
Variable test_dl : DataLoader.

(** Lines 202-209.  The first call of [logMetrics] creates the
    tensorboard writers; the two calls of [logImages] come after
    [self.model.train()] and before [self.model.eval()]. *)
Definition run_epoch (self : app) (epoch_ndx : nat) : result (app * num) :=
  r <- doTraining forward sgd_step (model self)
         (totalTrainingSamples_count self) train_dl ;;
  let '(model1, count1, trainingMetrics_tensor) := r in
  _ <- logMetrics (data trainingMetrics_tensor) ;;
  model2 <- logImages forward observe getCt_shape0 model1 epoch_ndx train_dl ;;
  model3 <- logImages forward observe getCt_shape0 model2 epoch_ndx test_dl ;;
  testingMetrics_tensor <- doTesting forward model3 test_dl ;;
  ds <- logMetrics (data testingMetrics_tensor) ;;
  Ok (App (cli self) (time_str self) count1 model3 true (files self), snd ds).

(** Lines 191-216: the loop, and after it [self.trn_writer.close()],
    which raises when the writers were never created. *)
Definition main (self : app) : store * list epoch_log * outcome :=
  let '(fs, hist, out) :=
    main_loop run_epoch (epochs (cli self)) 1 self (of_Z 0) [] in
  (fs, hist,
   match out with
   | Finished self' =>
       if trn_writer self' then out else Aborted AttributeError
   | Aborted _ => out
   end).

End App.

Arguments Aborted {params} e.


(** ** Notions used in the statements *)

(** Shapes.  Two batches of samples have the same shape when they have
    as many samples and corresponding samples have as many entries; a
    two-dimensional array has [rows] rows of [cols] entries. *)
Definition same_shape (a b : tensor) : Prop :=
  Forall2 (fun x y => List.length x = List.length y) a b.

Definition shape (t : tensor) (rows cols : nat) : Prop :=
  List.length t = rows /\ Forall (fun r => List.length r = cols) t.

(** The entrywise combination of two lists of equal length. *)
Definition zipw (f : num -> num -> num) (a b : vec) : vec :=
  map (fun p => f (fst p) (snd p)) (combine a b).

(** The dice loss of one sample in the words of the specification:
    [labelSum], [predSum] and [overlap] are the sums of the label, of the
    prediction and of label times prediction over the entries of the
    sample, and the loss is
    [1 - (2*overlap + epsilon) / (predSum + labelSum + epsilon)]. *)
Definition labelSum (label : vec) : num := sum label.
Definition predSum (prediction : vec) : num := sum prediction.
Definition overlap (label prediction : vec) : num :=
  sum (zipw mul label prediction).

Definition dice_of_sample (label prediction : vec) (epsilon : num) : num :=
  (one - (of_Z 2 * overlap label prediction + epsilon)
         / (predSum prediction + labelSum label + epsilon))%num.

(** Entries of a binary mask, and of a probability map. *)
Definition binary (x : num) : Prop := x = zero \/ x = one.
Definition probability (x : num) : Prop :=
  exists q : Qc, x = Fin q /\ (0 <= q)%Qc /\ (q <= 1)%Qc.

(** A smoothing constant in the positive normal range of float32. *)
Definition float32_normal (e : Qc) : Prop :=
  (float32_min_normal <= e)%Qc /\ (e <= float32_max)%Qc.

(** The two ranges a loss may be said to lie in. *)
Definition in_0_1_open_closed (x : num) : Prop :=
  exists q : Qc, x = Fin q /\ (0 < q)%Qc /\ (q <= 1)%Qc.
Definition in_0_1_closed_open (x : num) : Prop :=
  exists q : Qc, x = Fin q /\ (0 <= q)%Qc /\ (q < 1)%Qc.

(** [sum_ary[ndx]]: the total of a row of the metrics array. *)
Definition total (metrics_ary : tensor) (ndx : nat) : result num :=
  get (map sum metrics_ary) ndx.

(** The reducer in the words of the specification (4.4): the totals of
    the rows of the buffer, the malignant mask (the columns whose label
    is 1 or 3), the rates with a denominator floored to 1 if it is zero,
    and the two mean losses. *)
Definition row (metrics_ary : tensor) (ndx : nat) : vec := nth ndx metrics_ary [].

Definition rowTotal (metrics_ary : tensor) (ndx : nat) : num :=
  sum (row metrics_ary ndx).

Definition floored (x : num) : num := if truthy x then x else one.

Definition precision_of (metrics_ary : tensor) : num :=
  (rowTotal metrics_ary METRICS_ATP_NDX
   / floored (rowTotal metrics_ary METRICS_ATP_NDX
              + rowTotal metrics_ary METRICS_AFP_NDX))%num.

Definition recall_of (metrics_ary : tensor) : num :=
  (rowTotal metrics_ary METRICS_ATP_NDX
   / floored (rowTotal metrics_ary METRICS_ATP_NDX
              + rowTotal metrics_ary METRICS_AFN_NDX))%num.

Definition f1_of (metrics_ary : tensor) : num :=
  (of_Z 2 * (precision_of metrics_ary * recall_of metrics_ary)
   / floored (precision_of metrics_ary + recall_of metrics_ary))%num.

Definition malignantMask (metrics_ary : tensor) : list bool :=
  map (fun l => eqb l (of_Z 1) || eqb l (of_Z 3))
      (row metrics_ary METRICS_LABEL_NDX).

Definition meanMalLoss_of (metrics_ary : tensor) : num :=
  nan_to_num (mean (select (malignantMask metrics_ary)
                           (row metrics_ary METRICS_MAL_LOSS_NDX))).

Definition meanAllLoss_of (metrics_ary : tensor) : num :=
  mean (row metrics_ary METRICS_LOSS_NDX).

(** A finite number that is not negative. *)
Definition nonneg (x : num) : Prop :=
  exists q : Qc, x = Fin q /\ (0 <= q)%Qc.

(** Every entry of the array is finite. *)
Definition all_finite (metrics_ary : tensor) : Prop :=
  forall row x, In row metrics_ary -> In x row -> isfinite x = true.

(** ** Scenario A

    Four samples without nodule (label 0, empty masks) of two by two
    pixels and eight input channels, in one batch, and a network that
    predicts 0 at every pixel. *)
Definition blank_sample : sample :=
  Sample (repeat zero 32) (repeat zero 4) 0%Z (repeat zero 4) (repeat zero 4).

(** A data set without series: [logImages] has nothing to show. *)
Definition no_slice (series_uid : string) (slice_ndx : nat) : slice_tup :=
  SliceTup [] [] [] [] series_uid.

Definition scenario_A_dl : DataLoader :=
  Loader (repeat blank_sample 4) 4 0 [] 3 no_slice.

Definition predict_zero (_ : unit) (input : tensor) : tensor :=
  map (fun _ => repeat zero 4) input.

(** ** Scenario C

    Three samples of two by two pixels and eight input channels, cut
    into two batches by a batch size of 2: a malignant nodule (label 3)
    of two pixels, a benign nodule (label 2) of one pixel and a sample
    without nodule.  The network returns the first channel of its input
    as long as the optimizer has made at most two steps, and 0 at every
    pixel after that; the state of the network is the number of steps. *)
Definition scenario_C_samples : list sample :=
  [ Sample ([one; zero; lit 1 4; lit 3 4] ++ repeat zero 28)
           [one; zero; one; zero] 3%Z
           [zero; zero; zero; zero] [one; zero; one; zero];
    Sample ([zero; one; zero; zero] ++ repeat zero 28)
           [zero; one; zero; zero] 2%Z
           [zero; one; zero; zero] [zero; zero; zero; zero];
    Sample ([zero; zero; one; zero] ++ repeat zero 28)
           [zero; zero; zero; zero] 0%Z
           [zero; zero; zero; zero] [zero; zero; zero; zero] ].

Definition scenario_C_dl : DataLoader :=
  Loader scenario_C_samples 2 0 [] 3 no_slice.

Definition first_channel (steps : nat) (input : tensor) : tensor :=
  if Nat.leb steps 2
  then map (fun s => firstn (List.length s / 8) s) input
  else map (fun s => repeat zero (List.length s / 8)) input.

(** The same data set with one series of five slices behind it, for
    [logImages]: each slice has eight channels of 512 by 512 entries, all
    0, and empty masks. *)
Definition blank_image : vec := repeat zero (512 * 512).

Definition blank_slice (series_uid : string) (slice_ndx : nat) : slice_tup :=
  SliceTup (repeat blank_image 8) [blank_image] blank_image blank_image
           series_uid.

Definition scenario_C_series_dl : DataLoader :=
  Loader scenario_C_samples 2 0 ["1.3.6.1.4.1.14519"%string] 3 blank_slice.

(** Every entry of the row [ndx] of the array satisfies [P]. *)
Definition row_all (P : num -> Prop) (metrics_ary : tensor) (ndx : nat) : Prop :=
  forall row, nth_error metrics_ary ndx = Some row -> Forall P row.

(** ** Scenario B

    The metrics of two samples, one malignant (label 3) and one benign
    nodule (label 2), with every positive pixel predicted and no other:
    three and five true positives, no false negative, no false positive,
    and losses 0. *)
Definition scenario_B_metrics : tensor :=
  [ [of_Z 3; of_Z 2];          (* label *)
    [zero; zero];              (* overall dice loss *)
    [zero; zero];              (* malignant dice loss *)
    [zero; zero];              (* unused *)
    [of_Z 3; zero];            (* malignant TP *)
    [zero; zero];              (* malignant FN *)
    [zero; zero];              (* malignant FP *)
    [of_Z 3; of_Z 5];          (* all-class TP *)
    [zero; zero];              (* all-class FN *)
    [zero; zero] ].            (* all-class FP *)

(** The metrics of two samples with every term of the score at work: a
    malignant nodule (label 3) of four pixels, three of them predicted,
    and a sample without nodule with two pixels predicted.  Precision is
    3/5, recall 3/4, F1 2/3, and both mean losses are 1/2. *)
Definition mixed_metrics : tensor :=
  [ [of_Z 3; zero];            (* label *)
    [lit 1 4; lit 3 4];        (* overall dice loss *)
    [lit 1 2; lit 1 4];        (* malignant dice loss *)
    [zero; zero];              (* unused *)
    [of_Z 2; zero];            (* malignant TP *)
    [of_Z 1; zero];            (* malignant FN *)
    [zero; zero];              (* malignant FP *)
    [of_Z 3; zero];            (* all-class TP *)
    [of_Z 1; zero];            (* all-class FN *)
    [zero; of_Z 2] ].          (* all-class FP *)

(** ** Notions for the epoch drivers *)

(** The masks of a sample have the shape of its label mask. *)
Definition sample_ok (s : sample) : Prop :=
  List.length (s_ben s) = List.length (s_label_mask s) /\
  List.length (s_mal s) = List.length (s_label_mask s).

(** The shape contract of the network on the samples of a data set: for
    a batch of them it returns a prediction of the shape of the label
    masks. *)
Definition shape_contract (params : Type) (forward : params -> tensor -> tensor)
    (ds : list sample) : Prop :=
  forall (model : params) (ss : list sample),
    incl ss ds ->
    same_shape (map s_label_mask ss) (forward model (map s_input ss)).

(** The slice assignments of one call of [computeBatchLoss], in the
    order of the source. *)
Definition batch_writes (start_ndx end_ndx : nat) : list write :=
  map (fun r => MkWrite r start_ndx end_ndx)
      [METRICS_LABEL_NDX; METRICS_LOSS_NDX; METRICS_ATP_NDX; METRICS_AFN_NDX;
       METRICS_AFP_NDX; METRICS_MTP_NDX; METRICS_MFN_NDX; METRICS_MAL_LOSS_NDX].

(** The rows [computeBatchLoss] assigns to. *)
Definition written_rows : list nat :=
  [METRICS_LABEL_NDX; METRICS_LOSS_NDX; METRICS_MAL_LOSS_NDX; METRICS_MTP_NDX;
   METRICS_MFN_NDX; METRICS_ATP_NDX; METRICS_AFN_NDX; METRICS_AFP_NDX].

(** Batches as the sampler cuts them: each of [batch_size] samples, but
    for a last one that may be shorter and is not empty. *)
Inductive chunked (A : Type) (batch_size : nat) : list (list A) -> Prop :=
| chunked_nil : chunked batch_size []
| chunked_last (b : list A) :
    1 <= List.length b -> List.length b <= batch_size ->
    chunked batch_size [b]
| chunked_cons (b : list A) (bl : list (list A)) :
    List.length b = batch_size -> chunked batch_size bl ->
    chunked batch_size (b :: bl).

(** The number of samples in a list of batches. *)
Definition total_length (A : Type) (bl : list (list A)) : nat :=
  List.length (List.concat bl).

(** The slice assignments of an epoch over the batches [bl], the first
    of them with index [k]. *)
Fixpoint epoch_writes (A : Type) (batch_size k : nat) (bl : list (list A))
  : list write :=
  match bl with
  | [] => []
  | b :: bl' =>
      batch_writes (k * batch_size) (k * batch_size + List.length b)
        ++ epoch_writes batch_size (S k) bl'
  end.

(** The log of an epoch of [n] samples: every cell of the rows of
    [written_rows] was assigned exactly once, no cell of another row was
    assigned, and every assignment lies inside the [n] columns. *)
Definition written_once (m : metrics) (n : nat) : Prop :=
  (forall r c, In r written_rows -> c < n ->
               times_written (writes m) r c = 1) /\
  (forall r c, ~ In r written_rows -> times_written (writes m) r c = 0) /\
  (forall w, In w (writes m) -> w_start w <= w_stop w /\ w_stop w <= n).

(** ** Notions for the epoch loop *)

(** [best_score] after the epochs of a history, from an initial value. *)
Definition best_after (best_score : num) (hist : list epoch_log) : num :=
  fold_left (fun b e => pymax (e_score e) b) hist best_score.

(** The epoch index of the last promoted epoch of a history. *)
Fixpoint last_best (hist : list epoch_log) : option nat :=
  match hist with
  | [] => None
  | e :: hist' =>
      match last_best hist' with
      | Some j => Some j
      | None => if e_isBest e then Some (e_ndx e) else None
      end
  end.

(** The epochs a loop has added to the history, from the index [k] and
    the best score [best] on: they are numbered in order, and the flag of
    each is [score == max(score, best_score)] for the best score the
    epochs before it have left. *)
Definition flags_ok (k : nat) (best : num) (new : list epoch_log) : Prop :=
  forall h1 e h2, new = h1 ++ e :: h2 ->
    e_ndx e = k + List.length h1 /\
    e_isBest e = eqb (e_score e) (pymax (e_score e) (best_after best h1)).

(** What [run_epoch] leaves alone: the files, the command line and the
    time stamp of the run. *)
Definition keeps_files (params : Type)
    (run : app params -> nat -> result (app params * num)) : Prop :=
  forall self epoch_ndx self1 s,
    run self epoch_ndx = Ok (self1, s) ->
    files self1 = files self /\ cli self1 = cli self /\
    time_str self1 = time_str self.

(** A number that is not NaN. *)
Definition not_nan (x : num) : Prop := x <> NaN.

(** An epoch body for experiments with the loop: epoch [k] scores the
    [k]-th number of [scores] and changes nothing; past the list it
    raises. *)
Definition scripted_epoch (params : Type) (scores : list num)
    (self : app params) (epoch_ndx : nat) : result (app params * num) :=
  match nth_error scores (epoch_ndx - 1) with
  | Some s => Ok (self, s)
  | None => Raise AssertionError
  end.

(** A run of two epochs on scenario A, for training and evaluation
    alike, with an optimizer that leaves the parameters alone. *)
Definition scenario_A_app : app unit :=
  App (Cli 2 "p2ch12" "none") "2019-01-01_00.00.00" 0 tt false [].

Definition scenario_A_main
  : store unit * list epoch_log * outcome unit :=
  main predict_zero (fun p _ => p) (fun p _ => p) (fun _ => 0)
       scenario_A_dl scenario_A_dl scenario_A_app.

(** A run of two epochs on scenario C, for training and evaluation
    alike, by an optimizer that counts its steps: the first epoch is
    evaluated after two steps, with the first channel as the prediction,
    the second after four, with the prediction 0. *)
Definition scenario_C_app : app nat :=
  App (Cli 2 "p2ch12" "none") "2019-01-01_00.00.00" 0 0 false [].

Definition scenario_C_main : store nat * list epoch_log * outcome nat :=
  main first_channel (fun p _ => p) (fun p _ => S p) (fun _ => 0)
       scenario_C_dl scenario_C_dl scenario_C_app.

(** The same run with the series behind the loaders. *)
Definition scenario_C_series_main
  : store nat * list epoch_log * outcome nat :=
  main first_channel (fun p _ => p) (fun p _ => S p) (fun _ => 5)
       scenario_C_series_dl scenario_C_series_dl scenario_C_app.

(** The same run without evaluation samples. *)
Definition empty_dl : DataLoader := Loader [] 4 0 [] 3 no_slice.

Definition empty_test_main : store unit * list epoch_log * outcome unit :=
  main predict_zero (fun p _ => p) (fun p _ => p) (fun _ => 0)
       scenario_A_dl empty_dl scenario_A_app.

(** ** Notions for the contents of the buffer *)

(** What an entry of row [r] of the buffer is like: a loss in [0,1], a
    count that is not negative, or just a finite number. *)
Definition cell_ok (r : nat) (x : num) : Prop :=
  match r with
  | 1 | 2 => probability x
  | 4 | 5 | 7 | 8 | 9 => nonneg x
  | _ => isfinite x = true
  end.

Definition buffer_ok (t : tensor) : Prop :=
  forall r row, nth_error t r = Some row -> Forall (cell_ok r) row.

(** The three masks of a sample are binary. *)
Definition sample_binary (s : sample) : Prop :=
  Forall binary (s_label_mask s) /\ Forall binary (s_ben s) /\
  Forall binary (s_mal s).

(** The value contract of the network on the samples of a data set: its
    predictions are probabilities. *)
Definition value_contract (params : Type)
    (forward : params -> tensor -> tensor) (ds : list sample) : Prop :=
  forall (model : params) (ss : list sample),
    incl ss ds ->
    Forall (Forall probability) (forward model (map s_input ss)).

(** What [logImages] needs of the data set behind a loader and of the
    network.  A slice it shows has more channels than
    [contextSlices_count], every channel and every mask of it is a 512 by
    512 image, and the network returns a 512 by 512 prediction for it;
    every series of the data set has at least five slices, and a slice
    asked for by its series comes with that series. *)
Definition slice_ok (params : Type) (forward : params -> tensor -> tensor)
    (dl : DataLoader) (t : slice_tup) : Prop :=
  contextSlices_count dl < List.length (ct_tensor t) /\
  Forall (fun channel => List.length channel = 512 * 512) (ct_tensor t) /\
  (exists label0 rest,
     nodule_tensor t = label0 :: rest /\ List.length label0 = 512 * 512) /\
  List.length (slice_ben_tensor t) = 512 * 512 /\
  List.length (slice_mal_tensor t) = 512 * 512 /\
  forall model : params,
    exists prediction rest,
      forward model [List.concat (scale_ct (ct_tensor t))]
      = prediction :: rest /\
      List.length prediction = 512 * 512.

Definition images_ok (params : Type) (forward : params -> tensor -> tensor)
    (getCt_shape0 : string -> nat) (dl : DataLoader) : Prop :=
  forall series_uid : string,
    In series_uid (series_list dl) ->
    5 <= getCt_shape0 series_uid /\
    forall slice_ndx : nat,
      slice_ndx < getCt_shape0 series_uid ->
      slice_series_uid (getitem dl series_uid slice_ndx) = series_uid /\
      slice_ok forward dl (getitem dl series_uid slice_ndx).

(** What [run_epoch] does to the sample counter: it adds [n]. *)
Definition counts_samples (params : Type)
    (run : app params -> nat -> result (app params * num)) (n : nat) : Prop :=
  forall self epoch_ndx self1 s,
    run self epoch_ndx = Ok (self1, s) ->
    totalTrainingSamples_count self1 = totalTrainingSamples_count self + n.

(** ** The true positives and false negatives of a batch

    What [computeBatchLoss] stores in the ATP and AFN rows for a batch of
    samples [ss]: the per-sample sums of label times thresholded
    prediction, and of label times one minus thresholded prediction. *)
Definition predictionBool (params : Type) (forward : params -> tensor -> tensor)
    (model : params) (ss : list sample) : tensor :=
  tscal (fun x => of_bool (gtb x (lit 1 2))) (forward model (map s_input ss)).

Definition atp_values (params : Type) (forward : params -> tensor -> tensor)
    (model : params) (ss : list sample) : vec :=
  sum_dim1 (map (fun p => zipw mul (fst p) (snd p))
                (combine (map s_label_mask ss)
                         (predictionBool forward model ss))).

Definition afn_values (params : Type) (forward : params -> tensor -> tensor)
    (model : params) (ss : list sample) : vec :=
  sum_dim1 (map (fun p => zipw mul (fst p) (snd p))
                (combine (map s_label_mask ss)
                         (tscal (fun x => one - x)%num
                                (predictionBool forward model ss)))).
(** * Properties *)

(** ** Arithmetic of the embedded numbers *)

Section QcFacts.
Local Open Scope Qc_scope.

Lemma this_plus (a b : Qc) : (this (a + b) == this a + this b)%Q.
Proof. unfold Qcplus, Q2Qc; cbn [this]. apply Qred_correct. Qed.

Lemma this_mult (a b : Qc) : (this (a * b) == this a * this b)%Q.
Proof. unfold Qcmult, Q2Qc; cbn [this]. apply Qred_correct. Qed.

Lemma this_opp (a : Qc) : (this (- a) == - this a)%Q.
Proof. unfold Qcopp, Q2Qc; cbn [this]. apply Qred_correct. Qed.

Lemma this_minus (a b : Qc) : (this (a - b) == this a - this b)%Q.
Proof. unfold Qcminus. rewrite this_plus, this_opp. reflexivity. Qed.

Lemma this_Q2Qc (q : Q) : (this (Q2Qc q) == q)%Q.
Proof. unfold Q2Qc; cbn [this]. apply Qred_correct. Qed.

End QcFacts.

(** Turns an order goal on [Qc] into one on [Q], for [lra]. *)
Ltac to_Q :=
  unfold Qcle, Qclt, qz in *;
  repeat (rewrite ?this_plus, ?this_mult, ?this_minus, ?this_opp,
            ?this_Q2Qc in * ).

Ltac qc_lra := to_Q; unfold inject_Z in *; lra.

Section QcOrder.
Local Open Scope Qc_scope.

Lemma Qc_pos_neq0 (b : Qc) : 0 < b -> b <> 0.
Proof. intros H E; subst b. qc_lra. Qed.

Lemma Qcdiv_le_1 (a b : Qc) : 0 < b -> a <= b -> a / b <= 1.
Proof.
  intros Hb Hab. pose proof (Qc_pos_neq0 Hb) as Hn.
  apply Qcmult_lt_0_le_reg_r with b; auto.
  replace (a / b * b) with a by (field; auto).
  qc_lra.
Qed.

Lemma Qcdiv_pos (a b : Qc) : 0 < b -> 0 < a -> 0 < a / b.
Proof.
  intros Hb Ha. pose proof (Qc_pos_neq0 Hb) as Hn.
  destruct (Qclt_le_dec 0 (a / b)) as [|Hle]; auto.
  exfalso.
  assert (a / b * b <= 0 * b) as H by (apply Qcmult_le_compat_r; auto using Qclt_le_weak).
  replace (a / b * b) with a in H by (field; auto).
  qc_lra.
Qed.

Lemma Qcdiv_nonneg (a b : Qc) : 0 < b -> 0 <= a -> 0 <= a / b.
Proof.
  intros Hb Ha. destruct (Qcle_lt_or_eq _ _ Ha) as [Hlt|<-].
  - apply Qclt_le_weak, Qcdiv_pos; auto.
  - unfold Qcdiv. rewrite Qcmult_0_l. apply Qcle_refl.
Qed.

End QcOrder.

Section NumFacts.

Lemma Fin_eq (a b : Qc) : (this a == this b)%Q -> Fin a = Fin b.
Proof. intros H. f_equal. apply Qc_is_canon, H. Qed.

Lemma same_true_eq (x y : num) : same x y = true -> x = y.
Proof.
  destruct x, y; simpl; try discriminate; auto.
  intros H. f_equal. apply Qc_eq_bool_correct, H.
Qed.

Lemma mul_comm (x y : num) : (x * y)%num = (y * x)%num.
Proof.
  destruct x, y; simpl; auto. f_equal. apply Qcmult_comm.
Qed.

Lemma add_comm (x y : num) : (x + y)%num = (y + x)%num.
Proof.
  destruct x, y; simpl; auto. f_equal. apply Qcplus_comm.
Qed.

Lemma truthy_zero : truthy zero = false.
Proof. reflexivity. Qed.

Lemma por_zero (y : num) : por zero y = y.
Proof. reflexivity. Qed.

Lemma div_zero_one : (zero / of_Z 1)%num = zero.
Proof. apply same_true_eq. reflexivity. Qed.

Lemma Fin_zero (q : Qc) : q = 0%Qc -> Fin q = zero.
Proof. intros ->. apply Fin_eq. reflexivity. Qed.

Lemma gtb_Fin (a b : Qc) : gtb (Fin a) (Fin b) = true <-> (b < a)%Qc.
Proof.
  simpl. destruct (Qclt_le_dec b a) as [H|H]; split; auto; try discriminate.
  intros H'. exfalso. apply (Qcle_not_lt _ _ H), H'.
Qed.

Lemma score_Fin (f r m a : Qc) :
  score (Fin f) (Fin r) (Fin m) (Fin a)
  = Fin (1 + f - r * Q2Qc (1 # 100) - m * Q2Qc (1 # 1000)
           - a * Q2Qc (1 # 10000))%Qc.
Proof. apply Fin_eq. reflexivity. Qed.

End NumFacts.

(** ** The composite score *)

Lemma get_row (b : tensor) (ndx : nat) (r : vec) :
  get b ndx = Ok r -> r = row b ndx.
Proof.
  unfold get, row. intros H.
  destruct (nth_error b ndx) as [x|] eqn:E; [|discriminate].
  injection H as <-. symmetry. apply nth_error_nth, E.
Qed.

Lemma get_total (b : tensor) (ndx : nat) (x : num) :
  get (map sum b) ndx = Ok x -> x = rowTotal b ndx.
Proof.
  unfold get, rowTotal, row. intros H.
  destruct (nth_error (map sum b) ndx) as [y|] eqn:E; [|discriminate].
  injection H as <-. rewrite nth_error_map in E.
  destruct (nth_error b ndx) as [r|] eqn:Er; [|discriminate].
  injection E as <-. rewrite (nth_error_nth _ _ [] Er). reflexivity.
Qed.


(** C1.  Whenever the reducer returns, the entries 'pr/f1_score',
    'pr/recall', 'loss/mal' and 'loss/all' of its metrics record are the
    F1 score, the recall and the two mean losses of the buffer as the
    specification derives them from its rows, and the score it returns is
    [1 + f1 - 0.01*recall - 0.001*meanMalLoss - 0.0001*meanAllLoss] in
    these four values. *)
Theorem logMetrics_score_formula (metrics_ary : tensor) (d : metrics_dict)
    (s : num) :
  logMetrics metrics_ary = Ok (d, s) ->
  pr_f1_score d = f1_of metrics_ary /\
  pr_recall d = recall_of metrics_ary /\
  loss_mal d = meanMalLoss_of metrics_ary /\
  loss_all d = meanAllLoss_of metrics_ary /\
  s = (one + f1_of metrics_ary
         - lit 1 100 * recall_of metrics_ary
         - lit 1 1000 * meanMalLoss_of metrics_ary
         - lit 1 10000 * meanAllLoss_of metrics_ary)%num.
Proof.
  unfold logMetrics. intros H.
  destruct (negb (forallb (forallb isfinite) metrics_ary)); [discriminate|].
  repeat match type of H with
         | bind ?m _ = _ =>
             let E := fresh "E" in
             destruct m eqn:E; cbn [bind] in H; [|discriminate];
             first [apply get_total in E | apply get_row in E]; subst
         end.
  inversion H; subst; clear H.
  cbn [pr_f1_score pr_recall loss_mal loss_all].
  unfold score, f1_of, precision_of, recall_of, meanMalLoss_of,
    meanAllLoss_of, malignantMask, floored, por, one.
  rewrite (mul_comm (lit 1 100)), (mul_comm (lit 1 1000)),
    (mul_comm (lit 1 10000)).
  repeat split; reflexivity.
Qed.

(** C7.  On finite arguments the score is strictly increasing in F1 and
    strictly decreasing in recall, in the mean malignant loss and in the
    mean overall loss, the other three arguments held fixed. *)
Theorem score_monotone (f1 recall lossMal lossAll x : Qc) :
  ((f1 < x)%Qc ->
     lt (score (Fin f1) (Fin recall) (Fin lossMal) (Fin lossAll))
        (score (Fin x) (Fin recall) (Fin lossMal) (Fin lossAll))) /\
  ((recall < x)%Qc ->
     lt (score (Fin f1) (Fin x) (Fin lossMal) (Fin lossAll))
        (score (Fin f1) (Fin recall) (Fin lossMal) (Fin lossAll))) /\
  ((lossMal < x)%Qc ->
     lt (score (Fin f1) (Fin recall) (Fin x) (Fin lossAll))
        (score (Fin f1) (Fin recall) (Fin lossMal) (Fin lossAll))) /\
  ((lossAll < x)%Qc ->
     lt (score (Fin f1) (Fin recall) (Fin lossMal) (Fin x))
        (score (Fin f1) (Fin recall) (Fin lossMal) (Fin lossAll))).
Proof.
  unfold lt. rewrite !score_Fin.
  repeat split; intros H; apply gtb_Fin; qc_lra.
Qed.

(** ** The dice loss *)

Section Zips.

Lemma vzip_ok (f : num -> num -> num) (a b : vec) :
  List.length a = List.length b -> vzip f a b = Ok (zipw f a b).
Proof.
  revert b. induction a as [|x a IH]; intros [|y b] H; try discriminate.
  - reflexivity.
  - simpl in *. rewrite IH by lia. reflexivity.
Qed.

Lemma tzip_ok (f : num -> num -> num) (a b : tensor) :
  same_shape a b ->
  tzip f a b = Ok (map (fun p => zipw f (fst p) (snd p)) (combine a b)).
Proof.
  induction 1 as [|x y a b Hxy _ IH]; [reflexivity|].
  simpl. rewrite (vzip_ok f _ _ Hxy). simpl. rewrite IH. reflexivity.
Qed.

Lemma same_shape_length (a b : tensor) :
  same_shape a b -> List.length a = List.length b.
Proof. induction 1; simpl; congruence. Qed.

Lemma same_shape_sym (a b : tensor) : same_shape a b -> same_shape b a.
Proof. induction 1; constructor; auto. Qed.

Lemma zipw_length (f : num -> num -> num) (a b : vec) :
  List.length (zipw f a b) = Nat.min (List.length a) (List.length b).
Proof. unfold zipw. rewrite length_map, length_combine. reflexivity. Qed.

Lemma mul_one_l (x : num) : (one * x)%num = x.
Proof.
  destruct x; try reflexivity. simpl. f_equal. apply Qcmult_1_l.
Qed.

Lemma zipw_mul_comm (a b : vec) : zipw mul a b = zipw mul b a.
Proof.
  unfold zipw. revert b. induction a as [|x a IH]; intros [|y b]; simpl; auto.
  rewrite IH, (mul_comm x y). reflexivity.
Qed.

End Zips.

Ltac solve_len :=
  repeat rewrite ?zipw_length, ?length_map, ?length_combine; lia.

(** The loss of a batch is the list of the losses of its samples. *)
Lemma diceLoss_samples (label prediction : tensor) (epsilon : num) :
  same_shape label prediction ->
  diceLoss label prediction epsilon
  = Ok (map (fun lp => dice_of_sample (fst lp) (snd lp) epsilon)
            (combine label prediction)).
Proof.
  intros Hs. pose proof (same_shape_length Hs) as Hlen.
  unfold diceLoss.
  rewrite (tzip_ok mul (same_shape_sym Hs)). cbn [bind].
  unfold sum_dim1, vscal, ones_like.
  repeat (rewrite vzip_ok by solve_len; cbn [bind]).
  f_equal.
  induction Hs as [|l p ls ps Hlp Hs IH]; [reflexivity|].
  simpl in Hlen. injection Hlen as Hlen.
  cbn -[sum mul add div sub of_Z]. f_equal.
  - unfold dice_of_sample, overlap, predSum, labelSum.
    pose proof (zipw_mul_comm p l) as E. unfold zipw in E |- *.
    rewrite mul_one_l, E. reflexivity.
  - apply (IH Hlen).
Qed.

(** C6.  For a label and a prediction of one shape and any smoothing
    constant, [diceLoss] returns, sample by sample, the value
    [1 - (2*overlap + epsilon) / (predSum + labelSum + epsilon)]. *)
Theorem diceLoss_per_sample (label prediction : tensor) (epsilon : num) :
  same_shape label prediction ->
  diceLoss label prediction epsilon
  = Ok (map (fun lp => dice_of_sample (fst lp) (snd lp) epsilon)
            (combine label prediction)).
Proof.
  intros Hs. pose proof (same_shape_length Hs) as Hlen.
  unfold diceLoss.
  rewrite (tzip_ok mul (same_shape_sym Hs)). cbn [bind].
  unfold sum_dim1, vscal, ones_like.
  repeat (rewrite vzip_ok by solve_len; cbn [bind]).
  f_equal.
  induction Hs as [|l p ls ps Hlp Hs IH]; [reflexivity|].
  simpl in Hlen. injection Hlen as Hlen.
  cbn -[sum mul add div sub of_Z]. f_equal.
  - unfold dice_of_sample, overlap, predSum, labelSum.
    pose proof (zipw_mul_comm p l) as E. unfold zipw in E |- *.
    rewrite mul_one_l, E. reflexivity.
  - apply (IH Hlen).
Qed.

Section DiceRange.
Local Open Scope Qc_scope.

Lemma overlap_cons (x y : num) (l p : vec) :
  overlap (x :: l) (y :: p) = (x * y + overlap l p)%num.
Proof. reflexivity. Qed.

(** The three sums of a sample are finite, and the overlap is below both
    of the others. *)
Lemma sample_sums (l p : vec) :
  List.length l = List.length p ->
  Forall binary l -> Forall probability p ->
  exists L P O : Qc,
    sum l = Fin L /\ sum p = Fin P /\ overlap l p = Fin O /\
    0 <= O /\ O <= L /\ O <= P.
Proof.
  revert p. induction l as [|x l IH]; intros [|y p] Hlen Hl Hp;
    try discriminate.
  - exists 0, 0, 0. repeat split; try reflexivity; apply Qcle_refl.
  - inversion Hl as [|? ? Hx Hl']; inversion Hp as [|? ? Hy Hp']; subst.
    simpl in Hlen. injection Hlen as Hlen.
    destruct (IH p Hlen Hl' Hp') as (L & P & O & EL & EP & EO & H0 & H1 & H2).
    destruct Hy as (q & -> & Hq0 & Hq1).
    rewrite overlap_cons. cbn [sum]. rewrite EL, EP, EO.
    destruct Hx as [-> | ->]; cbn [zero one of_Z mul add].
    + exists (qz 0 + L), (q + P), (qz 0 * q + O).
      repeat split; try reflexivity; qc_lra.
    + exists (qz 1 + L), (q + P), (qz 1 * q + O).
      repeat split; try reflexivity; qc_lra.
Qed.

Lemma div_Fin (a b : Qc) : b <> 0 -> (Fin a / Fin b)%num = Fin (a / b).
Proof.
  intros Hb. simpl. destruct (Qc_eq_dec b 0); [contradiction|reflexivity].
Qed.

Lemma dice_of_sample_Fin (l p : vec) (e : Qc) :
  List.length l = List.length p ->
  Forall binary l -> Forall probability p -> 0 < e ->
  exists L P O : Qc,
    sum l = Fin L /\ sum p = Fin P /\ overlap l p = Fin O /\
    0 <= O /\ O <= L /\ O <= P /\
    dice_of_sample l p (Fin e)
    = Fin (qz 1 + - ((qz 2 * O + e) / (P + L + e))).
Proof.
  intros Hlen Hl Hp He.
  destruct (sample_sums Hlen Hl Hp) as (L & P & O & EL & EP & EO & H0 & H1 & H2).
  exists L, P, O. repeat split; auto.
  unfold dice_of_sample, labelSum, predSum. rewrite EL, EP, EO.
  cbn [of_Z mul add one]. rewrite div_Fin; [reflexivity|].
  apply Qc_pos_neq0. qc_lra.
Qed.

Lemma dice_of_sample_range (l p : vec) (e : Qc) :
  List.length l = List.length p ->
  Forall binary l -> Forall probability p -> 0 < e ->
  in_0_1_closed_open (dice_of_sample l p (Fin e)).
Proof.
  intros Hlen Hl Hp He.
  destruct (dice_of_sample_Fin Hlen Hl Hp He)
    as (L & P & O & _ & _ & _ & H0 & H1 & H2 & E).
  rewrite E. eexists; split; [reflexivity|].
  assert (HD : 0 < P + L + e) by qc_lra.
  assert (HN : 0 < qz 2 * O + e) by qc_lra.
  assert (HND : qz 2 * O + e <= P + L + e) by qc_lra.
  pose proof (Qcdiv_le_1 HD HND) as Hle.
  pose proof (Qcdiv_pos HD HN) as Hpos.
  revert Hle Hpos. generalize ((qz 2 * O + e) / (P + L + e)). intros t Hle Hpos.
  split; qc_lra.
Qed.

Lemma zipw_mul_binary (l : vec) : Forall binary l -> zipw mul l l = l.
Proof.
  induction 1 as [|x l Hx _ IH]; [reflexivity|].
  unfold zipw in *. simpl. rewrite IH. f_equal.
  destruct Hx as [-> | ->]; apply same_true_eq; reflexivity.
Qed.

Lemma dice_of_sample_exact (l : vec) (e : Qc) :
  Forall binary l -> Forall probability l -> 0 < e ->
  dice_of_sample l l (Fin e) = zero.
Proof.
  intros Hl Hp He.
  destruct (dice_of_sample_Fin eq_refl Hl Hp He)
    as (L & P & O & EL & EP & EO & H0 & H1 & H2 & E).
  rewrite E. unfold overlap in EO. rewrite (zipw_mul_binary Hl) in EO.
  assert (P = L) by congruence. assert (O = L) by congruence. subst P O.
  apply Fin_zero.
  assert (HD : L + L + e <> 0) by (apply Qc_pos_neq0; qc_lra).
  assert (E2 : qz 2 * L + e = L + L + e) by (apply Qc_is_canon; qc_lra).
  rewrite E2. unfold Qcdiv. rewrite Qcmult_inv_r by exact HD.
  apply Qc_is_canon. reflexivity.
Qed.

Lemma float32_normal_pos (e : Qc) : float32_normal e -> 0 < e.
Proof.
  intros [H _]. apply Qclt_le_trans with (y := float32_min_normal); [|exact H].
  reflexivity.
Qed.

Lemma in_0_1_probability (x : num) : in_0_1_closed_open x -> probability x.
Proof.
  intros (q & -> & H0 & H1). exists q. split; [reflexivity|].
  split; [exact H0|apply Qclt_le_weak, H1].
Qed.

End DiceRange.

(** C2, as amended.  For a binary label and a prediction with entries in
    [0,1] of one shape, and a smoothing constant in the positive normal
    range of float32, every per-sample value of [diceLoss] lies in the
    closed interval [0,1]; and where the prediction is the label itself
    every per-sample value is 0, for every such constant: the interval is
    closed at 0. *)
Theorem diceLoss_range (label prediction : tensor) (e : Qc) :
  same_shape label prediction ->
  Forall (Forall binary) label ->
  Forall (Forall probability) prediction ->
  float32_normal e ->
  exists losses : vec,
    diceLoss label prediction (Fin e) = Ok losses /\
    List.length losses = List.length label /\
    Forall probability losses /\
    (prediction = label -> Forall (fun x => x = zero) losses).
Proof.
  intros Hs Hl Hp He. apply float32_normal_pos in He.
  eexists. split; [apply (diceLoss_samples _ Hs)|].
  split; [rewrite length_map, length_combine, (same_shape_length Hs); lia|].
  split.
  - clear -Hs Hl Hp He. induction Hs as [|l p ls ps Hlp Hs IH]; simpl; constructor.
    + inversion Hl; inversion Hp; subst.
      apply in_0_1_probability, dice_of_sample_range; auto.
    + inversion Hl; inversion Hp; subst. apply IH; auto.
  - intros ->. clear Hs. induction label as [|l ls IH]; simpl; constructor.
    + inversion Hl; inversion Hp; subst. apply dice_of_sample_exact; auto.
    + inversion Hl; inversion Hp; subst. apply IH; auto.
Qed.

Lemma diceLoss_range_witness :
  exists losses : vec,
    diceLoss [[one; zero; one]; [zero; zero; zero]]
             [[lit 1 2; lit 1 4; one]; [zero; one; lit 3 4]]
             default_epsilon
    = Ok losses /\
    List.length losses = 2 /\
    Forall probability losses /\
    ([[lit 1 2; lit 1 4; one]; [zero; one; lit 3 4]]
     = [[one; zero; one]; [zero; zero; zero]] ->
     Forall (fun x => x = zero) losses).
Proof.
  apply (@diceLoss_range [[one; zero; one]; [zero; zero; zero]]
           [[lit 1 2; lit 1 4; one]; [zero; one; lit 3 4]] (qz 1024)).
  - repeat constructor.
  - repeat constructor; (left; reflexivity) || (right; reflexivity).
  - repeat constructor;
      (eexists; split; [reflexivity|split; vm_compute; congruence]).
  - split; vm_compute; congruence.
Defined.

(** C2, as stated, fails: with the prediction equal to a binary label the
    loss is 0, which is not in (0,1]. *)
Lemma diceLoss_range_counterexample :
  same_shape [[one]] [[one]] /\
  Forall (Forall binary) [[one]] /\
  Forall (Forall probability) [[one]] /\
  (0 < 1)%Qc /\
  exists losses : vec,
    diceLoss [[one]] [[one]] (Fin 1) = Ok losses /\
    ~ Forall in_0_1_open_closed losses.
Proof.
  split; [repeat constructor|].
  split; [repeat constructor; right; reflexivity|].
  split; [repeat constructor; eexists; split;
          [reflexivity|split; vm_compute; congruence]|].
  split; [reflexivity|].
  exists [zero]. split.
  - rewrite diceLoss_samples by (repeat constructor).
    cbn [combine map fst snd].
    replace (dice_of_sample [one] [one] (Fin 1)) with zero
      by (symmetry; apply same_true_eq; reflexivity).
    reflexivity.
  - intros H. inversion H as [|x l (q & E & Hq & _) _]; subst.
    injection E as E. subst q. vm_compute in Hq. discriminate.
Qed.

Lemma diceLoss_per_sample_witness :
  diceLoss [[one; zero]; [zero; zero]] [[lit 1 2; lit 1 4]; [zero; one]]
           default_epsilon
  = Ok [dice_of_sample [one; zero] [lit 1 2; lit 1 4] default_epsilon;
        dice_of_sample [zero; zero] [zero; one] default_epsilon].
Proof.
  apply (@diceLoss_per_sample [[one; zero]; [zero; zero]]
           [[lit 1 2; lit 1 4]; [zero; one]] default_epsilon).
  repeat constructor.
Defined.

Lemma logMetrics_score_formula_witness :
  exists d : metrics_dict,
    logMetrics mixed_metrics = Ok (d, lit 99517 60000) /\
    pr_f1_score d = lit 2 3 /\
    pr_recall d = lit 3 4 /\
    loss_mal d = lit 1 2 /\
    loss_all d = lit 1 2.
Proof.
  destruct (logMetrics mixed_metrics) as [[d s]|e] eqn:H;
    [|vm_compute in H; discriminate].
  destruct (@logMetrics_score_formula mixed_metrics d s H)
    as (Hf & Hr & Hm & Ha & Hs).
  exists d. rewrite Hf, Hr, Hm, Ha, Hs.
  split; [do 2 f_equal; apply same_true_eq; reflexivity|].
  repeat split; apply same_true_eq; reflexivity.
Defined.

Lemma score_monotone_witness :
  lt (score (Fin 0) (Fin 0) (Fin 0) (Fin 0))
     (score (Fin 1) (Fin 0) (Fin 0) (Fin 0)) /\
  lt (score (Fin 0) (Fin 1) (Fin 0) (Fin 0))
     (score (Fin 0) (Fin 0) (Fin 0) (Fin 0)) /\
  lt (score (Fin 0) (Fin 0) (Fin 1) (Fin 0))
     (score (Fin 0) (Fin 0) (Fin 0) (Fin 0)) /\
  lt (score (Fin 0) (Fin 0) (Fin 0) (Fin 1))
     (score (Fin 0) (Fin 0) (Fin 0) (Fin 0)).
Proof.
  destruct (score_monotone 0 0 0 0 1) as (H1 & H2 & H3 & H4).
  split; [apply H1; reflexivity|].
  split; [apply H2; reflexivity|].
  split; [apply H3; reflexivity|apply H4; reflexivity].
Defined.

(** ** The reducer *)

Section Reducer.

Lemma shape_rows (b : tensor) (n : nat) :
  shape b METRICS_SIZE n ->
  exists r0 r1 r2 r3 r4 r5 r6 r7 r8 r9 : vec,
    b = [r0; r1; r2; r3; r4; r5; r6; r7; r8; r9] /\
    Forall (fun r => List.length r = n) b.
Proof.
  intros [Hlen Hrows]. unfold METRICS_SIZE in Hlen.
  do 10 (destruct b as [|? b]; [discriminate|]).
  destruct b; [|discriminate].
  repeat eexists. exact Hrows.
Qed.

Lemma all_finite_forallb (b : tensor) :
  all_finite b <-> forallb (forallb isfinite) b = true.
Proof.
  unfold all_finite. rewrite forallb_forall. split.
  - intros H row Hrow. apply forallb_forall. intros x Hx. eauto.
  - intros H row x Hrow Hx.
    specialize (H row Hrow). rewrite forallb_forall in H. auto.
Qed.

(** The reducer on an array of ten finite rows. *)
Lemma logMetrics_rows (r0 r1 r2 r3 r4 r5 r6 r7 r8 r9 : vec) :
  forallb (forallb isfinite) [r0; r1; r2; r3; r4; r5; r6; r7; r8; r9] = true ->
  logMetrics [r0; r1; r2; r3; r4; r5; r6; r7; r8; r9]
  = let malLabel_mask := map (fun x => eqb x (of_Z 1) || eqb x (of_Z 3)) r0 in
    let precision := (sum r7 / por (sum r7 + sum r9) (of_Z 1))%num in
    let recall := (sum r7 / por (sum r7 + sum r8) (of_Z 1))%num in
    let d :=
      {| loss_all := mean r1;
         loss_mal := nan_to_num (mean (select malLabel_mask r2));
         correct_mal := (sum r4 / (sum r4 + sum r5) * of_Z 100)%num;
         correct_all := (sum r7 / (sum r7 + sum r8) * of_Z 100)%num;
         pr_precision := precision;
         pr_recall := recall;
         pr_f1_score :=
           (of_Z 2 * (precision * recall)
              / por (precision + recall) (of_Z 1))%num |} in
    Ok (d, score (pr_f1_score d) (pr_recall d) (loss_mal d) (loss_all d)).
Proof.
  intros H. unfold logMetrics. rewrite H. reflexivity.
Qed.

Lemma not_finite_entry (b : tensor) :
  forallb (forallb isfinite) b = false ->
  exists row x, In row b /\ In x row /\ isfinite x = false.
Proof.
  intros E.
  assert (Hex : existsb (fun row => negb (forallb isfinite row)) b = true).
  { rewrite <- negb_false_iff, <- E. clear. induction b; simpl; auto.
    rewrite negb_orb, negb_involutive, IHb. reflexivity. }
  apply existsb_exists in Hex. destruct Hex as (row & Hrow & Hneg).
  assert (Hex : existsb (fun x => negb (isfinite x)) row = true).
  { rewrite <- negb_false_iff. rewrite negb_true_iff in Hneg.
    rewrite <- Hneg. clear. induction row; simpl; auto.
    rewrite negb_orb, negb_involutive, IHrow. reflexivity. }
  apply existsb_exists in Hex. destruct Hex as (x & Hx & Hfin).
  exists row, x. rewrite negb_true_iff in Hfin. auto.
Qed.

Lemma logMetrics_not_finite (b : tensor) :
  forallb (forallb isfinite) b = false -> logMetrics b = Raise AssertionError.
Proof. intros H. unfold logMetrics. rewrite H. reflexivity. Qed.

End Reducer.

(** C9.  On a metrics array of [METRICS_SIZE] rows the reducer fails its
    assertion exactly when some entry of the array is not finite, and on
    an array with all entries finite it returns a metrics record and a
    score. *)
Theorem logMetrics_assertion (metrics_ary : tensor) (n : nat) :
  shape metrics_ary METRICS_SIZE n ->
  (logMetrics metrics_ary = Raise AssertionError <->
   exists row x, In row metrics_ary /\ In x row /\ isfinite x = false) /\
  (all_finite metrics_ary ->
   exists d s, logMetrics metrics_ary = Ok (d, s)).
Proof.
  intros Hs. destruct (shape_rows Hs) as (r0 & r1 & r2 & r3 & r4 & r5 & r6
    & r7 & r8 & r9 & -> & _).
  destruct (forallb (forallb isfinite) [r0; r1; r2; r3; r4; r5; r6; r7; r8; r9])
    eqn:E.
  - rewrite (logMetrics_rows _ _ _ _ _ _ _ _ _ _ E). split.
    + split; [discriminate|].
      intros (row & x & Hrow & Hx & Hfin).
      apply all_finite_forallb in E. rewrite (E row x Hrow Hx) in Hfin.
      discriminate.
    + intros _. cbv zeta. eauto.
  - rewrite (logMetrics_not_finite _ E). split.
    + split; [|reflexivity]. intros _. apply not_finite_entry, E.
    + intros Hfin. apply all_finite_forallb in Hfin. congruence.
Qed.

Lemma logMetrics_assertion_witness :
  (logMetrics (zeros METRICS_SIZE 4) = Raise AssertionError <->
   exists row x, In row (zeros METRICS_SIZE 4) /\ In x row /\ isfinite x = false) /\
  (all_finite (zeros METRICS_SIZE 4) ->
   exists d s, logMetrics (zeros METRICS_SIZE 4) = Ok (d, s)).
Proof.
  apply (@logMetrics_assertion (zeros METRICS_SIZE 4) 4).
  split; [reflexivity|repeat constructor].
Defined.

Section Floor.

Lemma logMetrics_inv (b : tensor) (d : metrics_dict) (s : num) :
  logMetrics b = Ok (d, s) ->
  exists (sum_atp sum_afn sum_afp : num) (label_row mal_loss_row : vec),
    total b METRICS_ATP_NDX = Ok sum_atp /\
    total b METRICS_AFN_NDX = Ok sum_afn /\
    total b METRICS_AFP_NDX = Ok sum_afp /\
    get b METRICS_LABEL_NDX = Ok label_row /\
    get b METRICS_MAL_LOSS_NDX = Ok mal_loss_row /\
    pr_precision d = (sum_atp / por (sum_atp + sum_afp) (of_Z 1))%num /\
    pr_recall d = (sum_atp / por (sum_atp + sum_afn) (of_Z 1))%num /\
    pr_f1_score d
    = (of_Z 2 * (pr_precision d * pr_recall d)
         / por (pr_precision d + pr_recall d) (of_Z 1))%num /\
    correct_all d = (sum_atp / (sum_atp + sum_afn) * of_Z 100)%num /\
    loss_mal d
    = nan_to_num
        (mean (select (map (fun x => eqb x (of_Z 1) || eqb x (of_Z 3)) label_row)
                      mal_loss_row)) /\
    s = score (pr_f1_score d) (pr_recall d) (loss_mal d) (loss_all d).
Proof.
  unfold logMetrics, total. intros H.
  destruct (negb (forallb (forallb isfinite) b)); [discriminate|].
  repeat match type of H with
         | bind ?m _ = _ => destruct m eqn:?; cbn [bind] in H; [|discriminate]
         end.
  inversion H; subst; clear H. cbn.
  eexists _, _, _, _, _. repeat split; reflexivity.
Qed.

Lemma zero_floor : (zero / por (zero + zero) (of_Z 1))%num = zero.
Proof. apply same_true_eq. reflexivity. Qed.

Lemma f1_zero :
  (of_Z 2 * (zero * zero) / por (zero + zero) (of_Z 1))%num = zero.
Proof. apply same_true_eq. reflexivity. Qed.

End Floor.

(** C8.  Whenever the reducer returns: if the totals of the ATP and AFP
    rows are both 0 the precision is exactly 0, the zero denominator
    having been replaced by 1; likewise the recall is 0 if the totals of
    the ATP and AFN rows are both 0; and where precision + recall is 0
    the F1 score is [2 * precision * recall] over 1, which is 0 when
    precision and recall are 0. *)
Theorem floor_policy (metrics_ary : tensor) (d : metrics_dict) (s : num) :
  logMetrics metrics_ary = Ok (d, s) ->
  (total metrics_ary METRICS_ATP_NDX = Ok zero ->
   total metrics_ary METRICS_AFP_NDX = Ok zero ->
   pr_precision d = zero) /\
  (total metrics_ary METRICS_ATP_NDX = Ok zero ->
   total metrics_ary METRICS_AFN_NDX = Ok zero ->
   pr_recall d = zero) /\
  ((pr_precision d + pr_recall d)%num = zero ->
   pr_f1_score d = (of_Z 2 * (pr_precision d * pr_recall d) / of_Z 1)%num) /\
  (pr_precision d = zero -> pr_recall d = zero -> pr_f1_score d = zero).
Proof.
  intros H.
  destruct (logMetrics_inv _ H)
    as (a & n & p & lr & mr & Ea & En & Ep & _ & _ & Hp & Hr & Hf & _).
  split; [|split; [|split]].
  - intros Ha' Hp'. rewrite Hp.
    assert (a = zero) by congruence. assert (p = zero) by congruence.
    subst. apply zero_floor.
  - intros Ha' Hn'. rewrite Hr.
    assert (a = zero) by congruence. assert (n = zero) by congruence.
    subst. apply zero_floor.
  - intros Hz. rewrite Hf at 1. rewrite Hz. reflexivity.
  - intros Hp' Hr'. rewrite Hf, Hp', Hr'. apply f1_zero.
Qed.

Lemma floor_policy_witness :
  exists (d : metrics_dict) (s : num),
    logMetrics (zeros METRICS_SIZE 4) = Ok (d, s) /\
    pr_precision d = zero /\ pr_recall d = zero /\
    pr_f1_score d = (of_Z 2 * (pr_precision d * pr_recall d) / of_Z 1)%num /\
    pr_f1_score d = zero.
Proof.
  destruct (logMetrics (zeros METRICS_SIZE 4)) as [[d s]|e] eqn:H;
    [|vm_compute in H; discriminate].
  exists d, s. split; [reflexivity|].
  destruct (@floor_policy (zeros METRICS_SIZE 4) d s H) as (H1 & H2 & H3 & H4).
  assert (Hp : pr_precision d = zero) by (apply H1; reflexivity).
  assert (Hr : pr_recall d = zero) by (apply H2; reflexivity).
  split; [exact Hp|]. split; [exact Hr|].
  split; [apply H3; rewrite Hp, Hr; apply same_true_eq; reflexivity|].
  apply H4; assumption.
Defined.

Section ScenarioA.

Lemma select_no_malignant (label_row mal_loss_row : vec) :
  Forall (fun x => x = zero) label_row ->
  select (map (fun x => eqb x (of_Z 1) || eqb x (of_Z 3)) label_row)
         mal_loss_row = [].
Proof.
  unfold select. intros H. revert mal_loss_row.
  induction H as [|x l -> _ IH]; intros [|y r]; try reflexivity.
  cbn [map combine]. apply IH.
Qed.

Lemma mean_empty : nan_to_num (mean []) = zero.
Proof. reflexivity. Qed.

Lemma zero_over_zero : (zero / (zero + zero) * of_Z 100)%num = NaN.
Proof. reflexivity. Qed.

Lemma score_no_hits (lossAll : num) :
  score zero zero zero lossAll = (one - lossAll * lit 1 10000)%num.
Proof.
  unfold score.
  replace (one + zero - zero * lit 1 100 - zero * lit 1 1000)%num with one
    by (symmetry; apply same_true_eq; reflexivity).
  reflexivity.
Qed.

End ScenarioA.

(** C3, as amended.  When the reducer returns on an epoch whose samples
    all have label 0 and whose ATP, AFN and AFP rows total 0: the
    percentage 'correct/all' is NaN (its 0/0 is not floored); precision,
    recall and F1 are 0; the mean malignant loss is 0, there being no
    malignant sample; and the score is [1 - 0.0001 * meanAllLoss], at
    most 1 when that mean loss is not negative. *)
Theorem scenario_A (metrics_ary : tensor) (d : metrics_dict) (s : num)
    (label_row : vec) :
  logMetrics metrics_ary = Ok (d, s) ->
  get metrics_ary METRICS_LABEL_NDX = Ok label_row ->
  Forall (fun x => x = zero) label_row ->
  total metrics_ary METRICS_ATP_NDX = Ok zero ->
  total metrics_ary METRICS_AFN_NDX = Ok zero ->
  total metrics_ary METRICS_AFP_NDX = Ok zero ->
  correct_all d = NaN /\
  pr_precision d = zero /\ pr_recall d = zero /\ pr_f1_score d = zero /\
  loss_mal d = zero /\
  s = (one - loss_all d * lit 1 10000)%num /\
  (nonneg (loss_all d) -> exists q : Qc, s = Fin q /\ (q <= 1)%Qc).
Proof.
  intros H Hrow Hlab Ha Hn Hp.
  destruct (logMetrics_inv _ H)
    as (a & n & p & lr & mr & Ea & En & Ep & El & Em & Hpr & Hre & Hf1
        & Hca & Hlm & Hs).
  assert (a = zero) by congruence. assert (n = zero) by congruence.
  assert (p = zero) by congruence. assert (lr = label_row) by congruence.
  subst a n p lr.
  rewrite zero_floor in Hpr, Hre. rewrite Hpr, Hre, f1_zero in Hf1.
  rewrite (select_no_malignant mr Hlab), mean_empty in Hlm.
  rewrite Hf1, Hre, Hlm, score_no_hits in Hs.
  repeat (split; [assumption || (rewrite Hca; apply zero_over_zero)|]).
  intros (q & Eq & Hq). rewrite Hs, Eq. cbn [lit mul sub neg add one of_Z].
  eexists; split; [reflexivity|]. qc_lra.
Qed.

(** Scenario A through the evaluation pass: the buffer the reducer gets
    is all zero. *)
Lemma scenario_A_run :
  exists ws : list write,
    doTesting predict_zero tt scenario_A_dl
    = Ok (Metrics (zeros METRICS_SIZE 4) ws).
Proof. eexists. vm_compute. reflexivity. Qed.

Lemma scenario_A_witness :
  exists (d : metrics_dict) (s : num),
    logMetrics (zeros METRICS_SIZE 4) = Ok (d, s) /\
    correct_all d = NaN /\
    pr_precision d = zero /\ pr_recall d = zero /\ pr_f1_score d = zero /\
    loss_mal d = zero /\
    s = (one - loss_all d * lit 1 10000)%num /\
    (nonneg (loss_all d) -> exists q : Qc, s = Fin q /\ (q <= 1)%Qc).
Proof.
  destruct (logMetrics (zeros METRICS_SIZE 4)) as [[d s]|e] eqn:H;
    [|vm_compute in H; discriminate].
  exists d, s. split; [reflexivity|].
  apply (@scenario_A (zeros METRICS_SIZE 4) d s (repeat zero 4) H).
  - reflexivity.
  - repeat constructor.
  - reflexivity.
  - reflexivity.
  - reflexivity.
Defined.

(** C3, as stated, fails: in scenario A, where the ATP, AFN and AFP
    totals are 0, the percentage 'correct/all' is NaN, not 0. *)
Lemma scenario_A_counterexample :
  exists (ws : list write) (d : metrics_dict) (s : num),
    doTesting predict_zero tt scenario_A_dl
    = Ok (Metrics (zeros METRICS_SIZE 4) ws) /\
    total (zeros METRICS_SIZE 4) METRICS_ATP_NDX = Ok zero /\
    total (zeros METRICS_SIZE 4) METRICS_AFN_NDX = Ok zero /\
    total (zeros METRICS_SIZE 4) METRICS_AFP_NDX = Ok zero /\
    logMetrics (zeros METRICS_SIZE 4) = Ok (d, s) /\
    correct_all d = NaN /\ correct_all d <> zero.
Proof.
  destruct scenario_A_run as (ws & Hrun).
  destruct (logMetrics (zeros METRICS_SIZE 4)) as [[d s]|e] eqn:H;
    [|vm_compute in H; discriminate].
  exists ws, d, s. split; [exact Hrun|].
  do 3 (split; [reflexivity|]). split; [reflexivity|].
  vm_compute in H. injection H as <- _.
  split; [reflexivity|discriminate].
Qed.

(** ** Bounds on what the reducer returns *)

Section Bounds.
Local Open Scope Qc_scope.

Lemma sum_nonneg (l : vec) :
  Forall nonneg l -> exists S : Qc, sum l = Fin S /\ 0 <= S.
Proof.
  induction 1 as [|x l (q & -> & Hq) _ (S & ES & HS)].
  - exists (qz 0). split; [reflexivity|qc_lra].
  - exists (q + S). cbn [sum]. rewrite ES. split; [reflexivity|qc_lra].
Qed.

Lemma sum_finite (l : vec) :
  forallb isfinite l = true -> exists S : Qc, sum l = Fin S.
Proof.
  induction l as [|x l IH]; intros H.
  - eexists; reflexivity.
  - simpl in H. apply andb_true_iff in H as [Hx Hl].
    destruct (IH Hl) as (S & ES). destruct x; try discriminate.
    exists (q + S). cbn [sum]. rewrite ES. reflexivity.
Qed.

Lemma sum_probability (l : vec) :
  Forall probability l ->
  exists S : Qc, sum l = Fin S /\ 0 <= S /\ S <= qz (Z.of_nat (List.length l)).
Proof.
  induction 1 as [|x l (q & -> & Hq0 & Hq1) _ (S & ES & HS0 & HS1)].
  - exists (qz 0). cbn [List.length Z.of_nat].
    repeat split; try reflexivity; qc_lra.
  - exists (q + S). cbn [sum]. rewrite ES. split; [reflexivity|].
    cbn [List.length]. rewrite Nat2Z.inj_succ. unfold Z.succ.
    to_Q. rewrite inject_Z_plus. unfold inject_Z at 2. lra.
Qed.

Lemma qz_pos (n : nat) : 0 < qz (Z.of_nat (S n)).
Proof.
  to_Q. rewrite Nat2Z.inj_succ. unfold Z.succ. rewrite inject_Z_plus.
  assert (0 <= inject_Z (Z.of_nat n))%Q
    by (unfold Qle, inject_Z; simpl; lia).
  unfold inject_Z at 2. lra.
Qed.

Lemma mean_finite (l : vec) (n : nat) :
  forallb isfinite l = true -> List.length l = S n ->
  exists m : Qc, mean l = Fin m.
Proof.
  intros Hf Hlen. destruct (sum_finite _ Hf) as (S0 & ES).
  unfold mean. rewrite ES, Hlen. unfold of_nat, of_Z.
  rewrite div_Fin by (apply Qc_pos_neq0, qz_pos). eauto.
Qed.

Lemma mean_probability (l : vec) (n : nat) :
  Forall probability l -> List.length l = S n -> probability (mean l).
Proof.
  intros Hp Hlen. destruct (sum_probability Hp) as (S0 & ES & H0 & H1).
  unfold mean. rewrite ES, Hlen in *. unfold of_nat, of_Z.
  pose proof (qz_pos n) as Hn.
  rewrite div_Fin by (apply Qc_pos_neq0, Hn).
  eexists; split; [reflexivity|]. split.
  - apply Qcdiv_nonneg; assumption.
  - apply Qcdiv_le_1; assumption.
Qed.

Lemma select_Forall (P : num -> Prop) (mask : list bool) (row : vec) :
  Forall P row -> Forall P (select mask row).
Proof.
  unfold select. intros H. revert mask.
  induction H as [|x l Hx _ IH]; intros [|[] mask]; simpl; auto.
Qed.

Lemma nan_to_num_mean_probability (l : vec) :
  Forall probability l -> probability (nan_to_num (mean l)).
Proof.
  intros H. destruct l as [|x l].
  - exists (qz 0). split; [reflexivity|]. split; qc_lra.
  - destruct (mean_probability (n := List.length l) H eq_refl)
      as (q & E & Hq). rewrite E. exists q. auto.
Qed.

Lemma nan_to_num_finite (x : num) : exists q : Qc, nan_to_num x = Fin q.
Proof. destruct x; eexists; reflexivity. Qed.

(** [a / (b or 1)] on finite numbers is finite. *)
Lemma ratio_floor_finite (a b : Qc) :
  exists c : Qc, (Fin a / por (Fin b) (of_Z 1))%num = Fin c.
Proof.
  unfold por, truthy. destruct (Qc_eq_dec b 0) as [Hb|Hb].
  - unfold of_Z. rewrite div_Fin; [eauto|].
    intros E. apply (f_equal this) in E. vm_compute in E. discriminate.
  - rewrite div_Fin by assumption. eauto.
Qed.

(** [a / (b or 1)] for [0 <= a] and [0 <= b]: not negative, and at most
    1 when [a <= b]. *)
Lemma ratio_floor (a b : Qc) :
  0 <= a -> 0 <= b ->
  exists c : Qc, (Fin a / por (Fin b) (of_Z 1))%num = Fin c /\ 0 <= c /\
                 (a <= b -> c <= 1).
Proof.
  intros Ha Hb. unfold por, truthy. destruct (Qc_eq_dec b 0) as [Hb0|Hb0].
  - subst b. unfold of_Z.
    assert (H1 : 0 < qz 1) by qc_lra.
    rewrite div_Fin by (apply Qc_pos_neq0, H1).
    eexists; split; [reflexivity|]. split.
    + apply Qcdiv_nonneg; assumption.
    + intros Hab. apply Qcdiv_le_1; [assumption|]. qc_lra.
  - assert (Hpos : 0 < b).
    { destruct (Qcle_lt_or_eq _ _ Hb) as [|E]; [assumption|].
      exfalso. apply Hb0. symmetry. exact E. }
    rewrite div_Fin by assumption.
    eexists; split; [reflexivity|]. split.
    + apply Qcdiv_nonneg; assumption.
    + intros Hab. apply Qcdiv_le_1; assumption.
Qed.

Lemma Qcmult_nonneg (p r : Qc) : 0 <= p -> 0 <= r -> 0 <= p * r.
Proof.
  intros Hp Hr. rewrite <- (Qcmult_0_l r). apply Qcmult_le_compat_r; assumption.
Qed.

End Bounds.

Section ReducerBounds.
Local Open Scope Qc_scope.

Lemma rows_finite (r0 r1 r2 r3 r4 r5 r6 r7 r8 r9 : vec) :
  forallb (forallb isfinite) [r0; r1; r2; r3; r4; r5; r6; r7; r8; r9] = true ->
  forallb isfinite r1 = true /\ forallb isfinite r7 = true /\
  forallb isfinite r8 = true /\ forallb isfinite r9 = true.
Proof.
  cbn [forallb]. rewrite !andb_true_iff. tauto.
Qed.

Lemma f1_finite (p r : Qc) :
  exists f : Qc,
    (of_Z 2 * (Fin p * Fin r) / por (Fin p + Fin r) (of_Z 1))%num = Fin f.
Proof. cbn [of_Z mul add]. apply ratio_floor_finite. Qed.

(** With at least one sample and only finite entries, the reducer
    returns a finite score. *)
Lemma logMetrics_finite_score (b : tensor) (n : nat) :
  shape b METRICS_SIZE (S n) -> all_finite b ->
  exists (d : metrics_dict) (q : Qc), logMetrics b = Ok (d, Fin q).
Proof.
  intros Hs Hf. destruct (shape_rows Hs) as (r0 & r1 & r2 & r3 & r4 & r5 & r6
    & r7 & r8 & r9 & -> & Hlen).
  apply all_finite_forallb in Hf.
  rewrite (logMetrics_rows _ _ _ _ _ _ _ _ _ _ Hf). cbv zeta.
  destruct (rows_finite _ _ _ _ _ _ _ _ _ _ Hf) as (F1 & F7 & F8 & F9).
  destruct (sum_finite _ F7) as (A & EA). destruct (sum_finite _ F8) as (N & EN).
  destruct (sum_finite _ F9) as (P & EP).
  assert (L1 : List.length r1 = S n).
  { rewrite Forall_forall in Hlen. apply Hlen. simpl; auto. }
  destruct (mean_finite _ F1 L1) as (la & Ela).
  cbn [pr_f1_score pr_recall loss_mal loss_all].
  rewrite EA, EN, EP, Ela. cbn [add].
  destruct (ratio_floor_finite A (A + P)) as (p & ->).
  destruct (ratio_floor_finite A (A + N)) as (r & ->).
  destruct (f1_finite p r) as (f & ->).
  match goal with |- context [nan_to_num ?x] =>
    destruct (nan_to_num_finite x) as (lm & ->) end.
  rewrite score_Fin. eauto.
Qed.

(** Without samples the score is NaN. *)
Lemma logMetrics_empty_score (b : tensor) :
  shape b METRICS_SIZE 0 -> exists d : metrics_dict, logMetrics b = Ok (d, NaN).
Proof.
  intros Hs. destruct (shape_rows Hs) as (r0 & r1 & r2 & r3 & r4 & r5 & r6
    & r7 & r8 & r9 & -> & Hlen).
  repeat (apply Forall_cons_iff in Hlen as [?%length_zero_iff_nil Hlen]).
  subst. eexists. reflexivity.
Qed.

(** The lower bound of the score: loss rows in [0,1] and the rows of
    the all-class counts not negative. *)
Lemma score_lower_bound (b : tensor) (n : nat) :
  shape b METRICS_SIZE (S n) -> all_finite b ->
  row_all probability b METRICS_LOSS_NDX ->
  row_all probability b METRICS_MAL_LOSS_NDX ->
  row_all nonneg b METRICS_ATP_NDX ->
  row_all nonneg b METRICS_AFN_NDX ->
  row_all nonneg b METRICS_AFP_NDX ->
  exists (d : metrics_dict) (q : Qc),
    logMetrics b = Ok (d, Fin q) /\ Q2Qc (9889 # 10000) <= q.
Proof.
  intros Hs Hf H1 H2 H7 H8 H9.
  destruct (shape_rows Hs) as (r0 & r1 & r2 & r3 & r4 & r5 & r6
    & r7 & r8 & r9 & -> & Hlen).
  apply all_finite_forallb in Hf.
  rewrite (logMetrics_rows _ _ _ _ _ _ _ _ _ _ Hf). cbv zeta.
  specialize (H1 r1 eq_refl). specialize (H2 r2 eq_refl).
  specialize (H7 r7 eq_refl). specialize (H8 r8 eq_refl).
  specialize (H9 r9 eq_refl).
  destruct (sum_nonneg H7) as (A & EA & HA).
  destruct (sum_nonneg H8) as (N & EN & HN).
  destruct (sum_nonneg H9) as (P & EP & HP).
  assert (L1 : List.length r1 = S n).
  { rewrite Forall_forall in Hlen. apply Hlen. simpl; auto. }
  destruct (mean_probability H1 L1) as (la & Ela & Hla0 & Hla1).
  cbn [pr_f1_score pr_recall loss_mal loss_all].
  rewrite EA, EN, EP, Ela. cbn [add].
  destruct (@ratio_floor A (A + P)) as (p & -> & Hp & _); [assumption|qc_lra|].
  destruct (@ratio_floor A (A + N)) as (r & -> & Hr0 & Hr1);
    [assumption|qc_lra|].
  assert (Hr : r <= 1) by (apply Hr1; qc_lra).
  cbn [of_Z mul add].
  destruct (@ratio_floor (qz 2 * (p * r)) (p + r)) as (f & -> & Hf0 & _).
  { apply Qcmult_nonneg; [qc_lra|]. apply Qcmult_nonneg; assumption. }
  { qc_lra. }
  match goal with |- context [nan_to_num (mean (select ?m r2))] =>
    destruct (nan_to_num_mean_probability (select_Forall m H2))
      as (lm & -> & Hlm0 & Hlm1) end.
  rewrite score_Fin. eexists _, _. split; [reflexivity|]. qc_lra.
Qed.

End ReducerBounds.

(** ** Further properties of the reducer *)

Section ReducerMore.
Local Open Scope Qc_scope.

Lemma Fin_isfinite (x : num) : isfinite x = true <-> exists q : Qc, x = Fin q.
Proof.
  destruct x; simpl; split; eauto; try discriminate;
    intros (q & E); discriminate.
Qed.

Lemma f1_probability (p r : Qc) :
  0 <= p -> p <= 1 -> 0 <= r -> r <= 1 ->
  probability (of_Z 2 * (Fin p * Fin r) / por (Fin p + Fin r) (of_Z 1))%num.
Proof.
  intros Hp0 Hp1 Hr0 Hr1. cbn [of_Z mul add].
  pose proof (Qcmult_nonneg Hp0 Hr0) as Hpr.
  pose proof (Qcmult_le_compat_r r 1 p Hr1 Hp0) as H1.
  pose proof (Qcmult_le_compat_r p 1 r Hp1 Hr0) as H2.
  rewrite Qcmult_1_l in H1, H2. rewrite (Qcmult_comm r p) in H1.
  destruct (@ratio_floor (qz 2 * (p * r)) (p + r)) as (f & -> & Hf0 & Hf1).
  - apply Qcmult_nonneg; [qc_lra|assumption].
  - qc_lra.
  - exists f. split; [reflexivity|]. split; [assumption|].
    apply Hf1. revert Hpr H1 H2. generalize (p * r). intros t Hpr H1 H2. qc_lra.
Qed.

Lemma div_self (a : Qc) : a <> 0 -> (Fin a / Fin a)%num = one.
Proof.
  intros Ha. rewrite div_Fin by assumption. unfold Qcdiv.
  rewrite Qcmult_inv_r by assumption. apply Fin_eq. reflexivity.
Qed.

Lemma add_zero_r (a : Qc) : (Fin a + zero)%num = Fin a.
Proof. cbn [add zero of_Z]. apply Fin_eq. qc_lra. Qed.

Lemma por_nonzero (a : Qc) (y : num) : a <> 0 -> por (Fin a) y = Fin a.
Proof.
  intros Ha. unfold por, truthy. destruct (Qc_eq_dec a 0); [contradiction|].
  reflexivity.
Qed.

Lemma f1_one : (of_Z 2 * (one * one) / por (one + one) (of_Z 1))%num = one.
Proof. apply same_true_eq. reflexivity. Qed.

End ReducerMore.

(** X1.  For a metrics array with at least one column, all entries
    finite, the two loss rows in [0,1] and the three all-class count rows
    not negative, the reducer returns precision, recall, F1 and both mean
    losses in [0,1], and a score between 0.9889 and 2. *)
Theorem logMetrics_ranges (metrics_ary : tensor) (n : nat) :
  shape metrics_ary METRICS_SIZE (S n) ->
  all_finite metrics_ary ->
  row_all probability metrics_ary METRICS_LOSS_NDX ->
  row_all probability metrics_ary METRICS_MAL_LOSS_NDX ->
  row_all nonneg metrics_ary METRICS_ATP_NDX ->
  row_all nonneg metrics_ary METRICS_AFN_NDX ->
  row_all nonneg metrics_ary METRICS_AFP_NDX ->
  exists (d : metrics_dict) (q : Qc),
    logMetrics metrics_ary = Ok (d, Fin q) /\
    probability (pr_precision d) /\ probability (pr_recall d) /\
    probability (pr_f1_score d) /\
    probability (loss_all d) /\ probability (loss_mal d) /\
    (Q2Qc (9889 # 10000) <= q)%Qc /\ (q <= Q2Qc 2)%Qc.
Proof.
  intros Hs Hf H1 H2 H7 H8 H9.
  destruct (shape_rows Hs) as (r0 & r1 & r2 & r3 & r4 & r5 & r6
    & r7 & r8 & r9 & -> & Hlen).
  apply all_finite_forallb in Hf.
  rewrite (logMetrics_rows _ _ _ _ _ _ _ _ _ _ Hf). cbv zeta.
  specialize (H1 r1 eq_refl). specialize (H2 r2 eq_refl).
  specialize (H7 r7 eq_refl). specialize (H8 r8 eq_refl).
  specialize (H9 r9 eq_refl).
  destruct (sum_nonneg H7) as (A & EA & HA).
  destruct (sum_nonneg H8) as (N & EN & HN).
  destruct (sum_nonneg H9) as (P & EP & HP).
  assert (L1 : List.length r1 = S n).
  { rewrite Forall_forall in Hlen. apply Hlen. simpl; auto. }
  destruct (mean_probability H1 L1) as (la & Ela & Hla0 & Hla1).
  cbn [pr_f1_score pr_recall pr_precision loss_mal loss_all].
  rewrite EA, EN, EP, Ela. cbn [add].
  destruct (@ratio_floor A (A + P)%Qc) as (p & -> & Hp0 & Hp1);
    [assumption|qc_lra|].
  destruct (@ratio_floor A (A + N)%Qc) as (r & -> & Hr0 & Hr1);
    [assumption|qc_lra|].
  assert (Hp : (p <= 1)%Qc) by (apply Hp1; qc_lra).
  assert (Hr : (r <= 1)%Qc) by (apply Hr1; qc_lra).
  destruct (f1_probability Hp0 Hp Hr0 Hr) as (f & -> & Hf0 & Hf1).
  match goal with |- context [nan_to_num (mean (select ?m r2))] =>
    destruct (nan_to_num_mean_probability (select_Forall m H2))
      as (lm & -> & Hlm0 & Hlm1) end.
  rewrite score_Fin. eexists _, _. split; [reflexivity|].
  split; [exists p; auto|]. split; [exists r; auto|].
  split; [exists f; auto|]. split; [exists la; auto|].
  split; [exists lm; auto|]. split; qc_lra.
Qed.

Lemma logMetrics_ranges_witness :
  exists (d : metrics_dict) (q : Qc),
    logMetrics (zeros METRICS_SIZE 4) = Ok (d, Fin q) /\
    probability (pr_precision d) /\ probability (pr_recall d) /\
    probability (pr_f1_score d) /\
    probability (loss_all d) /\ probability (loss_mal d) /\
    (Q2Qc (9889 # 10000) <= q)%Qc /\ (q <= Q2Qc 2)%Qc.
Proof.
  apply (@logMetrics_ranges (zeros METRICS_SIZE 4) 3).
  - split; [reflexivity|repeat constructor].
  - apply all_finite_forallb. reflexivity.
  - intros row E. injection E as <-.
    repeat constructor; exists (qz 0); (split; [reflexivity|split; discriminate]).
  - intros row E. injection E as <-.
    repeat constructor; exists (qz 0); (split; [reflexivity|split; discriminate]).
  - intros row E. injection E as <-.
    repeat constructor; exists (qz 0); (split; [reflexivity|discriminate]).
  - intros row E. injection E as <-.
    repeat constructor; exists (qz 0); (split; [reflexivity|discriminate]).
  - intros row E. injection E as <-.
    repeat constructor; exists (qz 0); (split; [reflexivity|discriminate]).
Defined.

(** X3.  Whenever the reducer returns on an epoch with a positive ATP
    total and AFN and AFP totals 0 (every positive pixel found, no false
    alarm), precision, recall and F1 are exactly 1 and 'correct/all' is
    100. *)
Theorem perfect_epoch (metrics_ary : tensor) (d : metrics_dict) (s : num)
    (a : Qc) :
  logMetrics metrics_ary = Ok (d, s) ->
  total metrics_ary METRICS_ATP_NDX = Ok (Fin a) ->
  (0 < a)%Qc ->
  total metrics_ary METRICS_AFN_NDX = Ok zero ->
  total metrics_ary METRICS_AFP_NDX = Ok zero ->
  pr_precision d = one /\ pr_recall d = one /\ pr_f1_score d = one /\
  correct_all d = of_Z 100 /\
  s = score one one (loss_mal d) (loss_all d).
Proof.
  intros H Ha Hpos Hn Hp.
  destruct (logMetrics_inv _ H)
    as (a' & n & p & lr & mr & Ea & En & Ep & _ & _ & Hpr & Hre & Hf1
        & Hca & _ & Hs).
  assert (a' = Fin a) by congruence. assert (n = zero) by congruence.
  assert (p = zero) by congruence. subst a' n p.
  pose proof (Qc_pos_neq0 Hpos) as Hne.
  rewrite add_zero_r, (por_nonzero _ Hne), (div_self Hne) in Hpr, Hre.
  rewrite add_zero_r, (div_self Hne) in Hca.
  rewrite Hpr, Hre, f1_one in Hf1. rewrite Hf1, Hre in Hs.
  split; [exact Hpr|]. split; [exact Hre|]. split; [exact Hf1|].
  split; [|exact Hs].
  rewrite Hca. apply same_true_eq. reflexivity.
Qed.

Lemma perfect_epoch_witness :
  exists (d : metrics_dict) (s : num),
    logMetrics scenario_B_metrics = Ok (d, s) /\
    pr_precision d = one /\ pr_recall d = one /\ pr_f1_score d = one /\
    correct_all d = of_Z 100 /\
    s = score one one (loss_mal d) (loss_all d).
Proof.
  destruct (logMetrics scenario_B_metrics) as [[d s]|e] eqn:H;
    [|vm_compute in H; discriminate].
  exists d, s. split; [reflexivity|].
  apply (@perfect_epoch scenario_B_metrics d s (qz 3 + (qz 5 + qz 0))%Qc H);
    reflexivity.
Defined.

(** ** The metrics buffer during an epoch *)

Section Slices.

Lemma set_slice_ok (row vals : vec) (start stop : nat) :
  stop = start + List.length vals -> stop <= List.length row ->
  set_slice row start stop vals
  = Ok (firstn start row ++ vals ++ skipn stop row).
Proof.
  intros -> Hle. unfold set_slice.
  rewrite (Nat.min_l start) by lia.
  rewrite (Nat.min_l (start + List.length vals)) by lia.
  rewrite (Nat.max_r start) by lia.
  replace (start + List.length vals - start) with (List.length vals) by lia.
  rewrite Nat.eqb_refl. reflexivity.
Qed.

Lemma set_slice_length (row vals : vec) (start stop : nat) :
  stop = start + List.length vals -> stop <= List.length row ->
  List.length (firstn start row ++ vals ++ skipn stop row) = List.length row.
Proof.
  intros -> Hle. rewrite !length_app, length_firstn, length_skipn. lia.
Qed.

Lemma shape_row (t : tensor) (rows cols ndx : nat) :
  shape t rows cols -> ndx < rows ->
  exists row, nth_error t ndx = Some row /\ List.length row = cols.
Proof.
  intros [Hlen Hall] Hndx.
  destruct (nth_error t ndx) as [row|] eqn:E.
  - exists row. split; [reflexivity|].
    rewrite Forall_forall in Hall. apply Hall. eapply nth_error_In, E.
  - apply nth_error_None in E. lia.
Qed.

Lemma nth_error_replace (A : Type) (l : list A) (ndx r : nat) (x : A) :
  ndx < List.length l ->
  nth_error (firstn ndx l ++ x :: skipn (S ndx) l) r
  = if Nat.eqb r ndx then Some x else nth_error l r.
Proof.
  intros Hlt. destruct (Nat.eqb_spec r ndx) as [->|Hne].
  - rewrite nth_error_app2; rewrite length_firstn; [|lia].
    replace (ndx - Nat.min ndx (List.length l)) with 0 by lia. reflexivity.
  - destruct (Nat.lt_ge_cases r ndx) as [Hr|Hr].
    + rewrite nth_error_app1 by (rewrite length_firstn; lia).
      rewrite nth_error_firstn.
      destruct (Nat.ltb_spec r ndx); [reflexivity|lia].
    + rewrite nth_error_app2 by (rewrite length_firstn; lia).
      rewrite length_firstn, (Nat.min_l ndx) by lia.
      destruct (r - ndx) as [|k] eqn:Ek; [lia|]. cbn [nth_error].
      rewrite nth_error_skipn. f_equal. lia.
Qed.

(** An assignment inside the array succeeds; it keeps the shape, adds
    its record to the log and changes no other row. *)
Lemma assign_ok (m : metrics) (rows cols ndx start stop : nat) (vals : vec) :
  shape (data m) rows cols -> ndx < rows ->
  stop = start + List.length vals -> stop <= cols ->
  exists m' : metrics,
    assign m ndx start stop vals = Ok m' /\
    shape (data m') rows cols /\
    writes m' = writes m ++ [MkWrite ndx start stop] /\
    (forall r, r <> ndx -> nth_error (data m') r = nth_error (data m) r).
Proof.
  intros Hs Hndx Hstop Hle.
  destruct (shape_row Hs Hndx) as (row & Erow & Hrow).
  unfold assign. rewrite Erow.
  rewrite set_slice_ok by (subst; lia). cbn [bind].
  eexists. split; [reflexivity|]. cbn [data writes].
  destruct Hs as [Hlen Hall].
  assert (Hn : ndx < List.length (data m)) by lia.
  split; [split|split].
  - rewrite length_app, length_firstn. cbn [List.length].
    rewrite length_skipn. lia.
  - apply Forall_forall. intros r Hr.
    apply In_nth_error in Hr as (i & Ei).
    rewrite (nth_error_replace _ _ _ Hn) in Ei.
    destruct (Nat.eqb i ndx).
    + injection Ei as <-. rewrite set_slice_length by (subst; lia). exact Hrow.
    + rewrite Forall_forall in Hall. apply Hall. eapply nth_error_In, Ei.
  - reflexivity.
  - intros r Hr. rewrite (nth_error_replace _ _ _ Hn).
    destruct (Nat.eqb_spec r ndx); [contradiction|reflexivity].
Qed.

End Slices.

Section Shapes.

Lemma same_shape_refl (a : tensor) : same_shape a a.
Proof. induction a; constructor; [reflexivity|assumption]. Qed.

Lemma same_shape_trans (a b c : tensor) :
  same_shape a b -> same_shape b c -> same_shape a c.
Proof.
  intros H. revert c. induction H as [|x y a b Hxy _ IH]; intros c Hc.
  - exact Hc.
  - inversion Hc; subst. constructor; [congruence|apply IH; assumption].
Qed.

Lemma same_shape_tscal (f : num -> num) (a : tensor) :
  same_shape a (tscal f a).
Proof.
  induction a; constructor; [symmetry; apply length_map|assumption].
Qed.

Lemma same_shape_tzip (f : num -> num -> num) (a b : tensor) :
  same_shape a b ->
  same_shape a (map (fun p => zipw f (fst p) (snd p)) (combine a b)).
Proof.
  induction 1 as [|x y a b Hxy _ IH]; constructor; [|exact IH].
  cbn [fst snd]. rewrite zipw_length. lia.
Qed.

Lemma same_shape_map (ss : list sample) (f g : sample -> list num) :
  Forall (fun s => List.length (g s) = List.length (f s)) ss ->
  same_shape (map f ss) (map g ss).
Proof.
  induction 1; constructor; [congruence|assumption].
Qed.

Lemma intersectionSum_ok (a b : tensor) :
  same_shape a b ->
  exists v : vec, intersectionSum a b = Ok v /\ List.length v = List.length a.
Proof.
  intros H. unfold intersectionSum. rewrite (tzip_ok mul H). cbn [bind].
  eexists. split; [reflexivity|]. unfold sum_dim1.
  rewrite !length_map, length_combine, (same_shape_length H). lia.
Qed.

Lemma diceLoss_ok (label prediction : tensor) (epsilon : num) :
  same_shape label prediction ->
  exists v : vec,
    diceLoss label prediction epsilon = Ok v /\
    List.length v = List.length label.
Proof.
  intros H. rewrite (diceLoss_samples _ H).
  eexists. split; [reflexivity|].
  rewrite length_map, length_combine, (same_shape_length H). lia.
Qed.

End Shapes.

Section LossStep.

Variable params : Type.
Variable forward : params -> tensor -> tensor.

Lemma written_rows_spec (r : nat) :
  In r written_rows <->
  r = 0 \/ r = 1 \/ r = 2 \/ r = 4 \/ r = 5 \/ r = 7 \/ r = 8 \/ r = 9.
Proof.
  unfold written_rows, METRICS_LABEL_NDX, METRICS_LOSS_NDX,
    METRICS_MAL_LOSS_NDX, METRICS_MTP_NDX, METRICS_MFN_NDX, METRICS_ATP_NDX,
    METRICS_AFN_NDX, METRICS_AFP_NDX. cbn [In]. intuition congruence.
Qed.

(** One call of [computeBatchLoss] on a batch that fits the buffer. *)
Lemma computeBatchLoss_ok (model : params) (batch_ndx batch_size n : nat)
    (ss : list sample) (m : metrics) :
  shape (data m) METRICS_SIZE n ->
  Forall sample_ok ss ->
  same_shape (map s_label_mask ss) (forward model (map s_input ss)) ->
  batch_ndx * batch_size + List.length ss <= n ->
  exists (m' : metrics) (loss : num),
    computeBatchLoss forward model batch_ndx (collate ss) batch_size m
    = Ok (m', loss) /\
    shape (data m') METRICS_SIZE n /\
    writes m'
    = writes m ++ batch_writes (batch_ndx * batch_size)
                               (batch_ndx * batch_size + List.length ss) /\
    (forall r, ~ In r written_rows ->
               nth_error (data m') r = nth_error (data m) r).
Proof.
  intros Hs Hok HLP Hfit.
  unfold computeBatchLoss.
  cbn [collate label_tensor mal_tensor ben_tensor label_list input_tensor].
  cbv zeta. rewrite length_map.
  set (L := map s_label_mask ss) in *.
  set (P := forward model (map s_input ss)) in *.
  set (B := map s_ben ss). set (M := map s_mal ss).
  set (PB := tscal (fun x => of_bool (gtb x (lit 1 2))) P).
  set (s := batch_ndx * batch_size) in *.
  assert (HL : List.length L = List.length ss) by apply length_map.
  assert (HLB : same_shape L B).
  { apply same_shape_map. eapply Forall_impl; [|exact Hok].
    intros a [H1 _]. exact H1. }
  assert (HLM : same_shape L M).
  { apply same_shape_map. eapply Forall_impl; [|exact Hok].
    intros a [_ H2]. exact H2. }
  pose proof (same_shape_tscal (fun x => of_bool (gtb x (lit 1 2))) P) as S_P_PB.
  fold PB in S_P_PB.
  pose proof (same_shape_trans HLP S_P_PB) as S_L_PB.
  pose proof (same_shape_trans S_L_PB
                (same_shape_tscal (fun x => one - x)%num PB)) as S_L_1PB.
  pose proof (same_shape_sym (same_shape_tscal (fun x => one - x)%num L))
    as S_1L_L.
  pose proof (same_shape_trans S_1L_L S_L_PB) as S_1L_PB.
  pose proof (same_shape_trans (same_shape_sym S_L_PB)
                (same_shape_trans HLB
                   (same_shape_tscal (fun x => one - x)%num B))) as S_PB_1B.
  pose proof (same_shape_tzip mul S_PB_1B) as S_PB_MP.
  set (MP := map (fun p => zipw mul (fst p) (snd p))
                 (combine PB (tscal (fun x => (one - x)%num) B))) in *.
  pose proof (same_shape_trans (same_shape_sym HLM)
                (same_shape_trans S_L_PB S_PB_MP)) as S_M_MP.
  pose proof (same_shape_trans S_M_MP
                (same_shape_tscal (fun x => one - x)%num MP)) as S_M_1MP.
  pose proof (same_shape_trans S_1L_PB S_PB_MP) as S_1L_MP.
  assert (HM : List.length M = List.length ss) by apply length_map.
  assert (H1L : List.length (one_minus L) = List.length ss)
    by (unfold one_minus, tscal; rewrite length_map; exact HL).
  destruct (diceLoss_ok default_epsilon HLP) as (dl & E & Hdl).
  rewrite E; cbn [bind]; clear E.
  destruct (@assign_ok m METRICS_SIZE n METRICS_LABEL_NDX s
              (s + List.length ss) (map of_Z (map s_label ss)) Hs)
    as (m1 & E & S1 & W1 & R1);
    [unfold METRICS_SIZE, METRICS_LABEL_NDX; lia
    |rewrite !length_map; reflexivity|lia|].
  rewrite E; cbn [bind]; clear E.
  destruct (@assign_ok m1 METRICS_SIZE n METRICS_LOSS_NDX s
              (s + List.length ss) dl S1)
    as (m2 & E & S2 & W2 & R2);
    [unfold METRICS_SIZE, METRICS_LOSS_NDX; lia|lia|lia|].
  rewrite E; cbn [bind]; clear E.
  destruct (intersectionSum_ok S_L_PB) as (tp & E & Htp).
  rewrite E; cbn [bind]; clear E.
  destruct (intersectionSum_ok S_L_1PB) as (fn & E & Hfn).
  unfold one_minus at 1. rewrite E; cbn [bind]; clear E.
  destruct (intersectionSum_ok S_1L_PB) as (fp & E & Hfp).
  unfold one_minus at 1. rewrite E; cbn [bind]; clear E.
  destruct (@assign_ok m2 METRICS_SIZE n METRICS_ATP_NDX s
              (s + List.length ss) tp S2)
    as (m3 & E & S3 & W3 & R3);
    [unfold METRICS_SIZE, METRICS_ATP_NDX; lia|lia|lia|].
  rewrite E; cbn [bind]; clear E.
  destruct (@assign_ok m3 METRICS_SIZE n METRICS_AFN_NDX s
              (s + List.length ss) fn S3)
    as (m4 & E & S4 & W4 & R4);
    [unfold METRICS_SIZE, METRICS_AFN_NDX; lia|lia|lia|].
  rewrite E; cbn [bind]; clear E.
  destruct (@assign_ok m4 METRICS_SIZE n METRICS_AFP_NDX s
              (s + List.length ss) fp S4)
    as (m5 & E & S5 & W5 & R5);
    [unfold METRICS_SIZE, METRICS_AFP_NDX; lia
    |unfold tscal in Hfp; rewrite length_map in Hfp; lia|lia|].
  rewrite E; cbn [bind]; clear E.
  unfold one_minus at 1. rewrite (tzip_ok mul S_PB_1B); cbn [bind].
  fold MP.
  destruct (intersectionSum_ok S_M_MP) as (mtp & E & Hmtp).
  rewrite E; cbn [bind]; clear E.
  destruct (intersectionSum_ok S_M_1MP) as (mfn & E & Hmfn).
  unfold one_minus at 1. rewrite E; cbn [bind]; clear E.
  destruct (intersectionSum_ok S_1L_MP) as (mfp & E & Hmfp).
  unfold one_minus at 1. rewrite E; cbn [bind]; clear E.
  destruct (diceLoss_ok default_epsilon S_M_MP) as (ls & E & Hls).
  rewrite E; cbn [bind]; clear E.
  destruct (@assign_ok m5 METRICS_SIZE n METRICS_MTP_NDX s
              (s + List.length ss) mtp S5)
    as (m6 & E & S6 & W6 & R6);
    [unfold METRICS_SIZE, METRICS_MTP_NDX; lia|lia|lia|].
  rewrite E; cbn [bind]; clear E.
  destruct (@assign_ok m6 METRICS_SIZE n METRICS_MFN_NDX s
              (s + List.length ss) mfn S6)
    as (m7 & E & S7 & W7 & R7);
    [unfold METRICS_SIZE, METRICS_MFN_NDX; lia|lia|lia|].
  rewrite E; cbn [bind]; clear E.
  destruct (@assign_ok m7 METRICS_SIZE n METRICS_MAL_LOSS_NDX s
              (s + List.length ss) ls S7)
    as (m8 & E & S8 & W8 & R8);
    [unfold METRICS_SIZE, METRICS_MAL_LOSS_NDX; lia|lia|lia|].
  rewrite E; cbn [bind]; clear E.
  eexists _, _. split; [reflexivity|]. split; [exact S8|]. split.
  - rewrite W8, W7, W6, W5, W4, W3, W2, W1. unfold batch_writes.
    cbn [map]. rewrite <- !app_assoc. reflexivity.
  - intros r Hr. rewrite written_rows_spec in Hr.
    unfold METRICS_LABEL_NDX, METRICS_LOSS_NDX, METRICS_MAL_LOSS_NDX,
      METRICS_MTP_NDX, METRICS_MFN_NDX, METRICS_ATP_NDX, METRICS_AFN_NDX,
      METRICS_AFP_NDX in *.
    rewrite R8, R7, R6, R5, R4, R3, R2, R1 by lia. reflexivity.
Qed.

End LossStep.

Section Sampler.

Variable A : Type.

(** The sampler cuts its input into batches of [batch_size], the last
    one possibly shorter, and loses or repeats nothing. *)
Lemma batch_sampler_spec (batch_size : nat) (cur sampler : list A) :
  List.length cur < batch_size ->
  chunked batch_size (batch_sampler batch_size cur sampler) /\
  List.concat (batch_sampler batch_size cur sampler) = cur ++ sampler.
Proof.
  revert cur. induction sampler as [|idx rest IH]; intros cur Hcur.
  - cbn [batch_sampler]. destruct cur as [|x cur].
    + split; [constructor|reflexivity].
    + split; [apply chunked_last; cbn [List.length] in *; lia|].
      cbn [List.concat]. rewrite !app_nil_r. reflexivity.
  - cbn [batch_sampler].
    assert (Hlen : List.length (cur ++ [idx]) = S (List.length cur))
      by (rewrite length_app; cbn [List.length]; lia).
    destruct (Nat.eqb_spec (List.length (cur ++ [idx])) batch_size) as [E|E].
    + destruct (IH [] ltac:(cbn [List.length]; lia)) as [Hc Hcat].
      split; [apply chunked_cons; assumption|].
      cbn [List.concat]. rewrite Hcat, <- app_assoc. reflexivity.
    + destruct (IH (cur ++ [idx]) ltac:(lia)) as [Hc Hcat].
      split; [assumption|]. rewrite Hcat, <- app_assoc. reflexivity.
Qed.

End Sampler.

Section Loops.

Variable params : Type.
Variable forward : params -> tensor -> tensor.

Lemma testing_loop_as_training (model : params) (batch_size : nat)
    (batch_iter : list (nat * batch)) (m : metrics) :
  testing_loop forward model batch_size batch_iter m
  = (r <- training_loop forward (fun p _ => p) model batch_size batch_iter m ;;
     Ok (snd r)).
Proof.
  revert m. induction batch_iter as [|[k b] rest IH]; intros m; [reflexivity|].
  cbn [testing_loop training_loop].
  destruct (computeBatchLoss forward model k b batch_size m) as [r|e];
    cbn [bind]; [apply IH|reflexivity].
Qed.

Lemma total_length_cons (A : Type) (b : list A) (bl : list (list A)) :
  total_length (b :: bl) = List.length b + total_length bl.
Proof. unfold total_length. cbn [List.concat]. apply length_app. Qed.

(** The batches of an epoch, one after the other: the loop succeeds,
    keeps the shape of the buffer, makes the assignments of
    [epoch_writes] and nothing else, and takes one optimizer step for
    each batch, in order. *)
Lemma training_loop_ok (sgd_step : params -> batch -> params)
    (batch_size n : nat) (bl : list (list sample)) :
  chunked batch_size bl ->
  (forall b, In b bl -> Forall sample_ok b) ->
  (forall model b, In b bl ->
     same_shape (map s_label_mask b) (forward model (map s_input b))) ->
  forall (k : nat) (model : params) (m : metrics),
  shape (data m) METRICS_SIZE n ->
  k * batch_size + total_length bl <= n ->
  exists m' : metrics,
    training_loop forward sgd_step model batch_size
      (enumerate_from k (map collate bl)) m
    = Ok (fold_left sgd_step (map collate bl) model, m') /\
    shape (data m') METRICS_SIZE n /\
    writes m' = writes m ++ epoch_writes batch_size k bl /\
    (forall r, ~ In r written_rows ->
               nth_error (data m') r = nth_error (data m) r).
Proof.
  induction 1 as [|b H1 H2|b bl Hb Hc IH]; intros Hok Hct k model m Hs Hfit.
  - exists m. cbn. rewrite app_nil_r. auto.
  - rewrite total_length_cons in Hfit.
    destruct (@computeBatchLoss_ok params forward model k batch_size n b m Hs)
      as (m1 & loss & E & S1 & W1 & R1);
      [apply Hok; left; reflexivity|apply Hct; left; reflexivity|lia|].
    exists m1. cbn [map enumerate_from training_loop fold_left epoch_writes].
    rewrite E. cbn [bind fst]. rewrite app_nil_r. auto.
  - rewrite total_length_cons in Hfit.
    destruct (@computeBatchLoss_ok params forward model k batch_size n b m Hs)
      as (m1 & loss & E & S1 & W1 & R1);
      [apply Hok; left; reflexivity|apply Hct; left; reflexivity|lia|].
    destruct (IH (fun b' Hb' => Hok b' (or_intror Hb'))
                 (fun mo b' Hb' => Hct mo b' (or_intror Hb'))
                 (S k) (sgd_step model (collate b)) m1 S1)
      as (m2 & E2 & S2 & W2 & R2); [cbn [Nat.mul]; lia|].
    exists m2. cbn [map enumerate_from training_loop fold_left epoch_writes].
    rewrite E. cbn [bind fst]. rewrite E2.
    split; [reflexivity|]. split; [exact S2|]. split.
    + rewrite W2, W1, <- app_assoc. reflexivity.
    + intros r Hr. rewrite (R2 r Hr). apply R1, Hr.
Qed.

End Loops.

Section WriteCounts.

Lemma times_written_app (a b : list write) (r c : nat) :
  times_written (a ++ b) r c = times_written a r c + times_written b r c.
Proof. unfold times_written. rewrite filter_app, length_app. reflexivity. Qed.

Lemma times_written_other_rows (ws : list write) (r c : nat) :
  (forall w, In w ws -> w_row w <> r) -> times_written ws r c = 0.
Proof.
  unfold times_written. induction ws as [|w ws IH]; intros H; [reflexivity|].
  cbn [filter]. unfold covers at 1.
  destruct (Nat.eqb_spec (w_row w) r) as [E|_].
  - exfalso. apply (H w); [left; reflexivity|exact E].
  - cbn [andb]. apply IH. intros w' Hw'. apply H. right. exact Hw'.
Qed.

Lemma batch_writes_rows (s e : nat) (w : write) :
  In w (batch_writes s e) ->
  In (w_row w) written_rows /\ w_start w = s /\ w_stop w = e.
Proof.
  unfold batch_writes. rewrite in_map_iff. intros (r & <- & Hr).
  cbn [w_row w_start w_stop]. split; [|auto].
  apply written_rows_spec. cbn [In] in Hr.
  unfold METRICS_LABEL_NDX, METRICS_LOSS_NDX, METRICS_MAL_LOSS_NDX,
    METRICS_MTP_NDX, METRICS_MFN_NDX, METRICS_ATP_NDX, METRICS_AFN_NDX,
    METRICS_AFP_NDX in Hr. intuition lia.
Qed.

Lemma times_written_batch (s e r c : nat) :
  In r written_rows ->
  times_written (batch_writes s e) r c
  = if Nat.leb s c && Nat.ltb c e then 1 else 0.
Proof.
  intros Hr. apply written_rows_spec in Hr.
  unfold times_written, batch_writes, covers.
  cbn [map filter w_row w_start w_stop].
  unfold METRICS_LABEL_NDX, METRICS_LOSS_NDX, METRICS_MAL_LOSS_NDX,
    METRICS_MTP_NDX, METRICS_MFN_NDX, METRICS_ATP_NDX, METRICS_AFN_NDX,
    METRICS_AFP_NDX.
  destruct Hr as [->|[->|[->|[->|[->|[->|[->| ->]]]]]]]; cbn [Nat.eqb andb];
    destruct (Nat.leb s c && Nat.ltb c e); reflexivity.
Qed.

Lemma epoch_writes_rows (A : Type) (batch_size k : nat) (bl : list (list A))
    (w : write) :
  In w (epoch_writes batch_size k bl) -> In (w_row w) written_rows.
Proof.
  revert k. induction bl as [|b bl IH]; intros k; cbn [epoch_writes].
  - intros [].
  - rewrite in_app_iff. intros [H|H]; [apply (batch_writes_rows H)|].
    apply (IH _ H).
Qed.

(** The assignments of an epoch write each column of the epoch once in
    each of the rows of [written_rows]. *)
Lemma epoch_writes_count (A : Type) (batch_size : nat) (bl : list (list A)) :
  chunked batch_size bl ->
  forall k r c, In r written_rows ->
  times_written (epoch_writes batch_size k bl) r c
  = if Nat.leb (k * batch_size) c
       && Nat.ltb c (k * batch_size + total_length bl)
    then 1 else 0.
Proof.
  induction 1 as [|b H1 H2|b bl Hb Hc IH]; intros k r c Hr.
  - cbn [epoch_writes]. unfold total_length. cbn [List.concat List.length].
    destruct (Nat.leb_spec (k * batch_size) c);
      destruct (Nat.ltb_spec c (k * batch_size + 0)); cbn [andb];
      reflexivity || lia.
  - cbn [epoch_writes]. rewrite app_nil_r, (times_written_batch _ _ _ Hr).
    rewrite total_length_cons. unfold total_length.
    cbn [List.concat List.length]. rewrite Nat.add_0_r. reflexivity.
  - cbn [epoch_writes].
    rewrite times_written_app, (times_written_batch _ _ _ Hr), (IH _ _ _ Hr).
    rewrite total_length_cons, Hb. cbn [Nat.mul].
    destruct (Nat.leb_spec (k * batch_size) c);
      destruct (Nat.ltb_spec c (k * batch_size + batch_size));
      destruct (Nat.leb_spec (batch_size + k * batch_size) c);
      destruct (Nat.ltb_spec c
                  (batch_size + k * batch_size + total_length bl));
      destruct (Nat.ltb_spec c
                  (k * batch_size + (batch_size + total_length bl)));
      cbn [andb]; reflexivity || lia.
Qed.

Lemma epoch_writes_stop (A : Type) (batch_size : nat) (bl : list (list A)) :
  chunked batch_size bl ->
  forall k w, In w (epoch_writes batch_size k bl) ->
  exists i, w_start w = i * batch_size /\ k * batch_size <= w_start w /\
            w_start w <= w_stop w /\
            w_stop w <= k * batch_size + total_length bl.
Proof.
  induction 1 as [|b H1 H2|b bl Hb Hc IH]; intros k w; cbn [epoch_writes].
  - intros [].
  - rewrite app_nil_r. intros Hw.
    destruct (batch_writes_rows Hw) as (_ & -> & ->).
    rewrite total_length_cons. exists k. lia.
  - rewrite in_app_iff, total_length_cons. intros [Hw|Hw].
    + destruct (batch_writes_rows Hw) as (_ & -> & ->). exists k. lia.
    + destruct (IH _ _ Hw) as (i & Ei & H3 & H4 & H5).
      exists i. cbn [Nat.mul] in *. lia.
Qed.

End WriteCounts.

Section Epochs.

Variable params : Type.
Variable forward : params -> tensor -> tensor.

Lemma batches_facts (dl : DataLoader) :
  1 <= batch_size dl ->
  let bl := batch_sampler (batch_size dl) [] (dataset dl) in
  chunked (batch_size dl) bl /\
  total_length bl = List.length (dataset dl) /\
  (forall b, In b bl -> incl b (dataset dl)).
Proof.
  intros Hbs bl.
  destruct (@batch_sampler_spec sample (batch_size dl) [] (dataset dl))
    as [Hc Hcat]; [cbn [List.length]; lia|].
  fold bl in Hc, Hcat. cbn [List.app] in Hcat.
  split; [exact Hc|]. split; [unfold total_length; rewrite Hcat; reflexivity|].
  intros b Hb x Hx. rewrite <- Hcat. apply in_concat. eauto.
Qed.

Lemma zeros_shape (rows cols : nat) : shape (zeros rows cols) rows cols.
Proof.
  unfold zeros. split; [apply repeat_length|].
  apply Forall_forall. intros r Hr. apply repeat_spec in Hr. subst r.
  apply repeat_length.
Qed.

Lemma zeros_row (rows cols r : nat) :
  r < rows -> nth_error (zeros rows cols) r = Some (repeat zero cols).
Proof.
  intros Hr. unfold zeros. rewrite nth_error_repeat by assumption. reflexivity.
Qed.

(** An epoch from a fresh buffer. *)
Lemma epoch_ok (sgd_step : params -> batch -> params) (model : params)
    (dl : DataLoader) :
  1 <= batch_size dl ->
  Forall sample_ok (dataset dl) ->
  shape_contract forward (dataset dl) ->
  exists m : metrics,
    training_loop forward sgd_step model (batch_size dl)
      (enumerateWithEstimate (batches dl) (num_workers dl))
      (Metrics (zeros METRICS_SIZE (List.length (dataset dl))) [])
    = Ok (fold_left sgd_step (batches dl) model, m) /\
    shape (data m) METRICS_SIZE (List.length (dataset dl)) /\
    written_once m (List.length (dataset dl)) /\
    (forall r, r < METRICS_SIZE -> ~ In r written_rows ->
       nth_error (data m) r = Some (repeat zero (List.length (dataset dl)))).
Proof.
  intros Hbs Hok Hct.
  destruct (batches_facts dl Hbs) as (Hc & Htot & Hincl).
  set (bl := batch_sampler (batch_size dl) [] (dataset dl)) in *.
  set (n := List.length (dataset dl)) in *.
  destruct (@training_loop_ok params forward sgd_step (batch_size dl) n bl Hc)
    with (k := 0) (model := model) (m := Metrics (zeros METRICS_SIZE n) [])
    as (m & E & Hs & W & R).
  - intros b Hb. rewrite Forall_forall in Hok |- *.
    intros x Hx. apply Hok, (Hincl b Hb x Hx).
  - intros mo b Hb. apply Hct, Hincl, Hb.
  - apply zeros_shape.
  - lia.
  - exists m. unfold enumerateWithEstimate, batches. fold bl.
    split; [exact E|]. split; [exact Hs|]. cbn [writes data List.app] in W, R.
    split; [split; [|split]|].
    + intros r c Hr Hcn. rewrite W, (epoch_writes_count Hc 0 c Hr).
      cbn [Nat.mul Nat.add]. rewrite Htot.
      destruct (Nat.ltb_spec c n); [reflexivity|lia].
    + intros r c Hr. rewrite W. apply times_written_other_rows.
      intros w Hw E'. apply Hr. rewrite <- E'. apply (epoch_writes_rows _ _ _ _ Hw).
    + intros w Hw. rewrite W in Hw.
      destruct (epoch_writes_stop Hc _ _ Hw) as (i & _ & _ & H1 & H2).
      cbn [Nat.mul Nat.add] in H2. lia.
    + intros r Hr Hnot. rewrite (R r Hnot). apply zeros_row, Hr.
Qed.

End Epochs.

(** X4.  An evaluation pass over a data set whose samples have masks of
    the shape of the label, with a batch size of at least 1 and a network
    that keeps its shape contract, succeeds; the buffer it returns has
    [METRICS_SIZE] rows and one column per sample, and the pass assigned
    every cell of the label, loss, malignant-loss, MTP, MFN, ATP, AFN and
    AFP rows exactly once, no cell of another row, and nothing outside
    the buffer. *)
Theorem doTesting_written_once (params : Type)
    (forward : params -> tensor -> tensor) (model : params) (dl : DataLoader) :
  1 <= batch_size dl ->
  Forall sample_ok (dataset dl) ->
  shape_contract forward (dataset dl) ->
  exists m : metrics,
    doTesting forward model dl = Ok m /\
    shape (data m) METRICS_SIZE (List.length (dataset dl)) /\
    written_once m (List.length (dataset dl)).
Proof.
  intros Hbs Hok Hct.
  destruct (@epoch_ok params forward (fun p _ => p) model dl Hbs Hok Hct) as (m & E & Hs & Hw & _).
  exists m. unfold doTesting. rewrite testing_loop_as_training, E.
  cbn [bind snd]. auto.
Qed.

(** X5.  In the buffer an evaluation pass returns, the row of the
    malignant false positives and the unused row 3 are all zero: the loss
    step never stores into them. *)
Theorem doTesting_unwritten_rows (params : Type)
    (forward : params -> tensor -> tensor) (model : params) (dl : DataLoader) :
  1 <= batch_size dl ->
  Forall sample_ok (dataset dl) ->
  shape_contract forward (dataset dl) ->
  exists m : metrics,
    doTesting forward model dl = Ok m /\
    nth_error (data m) METRICS_MFP_NDX
    = Some (repeat zero (List.length (dataset dl))) /\
    nth_error (data m) 3 = Some (repeat zero (List.length (dataset dl))).
Proof.
  intros Hbs Hok Hct.
  destruct (@epoch_ok params forward (fun p _ => p) model dl Hbs Hok Hct) as (m & E & _ & _ & Hz).
  exists m. unfold doTesting. rewrite testing_loop_as_training, E.
  cbn [bind snd]. split; [reflexivity|].
  split; apply Hz; try (unfold METRICS_SIZE, METRICS_MFP_NDX; lia);
    rewrite written_rows_spec; unfold METRICS_MFP_NDX; lia.
Qed.

(** X6.  A training pass under the same conditions succeeds; it returns
    the parameters after one optimizer step per batch, taken in the order
    of the batches, the sample counter advanced by the size of the data
    set, and a buffer of one column per sample in which every cell of
    the eight written rows was assigned exactly once. *)
Theorem doTraining_result (params : Type)
    (forward : params -> tensor -> tensor)
    (sgd_step : params -> batch -> params) (model : params)
    (totalTrainingSamples_count : nat) (dl : DataLoader) :
  1 <= batch_size dl ->
  Forall sample_ok (dataset dl) ->
  shape_contract forward (dataset dl) ->
  exists m : metrics,
    doTraining forward sgd_step model totalTrainingSamples_count dl
    = Ok (fold_left sgd_step (batches dl) model,
          totalTrainingSamples_count + List.length (dataset dl), m) /\
    shape (data m) METRICS_SIZE (List.length (dataset dl)) /\
    written_once m (List.length (dataset dl)).
Proof.
  intros Hbs Hok Hct.
  destruct (@epoch_ok params forward sgd_step model dl Hbs Hok Hct) as (m & E & Hs & Hw & _).
  exists m. unfold doTraining. rewrite E. cbn [bind fst snd].
  split; [|auto].
  destruct Hs as [Hlen Hrows]. unfold METRICS_SIZE in Hlen.
  destruct (data m) as [|row rest]; [discriminate|].
  inversion Hrows as [|? ? Hrow _]; subst. rewrite Hrow. reflexivity.
Qed.

Section EpochLog.

Variable params : Type.
Variable forward : params -> tensor -> tensor.

(** The log of an epoch is the list of the assignments of its batches,
    batch by batch. *)
Lemma epoch_log_writes (sgd_step : params -> batch -> params)
    (model model' : params) (dl : DataLoader) (m : metrics) :
  1 <= batch_size dl ->
  Forall sample_ok (dataset dl) ->
  shape_contract forward (dataset dl) ->
  training_loop forward sgd_step model (batch_size dl)
    (enumerateWithEstimate (batches dl) (num_workers dl))
    (Metrics (zeros METRICS_SIZE (List.length (dataset dl))) [])
  = Ok (model', m) ->
  writes m
  = epoch_writes (batch_size dl) 0
      (batch_sampler (batch_size dl) [] (dataset dl)).
Proof.
  intros Hbs Hok Hct E.
  destruct (batches_facts dl Hbs) as (Hc & Htot & Hincl).
  set (bl := batch_sampler (batch_size dl) [] (dataset dl)) in *.
  set (n := List.length (dataset dl)) in *.
  destruct (@training_loop_ok params forward sgd_step (batch_size dl) n bl Hc)
    with (k := 0) (model := model) (m := Metrics (zeros METRICS_SIZE n) [])
    as (m0 & E0 & _ & W & _).
  - intros b Hb. rewrite Forall_forall in Hok |- *.
    intros x Hx. apply Hok, (Hincl b Hb x Hx).
  - intros mo b Hb. apply Hct, Hincl, Hb.
  - apply zeros_shape.
  - lia.
  - unfold enumerateWithEstimate, batches in E. fold bl in E.
    rewrite E0 in E. injection E as _ <-. exact W.
Qed.

End EpochLog.

(** C4, as amended.  In an epoch that completes, of training or of
    evaluation (batch size at least 1, masks of the shape of the label,
    network keeping its shape contract), the batch of index [k] assigns
    the columns from [k * batch_size] to [k * batch_size + N] of eight
    rows: label, overall loss, malignant loss, malignant TP, malignant
    FN, all-class TP, all-class FN and all-class FP; by the end of the
    epoch every cell of these rows has been assigned exactly once.  The
    row of the malignant false positives is never assigned and holds 0
    in every column. *)
Theorem epoch_rows_written (params : Type)
    (forward : params -> tensor -> tensor)
    (sgd_step : params -> batch -> params) (model : params)
    (totalTrainingSamples_count : nat) (dl : DataLoader) :
  1 <= batch_size dl ->
  Forall sample_ok (dataset dl) ->
  shape_contract forward (dataset dl) ->
  let n := List.length (dataset dl) in
  let bl := batch_sampler (batch_size dl) [] (dataset dl) in
  exists (trn tst : metrics) (model' : params) (count' : nat),
    doTraining forward sgd_step model totalTrainingSamples_count dl
    = Ok (model', count', trn) /\
    doTesting forward model dl = Ok tst /\
    forall m : metrics, m = trn \/ m = tst ->
      writes m = epoch_writes (batch_size dl) 0 bl /\
      (forall r c, In r written_rows -> c < n ->
                   times_written (writes m) r c = 1) /\
      (forall c, times_written (writes m) METRICS_MFP_NDX c = 0) /\
      nth_error (data m) METRICS_MFP_NDX = Some (repeat zero n).
Proof.
  intros Hbs Hok Hct. cbv zeta.
  destruct (@epoch_ok params forward sgd_step model dl Hbs Hok Hct)
    as (trn & Et & Hst & (Ht1 & Ht0 & _) & Htz).
  destruct (@epoch_ok params forward (fun p _ => p) model dl Hbs Hok Hct)
    as (tst & Ee & _ & (He1 & He0 & _) & Hez).
  pose proof (@epoch_log_writes params forward _ _ _ dl trn Hbs Hok Hct Et)
    as Wt.
  pose proof (@epoch_log_writes params forward _ _ _ dl tst Hbs Hok Hct Ee)
    as We.
  assert (Hmfp : ~ In METRICS_MFP_NDX written_rows).
  { rewrite written_rows_spec. unfold METRICS_MFP_NDX. lia. }
  assert (Hlt : METRICS_MFP_NDX < METRICS_SIZE).
  { unfold METRICS_MFP_NDX, METRICS_SIZE. lia. }
  exists trn, tst. eexists _, _. split; [|split].
  - unfold doTraining. rewrite Et. cbn [bind fst snd]. reflexivity.
  - unfold doTesting. rewrite testing_loop_as_training, Ee. reflexivity.
  - intros m [-> | ->].
    + split; [exact Wt|]. split; [exact Ht1|].
      split; [intros c; apply Ht0, Hmfp|apply Htz; assumption].
    + split; [exact We|]. split; [exact He1|].
      split; [intros c; apply He0, Hmfp|apply Hez; assumption].
Qed.

Section Witnesses.

Lemma predict_zero_contract : shape_contract predict_zero (dataset scenario_A_dl).
Proof.
  intros model ss Hin. unfold predict_zero.
  induction ss as [|x ss IH]; [constructor|].
  cbn [map]. constructor.
  - assert (Hx : In x (dataset scenario_A_dl)) by (apply Hin; left; reflexivity).
    cbn in Hx. intuition (subst; reflexivity).
  - apply IH. intros y Hy. apply Hin. right. exact Hy.
Qed.

Lemma scenario_A_samples_ok : Forall sample_ok (dataset scenario_A_dl).
Proof. repeat constructor. Qed.

End Witnesses.

Lemma doTesting_written_once_witness :
  exists m : metrics,
    doTesting predict_zero tt scenario_A_dl = Ok m /\
    shape (data m) METRICS_SIZE 4 /\ written_once m 4.
Proof.
  apply (@doTesting_written_once unit predict_zero tt scenario_A_dl).
  - cbn. lia.
  - exact scenario_A_samples_ok.
  - exact predict_zero_contract.
Defined.

Lemma doTesting_unwritten_rows_witness :
  exists m : metrics,
    doTesting predict_zero tt scenario_A_dl = Ok m /\
    nth_error (data m) METRICS_MFP_NDX = Some (repeat zero 4) /\
    nth_error (data m) 3 = Some (repeat zero 4).
Proof.
  apply (@doTesting_unwritten_rows unit predict_zero tt scenario_A_dl).
  - cbn. lia.
  - exact scenario_A_samples_ok.
  - exact predict_zero_contract.
Defined.

Lemma doTraining_result_witness :
  exists m : metrics,
    doTraining predict_zero (fun p _ => p) tt 100 scenario_A_dl
    = Ok (fold_left (fun p _ => p) (batches scenario_A_dl) tt, 100 + 4, m) /\
    shape (data m) METRICS_SIZE 4 /\ written_once m 4.
Proof.
  apply (@doTraining_result unit predict_zero (fun p _ => p) tt 100
           scenario_A_dl).
  - cbn. lia.
  - exact scenario_A_samples_ok.
  - exact predict_zero_contract.
Defined.

(** ** Checkpoint files *)

Section Paths.
Local Open Scope string_scope.

Lemma string_app_assoc (a b c : string) : (a ++ b) ++ c = a ++ b ++ c.
Proof. induction a as [|x a IH]; cbn; [reflexivity|rewrite IH; reflexivity]. Qed.

Lemma string_app_inj_l (p x y : string) : p ++ x = p ++ y -> x = y.
Proof.
  induction p as [|c p IH]; cbn; intros H; [exact H|].
  injection H as H. apply IH, H.
Qed.

Lemma little_succ_not_nil (d : Decimal.uint) :
  Decimal.Little.succ d <> Decimal.Nil.
Proof. destruct d; discriminate. Qed.

Lemma to_little_uint_not_nil (n : nat) (acc : Decimal.uint) :
  acc <> Decimal.Nil -> Nat.to_little_uint n acc <> Decimal.Nil.
Proof.
  revert acc. induction n as [|n IH]; intros acc H; cbn; [exact H|].
  apply IH, little_succ_not_nil.
Qed.

Lemma revapp_not_nil (d acc : Decimal.uint) :
  acc <> Decimal.Nil -> Decimal.revapp d acc <> Decimal.Nil.
Proof.
  revert acc. induction d; intros acc H; cbn; try exact H;
    apply IHd; discriminate.
Qed.

Lemma rev_not_nil (d : Decimal.uint) :
  d <> Decimal.Nil -> Decimal.rev d <> Decimal.Nil.
Proof.
  unfold Decimal.rev. destruct d; intros H; cbn; try (exfalso; apply H; reflexivity);
    apply revapp_not_nil; discriminate.
Qed.

(** A printed number starts with a digit. *)
Lemma format_nat_head (n : nat) :
  exists (c : ascii) (s : string),
    format_nat n = String c s /\ c <> "b"%char.
Proof.
  unfold format_nat, Nat.to_uint.
  assert (H : Decimal.rev (Nat.to_little_uint n Decimal.zero) <> Decimal.Nil).
  { apply rev_not_nil, to_little_uint_not_nil. discriminate. }
  destruct (Decimal.rev (Nat.to_little_uint n Decimal.zero));
    [exfalso; apply H; reflexivity|..];
    cbn [NilEmpty.string_of_uint]; eexists _, _; (split; [reflexivity|discriminate]).
Qed.

Lemma format_nat_not_best (n : nat) (suffix : string) :
  format_nat n ++ suffix <> "best" ++ suffix.
Proof.
  destruct (format_nat_head n) as (c & s & -> & Hc).
  cbn. intros H. injection H as H _. apply Hc, H.
Qed.

End Paths.

Section Checkpoints.
Local Open Scope string_scope.

Variable params : Type.

(** The path of a state file is a prefix that does not depend on the
    tail, then the tail, then ['.state']. *)
Lemma state_path_shape (self : app params) (type_str : string) :
  exists pre : string,
    forall tail, state_path self type_str tail = pre ++ tail ++ ".state".
Proof.
  unfold state_path.
  set (dir := path_join _ (tb_prefix (cli self))).
  set (mid := "_" ++ time_str self ++ "_" ++ comment (cli self) ++ ".").
  assert (E : forall tail,
             type_str ++ "_" ++ time_str self ++ "_" ++ comment (cli self)
               ++ "." ++ tail ++ ".state"
             = (type_str ++ mid) ++ tail ++ ".state").
  { intros tail. unfold mid. rewrite !string_app_assoc. reflexivity. }
  assert (Hsep : forall tail,
             starts_with_sep ((type_str ++ mid) ++ tail ++ ".state")
             = starts_with_sep (type_str ++ mid)).
  { intros tail. destruct type_str; reflexivity. }
  unfold path_join at 1.
  destruct (starts_with_sep (type_str ++ mid)) eqn:Es.
  - exists (type_str ++ mid). intros tail.
    rewrite E, Hsep. reflexivity.
  - destruct (match dir with EmptyString => true | _ => ends_with_sep dir end)
      eqn:Ed.
    + exists (dir ++ type_str ++ mid). intros tail.
      rewrite E, Hsep.
      rewrite !string_app_assoc. reflexivity.
    + exists (dir ++ "/" ++ type_str ++ mid). intros tail.
      rewrite E, Hsep.
      rewrite !string_app_assoc. reflexivity.
Qed.

(** The file of a sample count is never the ['best'] file. *)
Lemma state_path_not_best (self : app params) (type_str : string) (n : nat) :
  state_path self type_str (format_nat n) <> state_path self type_str "best".
Proof.
  destruct (state_path_shape self type_str) as (pre & E).
  rewrite !E. intros H. apply string_app_inj_l in H.
  exact (@format_nat_not_best n ".state" H).
Qed.

Lemma read_file_save_same (state : checkpoint params) (p : string)
    (fs : store params) :
  read_file (torch_save state p fs) p = Some state.
Proof. cbn. rewrite String.eqb_refl. reflexivity. Qed.

Lemma read_file_save_other (state : checkpoint params) (p q : string)
    (fs : store params) :
  p <> q -> read_file (torch_save state p fs) q = read_file fs q.
Proof.
  intros H. cbn. destruct (String.eqb_spec p q); [contradiction|reflexivity].
Qed.

End Checkpoints.

(** What [saveModel] does to the ['best'] file. *)
Lemma saveModel_best (params : Type) (self : app params)
    (type_str : string) (epoch_ndx : nat) (isBest : bool) :
  read_file (files (saveModel self type_str epoch_ndx isBest))
            (state_path self type_str "best")
  = if isBest
    then Some (Checkpoint (model self) "UNetWrapper" "SGD" epoch_ndx
                          (totalTrainingSamples_count self))
    else read_file (files self) (state_path self type_str "best").
Proof.
  unfold saveModel. cbn [files]. destruct isBest.
  - apply read_file_save_same.
  - apply read_file_save_other, state_path_not_best.
Qed.

(** X7.  [saveModel] always stores the current state, epoch index and
    sample count under the file named by the sample count; under the
    ['best'] file it stores them when [isBest] holds and otherwise leaves
    that file as it was; no other file changes. *)
Theorem saveModel_files (params : Type) (self : app params)
    (type_str : string) (epoch_ndx : nat) (isBest : bool) :
  let self' := saveModel self type_str epoch_ndx isBest in
  let state :=
    Checkpoint (model self) "UNetWrapper" "SGD" epoch_ndx
               (totalTrainingSamples_count self) in
  let count_path :=
    state_path self type_str (format_nat (totalTrainingSamples_count self)) in
  let best_path := state_path self type_str "best" in
  read_file (files self') count_path = Some state /\
  read_file (files self') best_path
  = (if isBest then Some state else read_file (files self) best_path) /\
  (forall p, p <> count_path -> p <> best_path ->
             read_file (files self') p = read_file (files self) p).
Proof.
  cbv zeta. unfold saveModel. cbn [files].
  pose proof (state_path_not_best self type_str
                (totalTrainingSamples_count self)) as Hne.
  destruct isBest.
  - split; [|split].
    + rewrite read_file_save_other by (intros E; apply Hne; symmetry; exact E).
      apply read_file_save_same.
    + apply read_file_save_same.
    + intros p H1 H2.
      rewrite !read_file_save_other by (intros E; subst; contradiction).
      reflexivity.
  - split; [|split].
    + apply read_file_save_same.
    + apply read_file_save_other, Hne.
    + intros p H1 H2.
      rewrite read_file_save_other by (intros E; subst; contradiction).
      reflexivity.
Qed.

(** ** The epoch loop *)

Section PromotionArith.
Local Open Scope Qc_scope.

Lemma pymax_Fin (s b : Qc) :
  pymax (Fin s) (Fin b) = if Qclt_le_dec s b then Fin b else Fin s.
Proof. unfold pymax. simpl. destruct (Qclt_le_dec s b); reflexivity. Qed.

Lemma eqb_Fin_refl (s : Qc) : eqb (Fin s) (Fin s) = true.
Proof. simpl. destruct (Qc_eq_dec s s); [reflexivity|contradiction]. Qed.

(** [score == max(score, best_score)] on finite numbers is
    [score >= best_score]. *)
Lemma isBest_Fin (s b : Qc) :
  eqb (Fin s) (pymax (Fin s) (Fin b)) = true <-> b <= s.
Proof.
  rewrite pymax_Fin. destruct (Qclt_le_dec s b) as [H|H].
  - split.
    + simpl. destruct (Qc_eq_dec s b) as [->|_]; [|discriminate].
      intros _. apply Qcle_refl.
    + intros H'. exfalso. apply (Qclt_not_le _ _ H), H'.
  - rewrite eqb_Fin_refl. tauto.
Qed.

Lemma geb_Fin (s t : Qc) : geb (Fin s) (Fin t) = true <-> t <= s.
Proof.
  unfold geb. rewrite orb_true_iff. simpl.
  destruct (Qclt_le_dec t s) as [H|H]; destruct (Qc_eq_dec s t) as [E|E];
    split; auto using Qclt_le_weak; try (intros _; subst; apply Qcle_refl).
  - intros [?|?]; discriminate.
  - intros H'. exfalso. apply E. apply Qcle_antisym; assumption.
Qed.

(** The best score after a history of finite scores is the largest of
    the initial value and the scores. *)
Lemma best_after_Fin (hist : list epoch_log) (b0 : Qc) :
  Forall (fun e => isfinite (e_score e) = true) hist ->
  exists b : Qc,
    best_after (Fin b0) hist = Fin b /\ b0 <= b /\
    (forall e s, In e hist -> e_score e = Fin s -> s <= b) /\
    (b = b0 \/ exists e, In e hist /\ e_score e = Fin b).
Proof.
  intros H. revert b0. unfold best_after.
  induction H as [|e hist He _ IH]; intros b0.
  - exists b0. cbn. split; [reflexivity|]. split; [apply Qcle_refl|].
    split; [intros e s []|left; reflexivity].
  - apply Fin_isfinite in He as (s & Es). cbn [fold_left]. rewrite Es, pymax_Fin.
    destruct (Qclt_le_dec s b0) as [Hsb|Hsb].
    + destruct (IH b0) as (b & E & H0 & Hall & Hin).
      exists b. split; [exact E|]. split; [exact H0|]. split.
      * intros e' s' [<-|He'] Es'.
        -- rewrite Es in Es'. injection Es' as <-.
           apply Qclt_le_weak in Hsb. eapply Qcle_trans; eassumption.
        -- eapply Hall; eassumption.
      * destruct Hin as [->|(e' & He' & Ee')]; [left; reflexivity|].
        right. exists e'. split; [right; exact He'|exact Ee'].
    + destruct (IH s) as (b & E & H0 & Hall & Hin).
      exists b. split; [exact E|].
      split; [eapply Qcle_trans; eassumption|]. split.
      * intros e' s' [<-|He'] Es'.
        -- rewrite Es in Es'. injection Es' as <-. exact H0.
        -- eapply Hall; eassumption.
      * right. destruct Hin as [->|(e' & He' & Ee')].
        -- exists e. split; [left; reflexivity|exact Es].
        -- exists e'. split; [right; exact He'|exact Ee'].
Qed.

End PromotionArith.

Section LoopFacts.

Variable params : Type.
Variable run : app params -> nat -> result (app params * num).

(** The history of the loop: epochs are numbered from the first index
    on, and each flag is [score == max(score, best_score)] for the best
    score left by the epochs before. *)
Lemma main_loop_hist (n k : nat) (self : app params) (best : num)
    (hist0 : list epoch_log) :
  exists new : list epoch_log,
    snd (fst (main_loop run n k self best hist0)) = hist0 ++ new /\
    forall h1 e h2, new = h1 ++ e :: h2 ->
      e_ndx e = k + List.length h1 /\
      e_isBest e = eqb (e_score e) (pymax (e_score e) (best_after best h1)).
Proof.
  revert k self best hist0. induction n as [|n IH]; intros k self best hist0.
  - exists []. cbn. rewrite app_nil_r. split; [reflexivity|].
    intros [|x h1] e h2 H; discriminate.
  - cbn [main_loop]. destruct (run self k) as [[self1 score]|err].
    + destruct (IH (S k)
                  (saveModel self1 "seg" k
                     (eqb score (pymax score best)))
                  (pymax score best)
                  (hist0 ++ [EpochLog k score (eqb score (pymax score best))]))
        as (new & E & Hnew).
      exists (EpochLog k score (eqb score (pymax score best)) :: new).
      split; [rewrite E, <- app_assoc; reflexivity|].
      intros [|e0 h1] e h2 H; injection H as H1 H2; subst.
      * cbn. rewrite Nat.add_0_r. auto.
      * destruct (Hnew h1 e h2 eq_refl) as [Hn Hb].
        cbn [List.length]. split; [lia|exact Hb].
    + exists []. cbn. rewrite app_nil_r. split; [reflexivity|].
      intros [|x h1] e h2 H; discriminate.
Qed.

(** Every score of the history was returned by [run]. *)
Lemma main_loop_scores (P : num -> Prop) :
  (forall self k self1 s, run self k = Ok (self1, s) -> P s) ->
  forall (n k : nat) (self : app params) (best : num) (hist0 : list epoch_log),
  Forall (fun e => P (e_score e)) hist0 ->
  Forall (fun e => P (e_score e)) (snd (fst (main_loop run n k self best hist0))).
Proof.
  intros HP. induction n as [|n IH]; intros k self best hist0 H0; [exact H0|].
  cbn [main_loop]. destruct (run self k) as [[self1 score]|err] eqn:E;
    [|exact H0].
  apply IH. apply Forall_app. split; [exact H0|].
  constructor; [|constructor]. cbn. eapply HP, E.
Qed.

Lemma state_path_ext (a b : app params) (type_str tail : string) :
  cli a = cli b -> time_str a = time_str b ->
  state_path a type_str tail = state_path b type_str tail.
Proof. unfold state_path. intros -> ->. reflexivity. Qed.

(** [main] and its loop: the history and the files of a run are those
    of the loop. *)
Lemma main_loop_one (n k : nat) (self : app params) (best : num)
    (hist0 : list epoch_log) (self1 : app params) (score : num) :
  run self k = Ok (self1, score) ->
  main_loop run (S n) k self best hist0
  = main_loop run n (S k)
      (saveModel self1 "seg" k (eqb score (pymax score best)))
      (pymax score best)
      (hist0 ++ [EpochLog k score (eqb score (pymax score best))]).
Proof. intros E. cbn [main_loop]. rewrite E. reflexivity. Qed.

(** The ['best'] file after the loop holds the checkpoint saved by the
    last promoted epoch: the state and the sample count the application
    had when the epochs up to that one were done, and the index of that
    epoch; it is as before when no epoch was promoted. *)
Lemma main_loop_files (Hkeep : keeps_files run) (n k : nat)
    (self : app params) (best : num) (hist0 : list epoch_log) :
  let fs' := fst (fst (main_loop run n k self best hist0)) in
  exists new : list epoch_log,
    snd (fst (main_loop run n k self best hist0)) = hist0 ++ new /\
    match last_best new with
    | Some j =>
        exists (i : nat) (self_j : app params) (hist_j : list epoch_log),
          j = k + i /\ i < n /\
          main_loop run (S i) k self best hist0
          = (files self_j, hist_j, Finished self_j) /\
          read_file fs' (state_path self "seg" "best")
          = Some (Checkpoint (model self_j) "UNetWrapper" "SGD" j
                             (totalTrainingSamples_count self_j))
    | None =>
        read_file fs' (state_path self "seg" "best")
        = read_file (files self) (state_path self "seg" "best")
    end.
Proof.
  cbv zeta. revert k self best hist0.
  induction n as [|n IH]; intros k self best hist0.
  - cbn. exists []. rewrite app_nil_r. split; reflexivity.
  - destruct (run self k) as [[self1 score]|err] eqn:E.
    + rewrite (main_loop_one n best hist0 E).
      destruct (Hkeep _ _ _ _ E) as (Hf & Hc & Ht).
      set (isBest := eqb score (pymax score best)).
      set (self2 := saveModel self1 "seg" k isBest).
      destruct (IH (S k) self2 (pymax score best)
                  (hist0 ++ [EpochLog k score isBest]))
        as (new & En & Hbest).
      assert (Hp : state_path self2 "seg" "best" = state_path self "seg" "best").
      { apply state_path_ext; cbn; assumption. }
      assert (Hp1 : state_path self1 "seg" "best" = state_path self "seg" "best").
      { apply state_path_ext; assumption. }
      exists (EpochLog k score isBest :: new).
      split; [rewrite En, <- app_assoc; reflexivity|].
      rewrite Hp in Hbest. cbn [last_best e_isBest e_ndx].
      destruct (last_best new) as [j|].
      * destruct Hbest as (i & self_j & hist_j & -> & Hi & Ej & Hr).
        exists (S i), self_j, hist_j.
        split; [lia|]. split; [lia|]. split; [|exact Hr].
        rewrite (main_loop_one (S i) best hist0 E). exact Ej.
      * rewrite Hbest.
        pose proof (saveModel_best self1 "seg" k isBest) as Hb.
        fold self2 in Hb. rewrite Hp1 in Hb. rewrite Hb.
        destruct isBest eqn:EB; [|rewrite Hf; reflexivity].
        exists 0, self2, (hist0 ++ [EpochLog k score true]).
        split; [lia|]. split; [lia|]. split; [|reflexivity].
        rewrite (main_loop_one 0 best hist0 E). fold isBest.
        rewrite EB. reflexivity.
    + cbn [main_loop]. rewrite E. cbn.
      exists []. rewrite app_nil_r. split; reflexivity.
Qed.

(** When the loop runs to its end, the application object it leaves
    holds the files of the outcome, and the run was that of the command
    line and time stamp it started with. *)
Lemma main_loop_finished (Hkeep : keeps_files run) (n k : nat)
    (self : app params) (best : num) (hist0 : list epoch_log)
    (self' : app params) :
  snd (main_loop run n k self best hist0) = Finished self' ->
  fst (fst (main_loop run n k self best hist0)) = files self' /\
  cli self' = cli self /\ time_str self' = time_str self.
Proof.
  revert k self best hist0.
  induction n as [|n IH]; intros k self best hist0.
  - cbn. intros H. injection H as <-. auto.
  - cbn [main_loop]. destruct (run self k) as [[self1 score]|err] eqn:E;
      [|discriminate].
    destruct (Hkeep _ _ _ _ E) as (Hf & Hc & Ht).
    intros H. destruct (IH _ _ _ _ H) as (H1 & H2 & H3).
    split; [exact H1|]. cbn in H2, H3. split; congruence.
Qed.

End LoopFacts.

Section MainFacts.

Variable params : Type.
Variable forward : params -> tensor -> tensor.
Variable observe : params -> tensor -> params.
Variable sgd_step : params -> batch -> params.
Variable getCt_shape0 : string -> nat.
Variable train_dl : DataLoader.
Variable test_dl : DataLoader.

(** The steps of an epoch that completes. *)
Lemma run_epoch_inv (self self1 : app params) (k : nat) (s : num) :
  run_epoch forward observe sgd_step getCt_shape0 train_dl test_dl self k
  = Ok (self1, s) ->
  exists (model1 : params) (count1 : nat) (trn : metrics)
         (d0 : metrics_dict * num) (model2 model3 : params) (tst : metrics)
         (d : metrics_dict),
    doTraining forward sgd_step (model self)
      (totalTrainingSamples_count self) train_dl
    = Ok (model1, count1, trn) /\
    logMetrics (data trn) = Ok d0 /\
    logImages forward observe getCt_shape0 model1 k train_dl = Ok model2 /\
    logImages forward observe getCt_shape0 model2 k test_dl = Ok model3 /\
    doTesting forward model3 test_dl = Ok tst /\
    logMetrics (data tst) = Ok (d, s) /\
    self1 = App (cli self) (time_str self) count1 model3 true (files self).
Proof.
  intros H. unfold run_epoch in H.
  destruct (doTraining forward sgd_step (model self)
              (totalTrainingSamples_count self) train_dl)
    as [[[model1 count1] trn]|]; cbn [bind] in H; [|discriminate].
  destruct (logMetrics (data trn)) as [d0|] eqn:E0; cbn [bind] in H;
    [|discriminate].
  destruct (logImages forward observe getCt_shape0 model1 k train_dl)
    as [model2|] eqn:E2; cbn [bind] in H; [|discriminate].
  destruct (logImages forward observe getCt_shape0 model2 k test_dl)
    as [model3|] eqn:E3; cbn [bind] in H; [|discriminate].
  destruct (doTesting forward model3 test_dl) as [tst|] eqn:Et;
    cbn [bind] in H; [|discriminate].
  destruct (logMetrics (data tst)) as [[d s']|] eqn:El; cbn [bind] in H;
    [|discriminate].
  injection H as <- <-.
  exists model1, count1, trn, d0, model2, model3, tst, d.
  repeat split; assumption.
Qed.

Lemma run_epoch_keeps_files :
  keeps_files
    (run_epoch forward observe sgd_step getCt_shape0 train_dl test_dl).
Proof.
  intros self k self1 s H.
  destruct (run_epoch_inv _ _ H)
    as (m1 & c1 & trn & d0 & m2 & m3 & tst & d & _ & _ & _ & _ & _ & _ & ->).
  cbn. auto.
Qed.

(** What an epoch of [main] returns as its score is the score of the
    reducer on the buffer of the evaluation pass. *)
Lemma run_epoch_score (self self1 : app params) (k : nat) (s : num) :
  run_epoch forward observe sgd_step getCt_shape0 train_dl test_dl self k
  = Ok (self1, s) ->
  exists (model1 : params) (tst : metrics) (d : metrics_dict),
    doTesting forward model1 test_dl = Ok tst /\
    logMetrics (data tst) = Ok (d, s).
Proof.
  intros H.
  destruct (run_epoch_inv _ _ H)
    as (m1 & c1 & trn & d0 & m2 & m3 & tst & d & _ & _ & _ & _ & Et & El & _).
  exists m3, tst, d. split; [exact Et|exact El].
Qed.

Lemma run_epoch_score_finite (self self1 : app params) (k : nat) (s : num) :
  1 <= batch_size test_dl ->
  Forall sample_ok (dataset test_dl) ->
  shape_contract forward (dataset test_dl) ->
  dataset test_dl <> [] ->
  run_epoch forward observe sgd_step getCt_shape0 train_dl test_dl self k
  = Ok (self1, s) ->
  isfinite s = true.
Proof.
  intros Hbs Hok Hct Hne H.
  destruct (run_epoch_score _ _ H) as (model1 & tst & d & Et & El).
  destruct (@epoch_ok params forward (fun p _ => p) model1 test_dl Hbs Hok Hct)
    as (m & E & Hs & _).
  unfold doTesting in Et. rewrite testing_loop_as_training, E in Et.
  cbn [bind snd] in Et. injection Et as <-.
  destruct (dataset test_dl) as [|x ds]; [contradiction|].
  cbn [List.length] in Hs.
  destruct (forallb (forallb isfinite) (data m)) eqn:Ef.
  - apply all_finite_forallb in Ef.
    destruct (logMetrics_finite_score Hs Ef) as (d' & q & E').
    rewrite E' in El. injection El as _ <-. reflexivity.
  - rewrite (logMetrics_not_finite _ Ef) in El. discriminate.
Qed.

Lemma run_epoch_score_nan (self self1 : app params) (k : nat) (s : num) :
  dataset test_dl = [] ->
  run_epoch forward observe sgd_step getCt_shape0 train_dl test_dl self k
  = Ok (self1, s) ->
  s = NaN.
Proof.
  intros Hempty H.
  destruct (run_epoch_score _ _ H) as (model1 & tst & d & Et & El).
  unfold doTesting, batches, enumerateWithEstimate in Et.
  rewrite Hempty in Et.
  cbn [batch_sampler map enumerate_from testing_loop List.length] in Et.
  injection Et as <-. cbn [data] in El.
  destruct (@logMetrics_empty_score (zeros METRICS_SIZE 0)) as (d' & E');
    [apply zeros_shape|].
  rewrite E' in El. injection El as _ <-. reflexivity.
Qed.

(** The history and the files of [main] are those of its loop. *)
Lemma main_hist (self : app params) :
  snd (fst (main forward observe sgd_step getCt_shape0 train_dl test_dl self))
  = snd (fst (main_loop
                (run_epoch forward observe sgd_step getCt_shape0
                   train_dl test_dl)
                (epochs (cli self)) 1 self (of_Z 0) [])).
Proof.
  unfold main.
  destruct (main_loop _ _ _ _ _ _) as [[fs hist] out]. reflexivity.
Qed.

Lemma main_files (self : app params) :
  fst (fst (main forward observe sgd_step getCt_shape0 train_dl test_dl self))
  = fst (fst (main_loop
                (run_epoch forward observe sgd_step getCt_shape0
                   train_dl test_dl)
                (epochs (cli self)) 1 self (of_Z 0) [])).
Proof.
  unfold main.
  destruct (main_loop _ _ _ _ _ _) as [[fs hist] out]. reflexivity.
Qed.

End MainFacts.

Section SplitAt.

Lemma nth_error_split_firstn (A : Type) (l : list A) (i : nat) (x : A) :
  nth_error l i = Some x ->
  exists h2, l = firstn i l ++ x :: h2 /\ List.length (firstn i l) = i /\
             firstn (S i) l = firstn i l ++ [x].
Proof.
  intros H. destruct (nth_error_split _ _ H) as (h1 & h2 & -> & Hlen).
  assert (E : firstn i (h1 ++ x :: h2) = h1).
  { rewrite firstn_app, <- Hlen, Nat.sub_diag, firstn_all. cbn.
    apply app_nil_r. }
  exists h2. rewrite E. split; [reflexivity|]. split; [exact Hlen|].
  rewrite firstn_app, <- Hlen.
  replace (S (List.length h1) - List.length h1) with 1 by lia.
  rewrite firstn_all2 by lia. reflexivity.
Qed.

End SplitAt.

(** X8.  In a run of [main] with a non-empty evaluation set (batch size
    at least 1, masks of the label's shape, network keeping its shape
    contract), the [i]-th epoch that completes has index [i+1], and
    [saveModel] is told [isBest] for it exactly when its score is at
    least 0 and at least the score of every earlier epoch. *)
Theorem main_promotion (params : Type) (forward : params -> tensor -> tensor)
    (observe : params -> tensor -> params)
    (sgd_step : params -> batch -> params) (getCt_shape0 : string -> nat)
    (train_dl test_dl : DataLoader)
    (self : app params) (i : nat) (e : epoch_log) :
  1 <= batch_size test_dl ->
  Forall sample_ok (dataset test_dl) ->
  shape_contract forward (dataset test_dl) ->
  dataset test_dl <> [] ->
  let hist := snd (fst (main forward observe sgd_step getCt_shape0 train_dl test_dl self)) in
  nth_error hist i = Some e ->
  e_ndx e = S i /\
  (e_isBest e = true <->
   geb (e_score e) (of_Z 0) = true /\
   forall e', In e' (firstn i hist) -> geb (e_score e) (e_score e') = true).
Proof.
  intros Hbs Hok Hct Hne hist Hi. subst hist. rewrite main_hist in *.
  set (run := run_epoch forward observe sgd_step getCt_shape0 train_dl test_dl) in *.
  assert (Hfin : Forall (fun e => isfinite (e_score e) = true)
                   (snd (fst (main_loop run (epochs (cli self)) 1 self
                                (of_Z 0) [])))).
  { apply main_loop_scores with (P := fun s => isfinite s = true);
      [|constructor].
    intros a k a1 s H.
    exact (@run_epoch_score_finite params forward observe sgd_step getCt_shape0 train_dl test_dl
             a a1 k s Hbs Hok Hct Hne H). }
  destruct (main_loop_hist run (epochs (cli self)) 1 self (of_Z 0) [])
    as (new & E & Hnew).
  cbn [List.app] in E. rewrite E in *.
  destruct (nth_error_split_firstn _ _ Hi) as (h2 & Esplit & Hlen & _).
  destruct (Hnew _ _ _ Esplit) as [Hndx Hbest].
  rewrite Hlen in Hndx. split; [exact Hndx|].
  rewrite Esplit in Hfin. apply Forall_app in Hfin as [Hf1 Hf2].
  inversion Hf2 as [|? ? He _]; subst.
  apply Fin_isfinite in He as (s & Es).
  destruct (best_after_Fin (qz 0) Hf1) as (b & Eb & Hb0 & Hall & Hin).
  change (Fin (qz 0)) with (of_Z 0) in Eb.
  rewrite Hbest, Es, Eb, isBest_Fin. unfold of_Z. rewrite geb_Fin. split.
  - intros Hbs'. split; [eapply Qcle_trans; eassumption|].
    intros e' He'. rewrite Forall_forall in Hf1.
    destruct (proj1 (Fin_isfinite _) (Hf1 e' He')) as (s' & Es').
    rewrite Es'. apply geb_Fin. eapply Qcle_trans; [|exact Hbs'].
    eapply Hall; eassumption.
  - intros [H0 Hprev]. destruct Hin as [->|(e' & He' & Ee')]; [exact H0|].
    specialize (Hprev e' He'). rewrite Ee' in Hprev. apply geb_Fin, Hprev.
Qed.

(** X9.  After a run of [main] the ['best'] file holds the checkpoint
    saved by the last epoch for which [isBest] held: the state of the
    network and the sample count the application had when the epochs up
    to that one were done, and the index of that epoch; if there was
    none, the file is as it was before the run. *)
Theorem main_best_file (params : Type) (forward : params -> tensor -> tensor)
    (observe : params -> tensor -> params)
    (sgd_step : params -> batch -> params) (getCt_shape0 : string -> nat)
    (train_dl test_dl : DataLoader)
    (self : app params) :
  let run := run_epoch forward observe sgd_step getCt_shape0 train_dl test_dl in
  let fs' := fst (fst (main forward observe sgd_step getCt_shape0 train_dl test_dl self)) in
  let hist := snd (fst (main forward observe sgd_step getCt_shape0 train_dl test_dl self)) in
  match last_best hist with
  | Some j =>
      exists (self_j : app params) (hist_j : list epoch_log),
        1 <= j <= epochs (cli self) /\
        main_loop run j 1 self (of_Z 0) []
        = (files self_j, hist_j, Finished self_j) /\
        read_file fs' (state_path self "seg" "best")
        = Some (Checkpoint (model self_j) "UNetWrapper" "SGD" j
                           (totalTrainingSamples_count self_j))
  | None =>
      read_file fs' (state_path self "seg" "best")
      = read_file (files self) (state_path self "seg" "best")
  end.
Proof.
  cbv zeta. rewrite ?main_hist, ?main_files.
  destruct (main_loop_files
              (@run_epoch_keeps_files params forward observe sgd_step
                 getCt_shape0 train_dl test_dl)
              (epochs (cli self)) 1 self (of_Z 0) [])
    as (new & E & H).
  cbn [List.app] in E. rewrite E.
  destruct (last_best new) as [j|]; [|exact H].
  destruct H as (i & self_j & hist_j & -> & Hi & Ej & Hr).
  exists self_j, hist_j. split; [lia|]. split; [exact Ej|exact Hr].
Qed.

(** X10.  With an empty evaluation set no epoch of [main] is promoted:
    every score is NaN, every [isBest] flag is false, and the ['best']
    file is never written. *)
Theorem main_empty_test_set (params : Type)
    (forward : params -> tensor -> tensor)
    (observe : params -> tensor -> params)
    (sgd_step : params -> batch -> params) (getCt_shape0 : string -> nat)
    (train_dl test_dl : DataLoader)
    (self : app params) :
  dataset test_dl = [] ->
  let fs' := fst (fst (main forward observe sgd_step getCt_shape0 train_dl test_dl self)) in
  let hist := snd (fst (main forward observe sgd_step getCt_shape0 train_dl test_dl self)) in
  Forall (fun e => e_score e = NaN /\ e_isBest e = false) hist /\
  read_file fs' (state_path self "seg" "best")
  = read_file (files self) (state_path self "seg" "best").
Proof.
  intros Hempty. cbv zeta. rewrite ?main_hist, ?main_files.
  destruct (main_loop_files
              (@run_epoch_keeps_files params forward observe sgd_step getCt_shape0 train_dl test_dl)
              (epochs (cli self)) 1 self (of_Z 0) [])
    as (new' & E' & Hfile).
  cbv zeta in Hfile.
  set (run := run_epoch forward observe sgd_step getCt_shape0 train_dl test_dl) in *.
  assert (Hnan : Forall (fun e => e_score e = NaN)
                   (snd (fst (main_loop run (epochs (cli self)) 1 self
                                (of_Z 0) [])))).
  { apply main_loop_scores with (P := fun s => s = NaN); [|constructor].
    intros a k a1 s H.
    exact (@run_epoch_score_nan params forward observe sgd_step getCt_shape0 train_dl test_dl
             a a1 k s Hempty H). }
  destruct (main_loop_hist run (epochs (cli self)) 1 self (of_Z 0) [])
    as (new & E & Hnew).
  cbn [List.app] in E, E'. rewrite E in *. subst new'.
  assert (Hall : Forall (fun e => e_score e = NaN /\ e_isBest e = false) new).
  { apply Forall_forall. intros e He.
    rewrite Forall_forall in Hnan. pose proof (Hnan e He) as En.
    split; [exact En|].
    apply In_nth_error in He as (i & Hi).
    destruct (nth_error_split _ _ Hi) as (h1 & h2 & Es & _).
    destruct (Hnew _ _ _ Es) as [_ Hb]. rewrite Hb, En. reflexivity. }
  split; [exact Hall|].
  assert (Hlb : last_best new = None).
  { clear -Hall. induction Hall as [|e l [_ He] _ IH]; [reflexivity|].
    cbn [last_best]. rewrite IH, He. reflexivity. }
  rewrite Hlb in Hfile. exact Hfile.
Qed.

Lemma main_promotion_witness :
  exists e : epoch_log,
    nth_error (snd (fst scenario_A_main)) 1 = Some e /\
    e_ndx e = 2 /\
    (e_isBest e = true <->
     geb (e_score e) (of_Z 0) = true /\
     forall e', In e' (firstn 1 (snd (fst scenario_A_main))) ->
                geb (e_score e) (e_score e') = true).
Proof.
  assert (H : exists e, nth_error (snd (fst scenario_A_main)) 1 = Some e)
    by (vm_compute; eexists; reflexivity).
  destruct H as (e & He). exists e. split; [exact He|].
  apply (@main_promotion unit predict_zero (fun p _ => p) (fun p _ => p) (fun _ => 0) scenario_A_dl
           scenario_A_dl scenario_A_app 1 e).
  - cbn. lia.
  - exact scenario_A_samples_ok.
  - exact predict_zero_contract.
  - discriminate.
  - exact He.
Defined.

Lemma main_empty_test_set_witness :
  Forall (fun e => e_score e = NaN /\ e_isBest e = false)
         (snd (fst empty_test_main)) /\
  read_file (fst (fst empty_test_main))
            (state_path scenario_A_app "seg" "best")
  = read_file (files scenario_A_app) (state_path scenario_A_app "seg" "best").
Proof.
  apply (@main_empty_test_set unit predict_zero (fun p _ => p) (fun p _ => p) (fun _ => 0) scenario_A_dl
           empty_dl scenario_A_app).
  reflexivity.
Defined.

Section NanScore.

Lemma best_after_app (best : num) (h1 h2 : list epoch_log) :
  best_after best (h1 ++ h2) = best_after (best_after best h1) h2.
Proof. unfold best_after. apply fold_left_app. Qed.

Lemma pymax_nan_l (b : num) : pymax NaN b = NaN.
Proof. destruct b; reflexivity. Qed.

Lemma pymax_nan_r (s : num) : pymax s NaN = s.
Proof. destruct s; reflexivity. Qed.

Lemma eqb_refl_not_nan (s : num) : s <> NaN -> eqb s s = true.
Proof.
  destruct s; intros H; try reflexivity; [apply eqb_Fin_refl|contradiction].
Qed.

End NanScore.

(** X11.  In the loop of [main], whatever the epochs compute: an epoch
    whose score is NaN is not promoted, and it leaves [best_score] NaN,
    so that the next epoch is promoted as soon as its score is not NaN,
    however low that score is. *)
Theorem main_loop_nan (params : Type)
    (run : app params -> nat -> result (app params * num))
    (n : nat) (self : app params) (i : nat) (e : epoch_log) :
  let hist := snd (fst (main_loop run n 1 self (of_Z 0) [])) in
  nth_error hist i = Some e ->
  e_score e = NaN ->
  e_isBest e = false /\
  forall e2, nth_error hist (S i) = Some e2 -> e_score e2 <> NaN ->
             e_isBest e2 = true.
Proof.
  intros hist Hi Hnan. subst hist.
  destruct (main_loop_hist run n 1 self (of_Z 0) []) as (new & E & Hnew).
  cbn [List.app] in E. rewrite E in *.
  destruct (nth_error_split_firstn _ _ Hi) as (h2 & Es & _ & Hsucc).
  destruct (Hnew _ _ _ Es) as [_ Hb]. split.
  - rewrite Hb, Hnan. reflexivity.
  - intros e2 H2 Hne.
    destruct (nth_error_split_firstn _ _ H2) as (h3 & Es2 & _ & _).
    destruct (Hnew _ _ _ Es2) as [_ Hb2].
    rewrite Hb2, Hsucc, best_after_app. cbn [best_after fold_left].
    rewrite Hnan, pymax_nan_l, pymax_nan_r. apply eqb_refl_not_nan, Hne.
Qed.

Lemma main_loop_nan_witness :
  exists e : epoch_log,
    nth_error
      (snd (fst (main_loop
                   (@scripted_epoch unit [lit 9 10; NaN; lit 1 2])
                   3 1 scenario_A_app (of_Z 0) []))) 1 = Some e /\
    e_isBest e = false /\
    forall e2,
      nth_error
        (snd (fst (main_loop
                     (@scripted_epoch unit [lit 9 10; NaN; lit 1 2])
                     3 1 scenario_A_app (of_Z 0) []))) 2 = Some e2 ->
      e_score e2 <> NaN -> e_isBest e2 = true.
Proof.
  exists (EpochLog 2 NaN false). split; [reflexivity|].
  apply (@main_loop_nan unit (@scripted_epoch unit [lit 9 10; NaN; lit 1 2])
           3 scenario_A_app 1 (EpochLog 2 NaN false)); reflexivity.
Defined.

(** ** The contents of the buffer *)

Section Cells.
Local Open Scope Qc_scope.

Lemma probability_finite (x : num) : probability x -> isfinite x = true.
Proof. intros (q & -> & _). reflexivity. Qed.

Lemma nonneg_finite (x : num) : nonneg x -> isfinite x = true.
Proof. intros (q & -> & _). reflexivity. Qed.

Lemma cell_ok_finite (r : nat) (x : num) : cell_ok r x -> isfinite x = true.
Proof.
  unfold cell_ok.
  do 10 (destruct r as [|r]; auto using probability_finite, nonneg_finite).
Qed.

Lemma binary_probability (x : num) : binary x -> probability x.
Proof.
  intros [-> | ->]; [exists (qz 0)|exists (qz 1)];
    (split; [reflexivity|split; discriminate]).
Qed.

Lemma binary_nonneg (x : num) : binary x -> nonneg x.
Proof.
  intros H. destruct (binary_probability H) as (q & E & H0 & _).
  exists q. auto.
Qed.

Lemma binary_mul (x y : num) : binary x -> binary y -> binary (x * y)%num.
Proof.
  intros [-> | ->] [-> | ->];
    [left|left|left|right]; apply same_true_eq; reflexivity.
Qed.

Lemma binary_one_minus (x : num) : binary x -> binary (one - x)%num.
Proof.
  intros [-> | ->]; [right|left]; apply same_true_eq; reflexivity.
Qed.

Lemma binary_of_bool (b : bool) : binary (of_bool b).
Proof. destruct b; [right|left]; reflexivity. Qed.


Lemma nonneg_sum (l : vec) : Forall nonneg l -> nonneg (sum l).
Proof. intros H. destruct (sum_nonneg H) as (S & E & HS). exists S. auto. Qed.

Lemma Forall_firstn (A : Type) (P : A -> Prop) (n : nat) (l : list A) :
  Forall P l -> Forall P (firstn n l).
Proof.
  intros H. revert n. induction H; intros [|n]; cbn; constructor; auto.
Qed.

Lemma Forall_skipn (A : Type) (P : A -> Prop) (n : nat) (l : list A) :
  Forall P l -> Forall P (skipn n l).
Proof.
  intros H. revert n. induction H; intros [|n]; cbn; auto.
Qed.

Lemma Forall_zipw (PA PB Q : num -> Prop) (f : num -> num -> num) (a b : vec) :
  (forall x y, PA x -> PB y -> Q (f x y)) ->
  Forall PA a -> Forall PB b -> Forall Q (zipw f a b).
Proof.
  intros Hf Ha. revert b. unfold zipw.
  induction Ha as [|x a Hx _ IH]; intros b Hb; [constructor|].
  destruct Hb as [|y b Hy Hb]; cbn; constructor; auto.
Qed.

Lemma Forall_tscal (P Q : num -> Prop) (f : num -> num) (t : tensor) :
  (forall x, P x -> Q (f x)) ->
  Forall (Forall P) t -> Forall (Forall Q) (tscal f t).
Proof.
  intros Hf H. unfold tscal. induction H as [|l t Hl _ IH]; cbn; constructor;
    [|exact IH].
  induction Hl; cbn; constructor; auto.
Qed.

Lemma Forall_threshold (t : tensor) :
  Forall (Forall binary) (tscal (fun x => of_bool (gtb x (lit 1 2))) t).
Proof.
  unfold tscal. induction t as [|l t IH]; cbn; constructor; [|exact IH].
  induction l; cbn; constructor; [apply binary_of_bool|assumption].
Qed.

(** Per-sample sums of entrywise products of binary tensors are counts. *)
Lemma Forall_intersection (a b : tensor) :
  Forall (Forall binary) a -> Forall (Forall binary) b ->
  Forall nonneg
    (sum_dim1 (map (fun p => zipw mul (fst p) (snd p)) (combine a b))).
Proof.
  intros Ha. revert b. unfold sum_dim1.
  induction Ha as [|x a Hx _ IH]; intros b Hb; [constructor|].
  destruct Hb as [|y b Hy Hb]; cbn [combine map]; constructor; [|auto].
  apply nonneg_sum. cbn [fst snd].
  eapply Forall_impl; [exact binary_nonneg|].
  apply (Forall_zipw (PA := binary) (PB := binary)); auto using binary_mul.
Qed.

Lemma Forall_product (a b : tensor) :
  Forall (Forall binary) a -> Forall (Forall binary) b ->
  Forall (Forall binary) (map (fun p => zipw mul (fst p) (snd p)) (combine a b)).
Proof.
  intros Ha. revert b.
  induction Ha as [|x a Hx _ IH]; intros b Hb; [constructor|].
  destruct Hb as [|y b Hy Hb]; cbn [combine map]; constructor; [|auto].
  apply (Forall_zipw (PA := binary) (PB := binary)); auto using binary_mul.
Qed.

(** The losses of a batch of binary labels and probabilities. *)
Lemma Forall_dice (label prediction : tensor) :
  same_shape label prediction ->
  Forall (Forall binary) label -> Forall (Forall probability) prediction ->
  Forall probability
    (map (fun lp => dice_of_sample (fst lp) (snd lp) default_epsilon)
         (combine label prediction)).
Proof.
  induction 1 as [|l p ls ps Hlp _ IH]; intros Hl Hp; [constructor|].
  inversion Hl; inversion Hp; subst. cbn [combine map fst snd].
  constructor; [|auto].
  apply in_0_1_probability. unfold default_epsilon, of_Z.
  apply dice_of_sample_range; auto. reflexivity.
Qed.

End Cells.

Section Inversions.

Lemma vzip_inv (f : num -> num -> num) (a b r : vec) :
  vzip f a b = Ok r -> r = zipw f a b /\ List.length a = List.length b.
Proof.
  revert b r. induction a as [|x a IH]; intros [|y b] r H; try discriminate.
  - injection H as <-. split; reflexivity.
  - cbn [vzip] in H. destruct (vzip f a b) as [r'|] eqn:E; cbn [bind] in H;
      [|discriminate].
    injection H as <-. destruct (IH _ _ E) as [-> Hlen].
    split; [reflexivity|cbn; lia].
Qed.

Lemma tzip_inv (f : num -> num -> num) (a b r : tensor) :
  tzip f a b = Ok r ->
  r = map (fun p => zipw f (fst p) (snd p)) (combine a b) /\ same_shape a b.
Proof.
  revert b r. induction a as [|x a IH]; intros [|y b] r H; try discriminate.
  - injection H as <-. split; [reflexivity|constructor].
  - cbn [tzip] in H. destruct (vzip f x y) as [s|] eqn:Ev; cbn [bind] in H;
      [|discriminate].
    destruct (tzip f a b) as [r'|] eqn:E; cbn [bind] in H; [|discriminate].
    injection H as <-. destruct (vzip_inv _ _ _ Ev) as [-> Hlen].
    destruct (IH _ _ E) as [-> Hs].
    split; [reflexivity|constructor; assumption].
Qed.

Lemma intersectionSum_inv (a b : tensor) (v : vec) :
  intersectionSum a b = Ok v ->
  v = sum_dim1 (map (fun p => zipw mul (fst p) (snd p)) (combine a b)).
Proof.
  unfold intersectionSum. intros H.
  destruct (tzip mul a b) as [r|] eqn:E; cbn [bind] in H; [|discriminate].
  injection H as <-. destruct (tzip_inv _ _ _ E) as [-> _]. reflexivity.
Qed.

Lemma diceLoss_inv (label prediction : tensor) (epsilon : num) (v : vec) :
  diceLoss label prediction epsilon = Ok v ->
  same_shape label prediction /\
  v = map (fun lp => dice_of_sample (fst lp) (snd lp) epsilon)
          (combine label prediction).
Proof.
  intros H.
  assert (Hs : same_shape label prediction).
  { unfold diceLoss in H.
    destruct (tzip mul prediction label) as [r|] eqn:E; cbn [bind] in H;
      [|discriminate].
    apply same_shape_sym. apply (tzip_inv _ _ _ E). }
  split; [exact Hs|]. rewrite (diceLoss_samples _ Hs) in H.
  injection H as <-. reflexivity.
Qed.

(** A successful assignment keeps a buffer whose entries are as their
    rows ask, when the new values are. *)
Lemma assign_values (m m' : metrics) (ndx start stop : nat) (vals : vec) :
  assign m ndx start stop vals = Ok m' ->
  buffer_ok (data m) -> Forall (cell_ok ndx) vals ->
  buffer_ok (data m').
Proof.
  unfold assign. intros H Hm Hv.
  destruct (nth_error (data m) ndx) as [row|] eqn:Erow; [|discriminate].
  unfold set_slice in H.
  destruct (Nat.eqb (List.length vals) _); cbn [bind] in H; [|discriminate].
  injection H as <-. cbn [data].
  assert (Hn : ndx < List.length (data m)).
  { apply nth_error_Some. rewrite Erow. discriminate. }
  intros r row1 E1. rewrite (nth_error_replace _ _ _ Hn) in E1.
  destruct (Nat.eqb_spec r ndx) as [->|Hne].
  - injection E1 as <-. pose proof (Hm _ _ Erow) as Hrow.
    apply Forall_app. split; [apply Forall_firstn, Hrow|].
    apply Forall_app. split; [exact Hv|apply Forall_skipn, Hrow].
  - apply (Hm _ _ E1).
Qed.

End Inversions.

Ltac bind_inv H x E :=
  match type of H with
  | bind ?m _ = Ok _ =>
      destruct m as [x|] eqn:E; cbn [bind] in H; [|discriminate H]
  end.

Section LossStepValues.

Variable params : Type.
Variable forward : params -> tensor -> tensor.

Lemma Forall_map_sample (P : list num -> Prop) (f : sample -> list num)
    (ss : list sample) :
  Forall (fun s => P (f s)) ss -> Forall P (map f ss).
Proof. induction 1; cbn; constructor; auto. Qed.

(** One call of [computeBatchLoss] keeps the entries of the buffer as
    their rows ask: losses in [0,1], counts not negative. *)
Lemma computeBatchLoss_values (model : params) (batch_ndx batch_size : nat)
    (ss : list sample) (m m' : metrics) (loss : num) :
  computeBatchLoss forward model batch_ndx (collate ss) batch_size m
  = Ok (m', loss) ->
  buffer_ok (data m) ->
  Forall sample_binary ss ->
  Forall (Forall probability) (forward model (map s_input ss)) ->
  buffer_ok (data m').
Proof.
  intros H Hm Hbin Hprob.
  unfold computeBatchLoss in H.
  cbn [collate label_tensor mal_tensor ben_tensor label_list input_tensor] in H.
  cbv zeta in H.
  set (L := map s_label_mask ss) in *.
  set (P := forward model (map s_input ss)) in *.
  set (B := map s_ben ss) in *. set (M := map s_mal ss) in *.
  set (PB := tscal (fun x => of_bool (gtb x (lit 1 2))) P) in *.
  assert (HL : Forall (Forall binary) L).
  { apply Forall_map_sample. eapply Forall_impl; [|exact Hbin].
    intros s (H1 & _ & _). exact H1. }
  assert (HB : Forall (Forall binary) B).
  { apply Forall_map_sample. eapply Forall_impl; [|exact Hbin].
    intros s (_ & H2 & _). exact H2. }
  assert (HM : Forall (Forall binary) M).
  { apply Forall_map_sample. eapply Forall_impl; [|exact Hbin].
    intros s (_ & _ & H3). exact H3. }
  pose proof (Forall_threshold P) as HPB. fold PB in HPB.
  pose proof (@Forall_tscal binary binary (fun x => one - x)%num _ binary_one_minus HPB) as H1PB.
  pose proof (@Forall_tscal binary binary (fun x => one - x)%num _ binary_one_minus HL) as H1L.
  pose proof (@Forall_tscal binary binary (fun x => one - x)%num _ binary_one_minus HB) as H1B.
  fold (one_minus PB) in H1PB. fold (one_minus L) in H1L.
  fold (one_minus B) in H1B.
  bind_inv H dl Edl.
  bind_inv H m1 E1. bind_inv H m2 E2.
  bind_inv H tp Etp. bind_inv H fn Efn. bind_inv H fp Efp.
  bind_inv H m3 E3. bind_inv H m4 E4. bind_inv H m5 E5.
  bind_inv H MP EMP.
  bind_inv H mtp Emtp. bind_inv H mfn Emfn. bind_inv H mfp Emfp.
  bind_inv H ls Els.
  bind_inv H m6 E6. bind_inv H m7 E7. bind_inv H m8 E8.
  injection H as <- _.
  destruct (diceLoss_inv _ _ _ Edl) as [Hs ->].
  apply intersectionSum_inv in Etp, Efn, Efp, Emtp, Emfn. subst tp fn fp mtp mfn.
  destruct (tzip_inv _ _ _ EMP) as [-> _].
  pose proof (Forall_product HPB H1B) as HMP.
  set (MP := map (fun p => zipw mul (fst p) (snd p)) (combine PB (one_minus B)))
    in *.
  pose proof (@Forall_tscal binary binary (fun x => one - x)%num _ binary_one_minus HMP) as H1MP.
  fold (one_minus MP) in H1MP.
  destruct (diceLoss_inv _ _ _ Els) as [Hs2 ->].
  assert (HMPp : Forall (Forall probability) MP).
  { eapply Forall_impl; [|exact HMP]. intros l Hl.
    eapply Forall_impl; [exact binary_probability|exact Hl]. }
  assert (Hm1 : buffer_ok (data m1)).
  { apply (@assign_values _ _ _ _ _ _ E1 Hm).
    apply Forall_forall. intros x Hx. apply in_map_iff in Hx as (z & <- & _).
    reflexivity. }
  assert (Hm2 : buffer_ok (data m2)).
  { apply (@assign_values _ _ _ _ _ _ E2 Hm1). apply (Forall_dice Hs HL Hprob). }
  assert (Hm3 : buffer_ok (data m3)).
  { apply (@assign_values _ _ _ _ _ _ E3 Hm2). apply (Forall_intersection HL HPB). }
  assert (Hm4 : buffer_ok (data m4)).
  { apply (@assign_values _ _ _ _ _ _ E4 Hm3).
    apply (Forall_intersection HL H1PB). }
  assert (Hm5 : buffer_ok (data m5)).
  { apply (@assign_values _ _ _ _ _ _ E5 Hm4).
    apply (Forall_intersection H1L HPB). }
  assert (Hm6 : buffer_ok (data m6)).
  { apply (@assign_values _ _ _ _ _ _ E6 Hm5). apply (Forall_intersection HM HMP). }
  assert (Hm7 : buffer_ok (data m7)).
  { apply (@assign_values _ _ _ _ _ _ E7 Hm6).
    apply (Forall_intersection HM H1MP). }
  apply (@assign_values _ _ _ _ _ _ E8 Hm7). apply (Forall_dice Hs2 HM HMPp).
Qed.

End LossStepValues.

Section EpochValues.

Variable params : Type.
Variable forward : params -> tensor -> tensor.

Lemma cell_ok_zero (r : nat) : cell_ok r zero.
Proof.
  unfold cell_ok.
  do 10 (destruct r as [|r];
         [first [reflexivity
                |apply binary_probability; left; reflexivity
                |apply binary_nonneg; left; reflexivity]|]).
  reflexivity.
Qed.

Lemma zeros_buffer_ok (rows cols : nat) : buffer_ok (zeros rows cols).
Proof.
  intros r row E. unfold zeros in E.
  apply nth_error_In, repeat_spec in E. subst row.
  apply Forall_forall. intros x Hx. apply repeat_spec in Hx. subst x.
  apply cell_ok_zero.
Qed.

Lemma buffer_ok_all_finite (t : tensor) : buffer_ok t -> all_finite t.
Proof.
  intros H row x Hrow Hx. apply In_nth_error in Hrow as (r & Er).
  pose proof (H _ _ Er) as Hall. rewrite Forall_forall in Hall.
  eapply cell_ok_finite, Hall, Hx.
Qed.

Lemma training_loop_values (sgd_step : params -> batch -> params)
    (batch_size : nat) (bl : list (list sample)) :
  (forall b, In b bl -> Forall sample_binary b) ->
  (forall model b, In b bl ->
     Forall (Forall probability) (forward model (map s_input b))) ->
  forall (k : nat) (model model' : params) (m m' : metrics),
  training_loop forward sgd_step model batch_size
    (enumerate_from k (map collate bl)) m = Ok (model', m') ->
  buffer_ok (data m) -> buffer_ok (data m').
Proof.
  induction bl as [|b bl IH]; intros Hbin Hprob k model model' m m' H Hm.
  - cbn in H. injection H as _ <-. exact Hm.
  - cbn [map enumerate_from training_loop] in H.
    destruct (computeBatchLoss forward model k (collate b) batch_size m)
      as [[m1 loss]|] eqn:E; cbn [bind fst] in H; [|discriminate].
    eapply IH; [| |exact H|].
    + intros b' Hb'. apply Hbin. right. exact Hb'.
    + intros mo b' Hb'. apply Hprob. right. exact Hb'.
    + eapply computeBatchLoss_values; [exact E|exact Hm| |].
      * apply Hbin. left. reflexivity.
      * apply Hprob. left. reflexivity.
Qed.

(** An epoch from a fresh buffer, on binary masks and with a network
    that predicts probabilities: the entries of the buffer are as their
    rows ask. *)
Lemma epoch_values (sgd_step : params -> batch -> params) (model model' : params)
    (dl : DataLoader) (m : metrics) :
  1 <= batch_size dl ->
  Forall sample_binary (dataset dl) ->
  value_contract forward (dataset dl) ->
  training_loop forward sgd_step model (batch_size dl)
    (enumerateWithEstimate (batches dl) (num_workers dl))
    (Metrics (zeros METRICS_SIZE (List.length (dataset dl))) [])
  = Ok (model', m) ->
  buffer_ok (data m).
Proof.
  intros Hbs Hbin Hval H.
  destruct (batches_facts dl Hbs) as (_ & _ & Hincl).
  unfold enumerateWithEstimate, batches in H.
  eapply training_loop_values; [| |exact H|apply zeros_buffer_ok].
  - intros b Hb. rewrite Forall_forall in Hbin |- *.
    intros x Hx. apply Hbin, (Hincl b Hb x Hx).
  - intros mo b Hb. apply Hval, Hincl, Hb.
Qed.

End EpochValues.

(** X12.  An evaluation pass on samples with binary masks of one shape,
    with a network that returns probabilities of the shape of the label
    and a batch size of at least 1, returns a buffer with every entry
    finite, both loss rows in [0,1] and the five count rows (MTP, MFN,
    ATP, AFN, AFP) not negative. *)
Theorem doTesting_ranges (params : Type)
    (forward : params -> tensor -> tensor) (model : params) (dl : DataLoader) :
  1 <= batch_size dl ->
  Forall sample_ok (dataset dl) ->
  Forall sample_binary (dataset dl) ->
  shape_contract forward (dataset dl) ->
  value_contract forward (dataset dl) ->
  exists m : metrics,
    doTesting forward model dl = Ok m /\
    all_finite (data m) /\
    row_all probability (data m) METRICS_LOSS_NDX /\
    row_all probability (data m) METRICS_MAL_LOSS_NDX /\
    row_all nonneg (data m) METRICS_MTP_NDX /\
    row_all nonneg (data m) METRICS_MFN_NDX /\
    row_all nonneg (data m) METRICS_ATP_NDX /\
    row_all nonneg (data m) METRICS_AFN_NDX /\
    row_all nonneg (data m) METRICS_AFP_NDX.
Proof.
  intros Hbs Hok Hbin Hct Hval.
  destruct (@epoch_ok params forward (fun p _ => p) model dl Hbs Hok Hct)
    as (m & E & _).
  pose proof (@epoch_values params forward _ _ _ dl m Hbs Hbin Hval E) as Hm.
  exists m. unfold doTesting. rewrite testing_loop_as_training, E.
  cbn [bind snd]. split; [reflexivity|].
  split; [apply buffer_ok_all_finite, Hm|].
  repeat split; intros row Er; exact (Hm _ _ Er).
Qed.

Lemma scenario_A_binary : Forall sample_binary (dataset scenario_A_dl).
Proof. repeat constructor; left; reflexivity. Qed.

Lemma predict_zero_values : value_contract predict_zero (dataset scenario_A_dl).
Proof.
  intros model ss _. unfold predict_zero. rewrite map_map.
  apply Forall_forall. intros l Hl. apply in_map_iff in Hl as (s & <- & _).
  repeat constructor; apply binary_probability; left; reflexivity.
Qed.

(** Scenario C keeps the contracts of the epoch drivers. *)
Lemma scenario_C_samples_ok : Forall sample_ok (dataset scenario_C_dl).
Proof. repeat constructor. Qed.

Lemma binary_zero_one : binary zero /\ binary one.
Proof. split; [left|right]; reflexivity. Qed.

Ltac solve_binary :=
  repeat match goal with
         | |- Forall _ (_ :: _) => constructor
         | |- Forall _ [] => constructor
         | |- sample_binary _ => unfold sample_binary; cbn [s_label_mask s_ben s_mal]
         | |- _ /\ _ => split
         | |- binary zero => exact (proj1 binary_zero_one)
         | |- binary one => exact (proj2 binary_zero_one)
         end.

Lemma scenario_C_binary : Forall sample_binary (dataset scenario_C_dl).
Proof.
  unfold scenario_C_dl, scenario_C_samples. cbn [dataset].
  solve_binary.
Qed.

Lemma in_scenario_C (P : sample -> Prop) :
  Forall P scenario_C_samples -> 
  forall ss, incl ss (dataset scenario_C_dl) -> Forall P ss.
Proof.
  intros H ss Hin. apply Forall_forall. intros x Hx.
  rewrite Forall_forall in H. apply H, Hin, Hx.
Qed.

Lemma first_channel_contract :
  shape_contract first_channel (dataset scenario_C_dl).
Proof.
  intros model ss Hin. unfold first_channel.
  assert (H : Forall (fun s => List.length (s_label_mask s) = 4 /\
                               List.length (s_input s) / 8 = 4 /\
                               List.length (firstn 4 (s_input s)) = 4) ss).
  { apply in_scenario_C; [|exact Hin]. unfold scenario_C_samples.
    repeat (constructor; [repeat split; reflexivity|]). constructor. }
  clear Hin. unfold same_shape.
  destruct (Nat.leb model 2); induction H as [|x ss (H1 & H2 & H3) _ IH];
    cbn [map]; constructor; auto; rewrite H2.
  - congruence.
  - rewrite repeat_length. exact H1.
Qed.

Lemma probability_lit (n : Z) (d : positive) :
  (0 <= n)%Z -> (n <= Z.pos d)%Z -> probability (lit n d).
Proof.
  intros H0 H1. eexists. split; [reflexivity|].
  unfold Qcle. cbn [this Q2Qc]. rewrite !Qred_correct.
  unfold Qle. cbn. lia.
Qed.

Ltac solve_prob :=
  repeat match goal with
         | |- Forall _ (_ :: _) => constructor
         | |- Forall _ [] => constructor
         | |- probability zero => apply (@probability_lit 0 1); lia
         | |- probability one => apply (@probability_lit 1 1); lia
         | |- probability (lit _ _) => apply probability_lit; lia
         end.

Lemma first_channel_values :
  value_contract first_channel (dataset scenario_C_dl).
Proof.
  intros model ss Hin. unfold first_channel.
  assert (H : Forall (fun s => List.length (s_input s) / 8 = 4 /\
                               Forall probability (firstn 4 (s_input s))) ss).
  { apply in_scenario_C; [|exact Hin]. unfold scenario_C_samples.
    repeat (constructor;
            [split; [reflexivity|cbn [s_input List.app firstn]; solve_prob]|]).
    constructor. }
  clear Hin.
  destruct (Nat.leb model 2); induction H as [|x ss [H1 H2] _ IH];
    cbn [map]; constructor; auto; rewrite H1.
  - exact H2.
  - cbn [repeat]. solve_prob.
Qed.

Lemma doTesting_ranges_witness :
  exists m : metrics,
    doTesting first_channel 0 scenario_C_dl = Ok m /\
    all_finite (data m) /\
    row_all probability (data m) METRICS_LOSS_NDX /\
    row_all probability (data m) METRICS_MAL_LOSS_NDX /\
    row_all nonneg (data m) METRICS_MTP_NDX /\
    row_all nonneg (data m) METRICS_MFN_NDX /\
    row_all nonneg (data m) METRICS_ATP_NDX /\
    row_all nonneg (data m) METRICS_AFN_NDX /\
    row_all nonneg (data m) METRICS_AFP_NDX.
Proof.
  apply (@doTesting_ranges nat first_channel 0 scenario_C_dl).
  - cbn. lia.
  - exact scenario_C_samples_ok.
  - exact scenario_C_binary.
  - exact first_channel_contract.
  - exact first_channel_values.
Defined.

(** ** The images of an epoch *)

Section Images.

Variable params : Type.
Variable forward : params -> tensor -> tensor.
Variable observe : params -> tensor -> params.
Variable getCt_shape0 : string -> nat.

Lemma scale_ct_length (ct : list vec) :
  List.length (scale_ct ct) = List.length ct.
Proof.
  unfold scale_ct. rewrite length_app, length_map, length_firstn, length_skipn.
  lia.
Qed.

Lemma Forall_firstn_skipn (A : Type) (P : A -> Prop) (n : nat) (l : list A) :
  Forall P l -> Forall P (firstn n l) /\ Forall P (skipn n l).
Proof.
  intros H. rewrite <- (firstn_skipn n l) in H. apply Forall_app in H. exact H.
Qed.

Lemma scale_ct_channels (n : nat) (ct : list vec) :
  Forall (fun channel => List.length channel = n) ct ->
  Forall (fun channel => List.length channel = n) (scale_ct ct).
Proof.
  intros H. unfold scale_ct.
  destruct (Forall_firstn_skipn (List.length ct - 1) H) as [H1 H2].
  apply Forall_app. split; [|exact H2].
  apply Forall_map. eapply Forall_impl; [|exact H1].
  intros channel E. cbn beta. rewrite length_map. exact E.
Qed.

Lemma get_ok (A : Type) (l : list A) (i : nat) :
  i < List.length l -> exists x, get l i = Ok x /\ In x l.
Proof.
  intros H. unfold get. destruct (nth_error l i) as [x|] eqn:E.
  - exists x. split; [reflexivity|]. eapply nth_error_In, E.
  - apply nth_error_None in E. lia.
Qed.

Lemma np_image_ok : np_image (512 * 512) = Ok tt.
Proof. unfold np_image. rewrite Nat.eqb_refl. reflexivity. Qed.

Lemma np_mul_ok (a b : vec) :
  List.length a = List.length b -> np_mul a b = Ok (List.length a).
Proof. intros E. unfold np_mul. rewrite E, Nat.eqb_refl. reflexivity. Qed.

Lemma logImages_slice_ok (model : params) (k : nat) (dl : DataLoader)
    (uid : string) (i : nat) :
  slice_ok forward dl (getitem dl uid i) ->
  exists model',
    logImages_slice forward observe model k dl uid i
    = Ok (model', slice_series_uid (getitem dl uid i)).
Proof.
  intros (Hctx & Hch & (label0 & rest & El & Ll) & Lb & Lm & Hp).
  unfold logImages_slice.
  destruct (Hp model) as (prediction & rest' & -> & Lp).
  cbn [get nth_error bind].
  pose proof (scale_ct_channels Hch) as Hch'.
  rewrite Forall_forall in Hch'.
  destruct (@get_ok _ (scale_ct (ct_tensor (getitem dl uid i)))
              (contextSlices_count dl)) as (ctx & -> & Hin);
    [rewrite scale_ct_length; exact Hctx|].
  cbn [bind]. rewrite (Hch' _ Hin), np_image_ok. cbn [bind].
  rewrite El. cbn [get nth_error bind].
  rewrite (np_mul_ok prediction label0) by congruence. cbn [bind].
  rewrite Lp, np_image_ok. cbn [bind].
  rewrite (np_mul_ok prediction _) by congruence. cbn [bind].
  rewrite Lp, np_image_ok. cbn [bind].
  rewrite (np_mul_ok prediction _) by congruence. cbn [bind].
  rewrite Lp, np_image_ok. cbn [bind].
  destruct (Nat.eqb k 1); [|eauto]. cbn [bind].
  destruct (@get_ok _ (scale_ct (ct_tensor (getitem dl uid i)))
              (List.length (scale_ct (ct_tensor (getitem dl uid i))) - 1))
    as (last & -> & Hin');
    [rewrite scale_ct_length in *; lia|].
  cbn [bind]. rewrite (np_mul_ok label0 last) by (rewrite (Hch' _ Hin'); exact Ll).
  cbn [bind]. rewrite Ll, np_image_ok. cbn [bind].
  rewrite Lm, np_image_ok. cbn [bind].
  rewrite Lb, np_image_ok. cbn [bind]. eauto.
Qed.

Lemma range_step_ok (stop step : nat) :
  1 <= step ->
  exists l, range_step stop step = Ok l /\ Forall (fun x => x < stop) l.
Proof.
  intros H. unfold range_step.
  destruct (Nat.eqb step 0) eqn:E; [apply Nat.eqb_eq in E; lia|].
  eexists. split; [reflexivity|].
  apply Forall_forall. intros x Hx. apply in_map_iff in Hx as (i & <- & Hi).
  apply in_seq in Hi. destruct Hi as [_ Hi]. cbn in Hi.
  pose proof (Nat.Div0.mul_div_le (stop + step - 1) step) as Hd.
  nia.
Qed.

Lemma logImages_slices_ok (k : nat) (dl : DataLoader) (uid : string)
    (slices : list nat) :
  Forall (fun i => slice_series_uid (getitem dl uid i) = uid /\
                   slice_ok forward dl (getitem dl uid i)) slices ->
  forall model,
  exists model',
    logImages_slices forward observe model k dl uid slices = Ok model'.
Proof.
  induction 1 as [|i slices [Hu Hi] _ IH]; intros model;
    cbn [logImages_slices].
  - eauto.
  - destruct (logImages_slice_ok model k uid i Hi) as (m1 & ->).
    cbn [bind fst snd]. rewrite Hu. apply IH.
Qed.

Lemma logImages_series_ok (k : nat) (dl : DataLoader) (series : list string) :
  (forall uid, In uid series ->
     5 <= getCt_shape0 uid /\
     forall i, i < getCt_shape0 uid ->
               slice_series_uid (getitem dl uid i) = uid /\
               slice_ok forward dl (getitem dl uid i)) ->
  forall model,
  exists model',
    logImages_series forward observe getCt_shape0 model k dl series
    = Ok model'.
Proof.
  induction series as [|uid series IH]; intros H model;
    cbn [logImages_series].
  - eauto.
  - destruct (H uid (or_introl eq_refl)) as [H5 Hs].
    destruct (@range_step_ok (getCt_shape0 uid) (getCt_shape0 uid / 5))
      as (l & -> & Hl).
    { apply Nat.div_le_lower_bound; lia. }
    cbn [bind].
    destruct (@logImages_slices_ok k dl uid l) with (model := model)
      as (m1 & ->).
    { eapply Forall_impl; [|exact Hl]. intros i Hi. apply Hs, Hi. }
    cbn [bind]. apply IH. intros u Hu. apply H. right. exact Hu.
Qed.

Lemma In_insert_sorted (x y : string) (l : list string) :
  In x (insert_sorted y l) -> x = y \/ In x l.
Proof.
  induction l as [|z l IH]; cbn [insert_sorted].
  - intros [<-|[]]. left. reflexivity.
  - destruct (String.leb y z).
    + intros [<-|H]; [left; reflexivity|right; exact H].
    + intros [<-|H]; [right; left; reflexivity|].
      destruct (IH H) as [->|H']; [left; reflexivity|right; right; exact H'].
Qed.

Lemma In_sorted (x : string) (l : list string) : In x (sorted l) -> In x l.
Proof.
  induction l as [|y l IH]; cbn [sorted fold_right]; [intros []|].
  intros H. apply In_insert_sorted in H as [->|H];
    [left; reflexivity|right; apply IH, H].
Qed.

Lemma logImages_ok (dl : DataLoader) (model : params) (k : nat) :
  images_ok forward getCt_shape0 dl ->
  exists model',
    logImages forward observe getCt_shape0 model k dl = Ok model'.
Proof.
  intros H. unfold logImages. apply logImages_series_ok.
  intros uid Hu. apply H, In_sorted.
  rewrite <- (firstn_skipn 12 (sorted (series_list dl))).
  apply in_or_app. left. exact Hu.
Qed.

End Images.

Section MainValues.

Variable params : Type.
Variable forward : params -> tensor -> tensor.
Variable observe : params -> tensor -> params.
Variable sgd_step : params -> batch -> params.
Variable getCt_shape0 : string -> nat.
Variable train_dl : DataLoader.
Variable test_dl : DataLoader.

Lemma logMetrics_returns (b : tensor) (n : nat) :
  shape b METRICS_SIZE n -> all_finite b ->
  exists d s, logMetrics b = Ok (d, s).
Proof.
  intros Hs Hf. destruct (shape_rows Hs) as (r0 & r1 & r2 & r3 & r4 & r5 & r6
    & r7 & r8 & r9 & -> & _).
  apply all_finite_forallb in Hf.
  rewrite (logMetrics_rows _ _ _ _ _ _ _ _ _ _ Hf). cbv zeta. eauto.
Qed.

(** The evaluation pass and the reducer, one after the other. *)
Lemma evaluation_score (model : params) :
  1 <= batch_size test_dl ->
  Forall sample_ok (dataset test_dl) ->
  Forall sample_binary (dataset test_dl) ->
  shape_contract forward (dataset test_dl) ->
  value_contract forward (dataset test_dl) ->
  dataset test_dl <> [] ->
  exists (m : metrics) (d : metrics_dict) (q : Qc),
    doTesting forward model test_dl = Ok m /\
    logMetrics (data m) = Ok (d, Fin q) /\
    (Q2Qc (9889 # 10000) <= q)%Qc.
Proof.
  intros Hbs Hok Hbin Hct Hval Hne.
  destruct (@epoch_ok params forward (fun p _ => p) model test_dl Hbs Hok Hct)
    as (m & E & Hs & _).
  pose proof (@epoch_values params forward _ _ _ test_dl m Hbs Hbin Hval E) as Hm.
  assert (Hn : exists n, List.length (dataset test_dl) = S n).
  { destruct (dataset test_dl); [contradiction|eexists; reflexivity]. }
  destruct Hn as (n & Hn). rewrite Hn in Hs.
  destruct (@score_lower_bound (data m) n Hs) as (d & q & El & Hq);
    try (intros row Er; exact (Hm _ _ Er)).
  { apply buffer_ok_all_finite, Hm. }
  exists m, d, q. split; [|split; assumption].
  unfold doTesting. rewrite testing_loop_as_training, E. reflexivity.
Qed.

Lemma run_epoch_score_bound (self self1 : app params) (k : nat) (s : num) :
  1 <= batch_size test_dl ->
  Forall sample_ok (dataset test_dl) ->
  Forall sample_binary (dataset test_dl) ->
  shape_contract forward (dataset test_dl) ->
  value_contract forward (dataset test_dl) ->
  dataset test_dl <> [] ->
  run_epoch forward observe sgd_step getCt_shape0 train_dl test_dl self k
  = Ok (self1, s) ->
  exists q : Qc, s = Fin q /\ (Q2Qc (9889 # 10000) <= q)%Qc.
Proof.
  intros Hbs Hok Hbin Hct Hval Hne H.
  destruct (@run_epoch_score params forward observe sgd_step getCt_shape0 train_dl test_dl
              self self1 k s H) as (model1 & tst & d & Et & El).
  destruct (evaluation_score model1 Hbs Hok Hbin Hct Hval Hne)
    as (m & d' & q & Et' & El' & Hq).
  rewrite Et in Et'. injection Et' as <-. rewrite El in El'.
  injection El' as _ ->. eauto.
Qed.

Lemma run_epoch_ok (self : app params) (k : nat) :
  1 <= batch_size train_dl ->
  Forall sample_ok (dataset train_dl) ->
  Forall sample_binary (dataset train_dl) ->
  shape_contract forward (dataset train_dl) ->
  value_contract forward (dataset train_dl) ->
  images_ok forward getCt_shape0 train_dl ->
  1 <= batch_size test_dl ->
  Forall sample_ok (dataset test_dl) ->
  Forall sample_binary (dataset test_dl) ->
  shape_contract forward (dataset test_dl) ->
  value_contract forward (dataset test_dl) ->
  images_ok forward getCt_shape0 test_dl ->
  exists self1 s,
    run_epoch forward observe sgd_step getCt_shape0 train_dl test_dl self k
    = Ok (self1, s) /\ trn_writer self1 = true.
Proof.
  intros Hbs Hok Hbin Hct Hval Him Hbs' Hok' Hbin' Hct' Hval' Him'.
  unfold run_epoch, doTraining.
  destruct (@epoch_ok params forward sgd_step (model self) train_dl Hbs Hok Hct)
    as (trn & E & Hs & _).
  pose proof (@epoch_values params forward _ _ _ train_dl trn Hbs Hbin Hval E)
    as Hm.
  rewrite E. cbn [bind fst snd].
  destruct (logMetrics_returns Hs (buffer_ok_all_finite Hm)) as (d & s & ->).
  cbn [bind].
  set (model1 := fold_left sgd_step (batches train_dl) (model self)).
  destruct (@logImages_ok params forward observe getCt_shape0 train_dl
              model1 k Him) as (model2 & ->).
  cbn [bind].
  destruct (@logImages_ok params forward observe getCt_shape0 test_dl
              model2 k Him') as (model3 & ->).
  cbn [bind].
  destruct (@epoch_ok params forward (fun p _ => p) model3 test_dl
              Hbs' Hok' Hct') as (tst & E' & Hs' & _).
  pose proof (@epoch_values params forward _ _ _ test_dl tst Hbs' Hbin' Hval' E')
    as Hm'.
  unfold doTesting. rewrite testing_loop_as_training, E'. cbn [bind snd].
  destruct (logMetrics_returns Hs' (buffer_ok_all_finite Hm')) as (d' & s' & ->).
  cbn [bind]. eexists _, _. split; reflexivity.
Qed.

End MainValues.

Section LoopTotal.

Variable params : Type.
Variable run : app params -> nat -> result (app params * num).

Lemma main_loop_total :
  (forall self k, exists self1 s,
     run self k = Ok (self1, s) /\ trn_writer self1 = true) ->
  forall (n k : nat) (self : app params) (best : num) (hist0 : list epoch_log),
  exists self' : app params,
    snd (main_loop run n k self best hist0) = Finished self' /\
    (1 <= n -> trn_writer self' = true) /\
    (trn_writer self = true -> trn_writer self' = true) /\
    List.length (snd (fst (main_loop run n k self best hist0)))
    = List.length hist0 + n.
Proof.
  intros Hrun. induction n as [|n IH]; intros k self best hist0.
  - cbn. exists self. split; [reflexivity|]. split; [lia|]. split; [auto|lia].
  - cbn [main_loop]. destruct (Hrun self k) as (self1 & score & -> & Hw).
    destruct (IH (S k)
                (saveModel self1 "seg" k (eqb score (pymax score best)))
                (pymax score best)
                (hist0 ++ [EpochLog k score (eqb score (pymax score best))]))
      as (self' & E & _ & Hkeep & Hlen).
    exists self'. split; [exact E|].
    split; [intros _; apply Hkeep; exact Hw|].
    split; [intros _; apply Hkeep; exact Hw|].
    rewrite Hlen, length_app. cbn [List.length]. lia.
Qed.

Lemma last_best_first (e : epoch_log) (hist : list epoch_log) :
  e_isBest e = true -> exists j, last_best (e :: hist) = Some j.
Proof.
  intros He. cbn [last_best]. destruct (last_best hist); [eauto|].
  rewrite He. eauto.
Qed.

End LoopTotal.

(** X13.  In a run of [main] whose evaluation set is not empty and has
    binary masks of one shape, with a network that returns probabilities
    of the shape of the label: every epoch that completes has a finite
    score of at least 0.9889, the first one is promoted, and once an
    epoch has completed the ['best'] file exists. *)
Theorem main_first_epoch_promoted (params : Type)
    (forward : params -> tensor -> tensor)
    (observe : params -> tensor -> params)
    (sgd_step : params -> batch -> params) (getCt_shape0 : string -> nat)
    (train_dl test_dl : DataLoader)
    (self : app params) :
  1 <= batch_size test_dl ->
  Forall sample_ok (dataset test_dl) ->
  Forall sample_binary (dataset test_dl) ->
  shape_contract forward (dataset test_dl) ->
  value_contract forward (dataset test_dl) ->
  dataset test_dl <> [] ->
  let fs' := fst (fst (main forward observe sgd_step getCt_shape0 train_dl test_dl self)) in
  let hist := snd (fst (main forward observe sgd_step getCt_shape0 train_dl test_dl self)) in
  Forall (fun e => exists q : Qc, e_score e = Fin q /\
                                  (Q2Qc (9889 # 10000) <= q)%Qc) hist /\
  (forall e, nth_error hist 0 = Some e -> e_isBest e = true) /\
  (hist <> [] ->
   exists ck, read_file fs' (state_path self "seg" "best") = Some ck).
Proof.
  intros Hbs Hok Hbin Hct Hval Hne. cbv zeta. rewrite ?main_hist, ?main_files.
  set (run := run_epoch forward observe sgd_step getCt_shape0 train_dl test_dl).
  assert (Hsc : Forall (fun e => exists q : Qc, e_score e = Fin q /\
                                   (Q2Qc (9889 # 10000) <= q)%Qc)
                  (snd (fst (main_loop run (epochs (cli self)) 1 self
                               (of_Z 0) [])))).
  { apply main_loop_scores
      with (P := fun s => exists q : Qc, s = Fin q /\
                                         (Q2Qc (9889 # 10000) <= q)%Qc);
      [|constructor].
    intros a k a1 s H.
    exact (@run_epoch_score_bound params forward observe sgd_step getCt_shape0 train_dl test_dl
             a a1 k s Hbs Hok Hbin Hct Hval Hne H). }
  destruct (main_loop_files
              (@run_epoch_keeps_files params forward observe sgd_step getCt_shape0 train_dl test_dl)
              (epochs (cli self)) 1 self (of_Z 0) [])
    as (new' & E' & Hfile).
  destruct (main_loop_hist run (epochs (cli self)) 1 self (of_Z 0) [])
    as (new & E & Hnew).
  fold run in E', Hfile. cbv zeta in Hfile.
  cbn [List.app] in E, E'. rewrite E in *. subst new'.
  assert (Hfirst : forall e, nth_error new 0 = Some e -> e_isBest e = true).
  { intros e He. destruct new as [|e0 rest]; [discriminate|].
    injection He as ->.
    destruct (Hnew [] e rest eq_refl) as [_ Hb]. rewrite Hb.
    inversion Hsc as [|? ? (q & Eq & Hq) _]; subst. rewrite Eq.
    cbn [best_after fold_left]. apply isBest_Fin. qc_lra. }
  split; [exact Hsc|]. split; [exact Hfirst|].
  intros Hnonempty. destruct new as [|e0 rest]; [contradiction|].
  destruct (@last_best_first e0 rest (Hfirst e0 eq_refl)) as (j & Ej).
  rewrite Ej in Hfile. destruct Hfile as (i & sj & hj & _ & _ & _ & Hck).
  eauto.
Qed.

(** X14.  A run of [main] for at least one epoch, whose training and
    evaluation sets have binary masks of one shape, with batch sizes of
    at least 1, a network that returns probabilities of the shape of the
    label, series of at least five slices, and slices that are 512 by
    512 in every channel, mask and prediction, raises none of the
    exceptions of the harness: it finishes, and it logs as many epochs as
    the command line asks for. *)
Theorem main_finishes (params : Type)
    (forward : params -> tensor -> tensor)
    (observe : params -> tensor -> params)
    (sgd_step : params -> batch -> params) (getCt_shape0 : string -> nat)
    (train_dl test_dl : DataLoader)
    (self : app params) :
  1 <= epochs (cli self) ->
  1 <= batch_size train_dl ->
  Forall sample_ok (dataset train_dl) ->
  Forall sample_binary (dataset train_dl) ->
  shape_contract forward (dataset train_dl) ->
  value_contract forward (dataset train_dl) ->
  images_ok forward getCt_shape0 train_dl ->
  1 <= batch_size test_dl ->
  Forall sample_ok (dataset test_dl) ->
  Forall sample_binary (dataset test_dl) ->
  shape_contract forward (dataset test_dl) ->
  value_contract forward (dataset test_dl) ->
  images_ok forward getCt_shape0 test_dl ->
  (exists self' : app params,
     snd (main forward observe sgd_step getCt_shape0 train_dl test_dl self)
     = Finished self') /\
  List.length (snd (fst (main forward observe sgd_step getCt_shape0 train_dl test_dl self)))
  = epochs (cli self).
Proof.
  intros Hep Hbs Hok Hbin Hct Hval Him Hbs' Hok' Hbin' Hct' Hval' Him'.
  rewrite main_hist. unfold main.
  destruct (@main_loop_total params
              (run_epoch forward observe sgd_step getCt_shape0 train_dl test_dl))
    with (n := epochs (cli self)) (k := 1) (self := self) (best := of_Z 0)
         (hist0 := @nil epoch_log)
    as (self' & E & Hw & _ & Hlen).
  { intros a k.
    exact (@run_epoch_ok params forward observe sgd_step getCt_shape0
             train_dl test_dl a k
             Hbs Hok Hbin Hct Hval Him Hbs' Hok' Hbin' Hct' Hval' Him'). }
  destruct (main_loop _ _ _ _ _ _) as [[fs hist] out].
  cbn [fst snd] in *. subst out. rewrite (Hw Hep).
  split; [exists self'; reflexivity|exact Hlen].
Qed.

Lemma main_first_epoch_promoted_witness :
  Forall (fun e => exists q : Qc, e_score e = Fin q /\
                                  (Q2Qc (9889 # 10000) <= q)%Qc)
         (snd (fst scenario_A_main)) /\
  (forall e, nth_error (snd (fst scenario_A_main)) 0 = Some e ->
             e_isBest e = true) /\
  (snd (fst scenario_A_main) <> [] ->
   exists ck, read_file (fst (fst scenario_A_main))
                        (state_path scenario_A_app "seg" "best") = Some ck).
Proof.
  apply (@main_first_epoch_promoted unit predict_zero (fun p _ => p)
           (fun p _ => p) (fun _ => 0)
           scenario_A_dl scenario_A_dl scenario_A_app).
  - cbn. lia.
  - exact scenario_A_samples_ok.
  - exact scenario_A_binary.
  - exact predict_zero_contract.
  - exact predict_zero_values.
  - discriminate.
Defined.

Lemma length_concat_uniform (n : nat) (l : list vec) :
  Forall (fun channel => List.length channel = n) l ->
  List.length (List.concat l) = n * List.length l.
Proof.
  induction 1 as [|channel l Hc _ IH]; cbn [List.concat List.length]; [lia|].
  rewrite length_app, Hc, IH. lia.
Qed.

Lemma first_channel_image (n : nat) (ct : list vec) (model : nat) :
  List.length ct = 8 ->
  Forall (fun channel => List.length channel = n) ct ->
  exists prediction rest,
    first_channel model [List.concat (scale_ct ct)] = prediction :: rest /\
    List.length prediction = n.
Proof.
  intros H8 Hn.
  assert (L : List.length (List.concat (scale_ct ct)) = n * 8).
  { rewrite (length_concat_uniform (scale_ct_channels Hn)), scale_ct_length, H8.
    reflexivity. }
  unfold first_channel. destruct (Nat.leb model 2); cbn [map];
    eexists _, _; (split; [reflexivity|]); rewrite L, Nat.div_mul by lia.
  - rewrite length_firstn, L. nia.
  - apply repeat_length.
Qed.

Lemma scenario_C_images_ok :
  images_ok first_channel (fun _ => 5) scenario_C_series_dl.
Proof.
  intros uid _. split; [lia|]. intros i _. split; [reflexivity|].
  unfold scenario_C_series_dl, blank_slice, blank_image, slice_ok.
  cbn [getitem contextSlices_count ct_tensor nodule_tensor slice_ben_tensor
       slice_mal_tensor].
  assert (Hch : Forall (fun channel : vec => List.length channel = 512 * 512)
                  (repeat (repeat zero (512 * 512)) 8)).
  { apply Forall_forall. intros channel Hc. apply repeat_spec in Hc.
    subst channel. apply repeat_length. }
  split; [rewrite repeat_length; lia|].
  split; [exact Hch|].
  split; [eexists _, _; split; [reflexivity|apply repeat_length]|].
  split; [apply repeat_length|]. split; [apply repeat_length|].
  intros model. apply first_channel_image; [apply repeat_length|exact Hch].
Qed.

Lemma main_finishes_witness :
  (exists self' : app nat, snd scenario_C_series_main = Finished self') /\
  List.length (snd (fst scenario_C_series_main)) = 2.
Proof.
  apply (@main_finishes nat first_channel (fun p _ => p) (fun p _ => S p)
           (fun _ => 5) scenario_C_series_dl scenario_C_series_dl
           scenario_C_app).
  - cbn. lia.
  - cbn. lia.
  - exact scenario_C_samples_ok.
  - exact scenario_C_binary.
  - exact first_channel_contract.
  - exact first_channel_values.
  - exact scenario_C_images_ok.
  - cbn. lia.
  - exact scenario_C_samples_ok.
  - exact scenario_C_binary.
  - exact first_channel_contract.
  - exact first_channel_values.
  - exact scenario_C_images_ok.
Defined.

(** ** The label row *)

Section LabelRow.

Variable params : Type.
Variable forward : params -> tensor -> tensor.

Lemma assign_inv_data (m m' : metrics) (ndx start stop : nat) (vals : vec) :
  assign m ndx start stop vals = Ok m' ->
  exists row row',
    nth_error (data m) ndx = Some row /\
    set_slice row start stop vals = Ok row' /\
    data m' = firstn ndx (data m) ++ row' :: skipn (S ndx) (data m).
Proof.
  unfold assign. intros H.
  destruct (nth_error (data m) ndx) as [row|] eqn:Erow; [|discriminate].
  destruct (set_slice row start stop vals) as [row'|] eqn:Es;
    cbn [bind] in H; [|discriminate].
  injection H as <-. exists row, row'. auto.
Qed.

Lemma assign_other (m m' : metrics) (ndx start stop r : nat) (vals : vec) :
  assign m ndx start stop vals = Ok m' -> r <> ndx ->
  nth_error (data m') r = nth_error (data m) r.
Proof.
  intros H Hr. destruct (@assign_inv_data _ _ _ _ _ _ H) as (row & row' & E & _ & ->).
  assert (Hn : ndx < List.length (data m)).
  { apply nth_error_Some. rewrite E. discriminate. }
  rewrite (nth_error_replace _ _ _ Hn).
  destruct (Nat.eqb_spec r ndx); [contradiction|reflexivity].
Qed.

Lemma assign_row (m m' : metrics) (ndx start stop : nat) (vals row : vec) :
  assign m ndx start stop vals = Ok m' ->
  nth_error (data m) ndx = Some row ->
  stop = start + List.length vals -> stop <= List.length row ->
  nth_error (data m') ndx = Some (firstn start row ++ vals ++ skipn stop row).
Proof.
  intros H Erow Hstop Hle.
  destruct (@assign_inv_data _ _ _ _ _ _ H) as (row0 & row' & E & Es & ->).
  rewrite Erow in E. injection E as <-.
  rewrite set_slice_ok in Es; [|exact Hstop|exact Hle]. injection Es as <-.
  assert (Hn : ndx < List.length (data m)).
  { apply nth_error_Some. rewrite Erow. discriminate. }
  rewrite (nth_error_replace _ _ _ Hn), Nat.eqb_refl. reflexivity.
Qed.

Lemma computeBatchLoss_label_row (model : params) (batch_ndx batch_size : nat)
    (ss : list sample) (m m' : metrics) (loss : num) (row : vec) :
  computeBatchLoss forward model batch_ndx (collate ss) batch_size m
  = Ok (m', loss) ->
  nth_error (data m) METRICS_LABEL_NDX = Some row ->
  batch_ndx * batch_size + List.length ss <= List.length row ->
  nth_error (data m') METRICS_LABEL_NDX
  = Some (firstn (batch_ndx * batch_size) row
            ++ map of_Z (map s_label ss)
            ++ skipn (batch_ndx * batch_size + List.length ss) row).
Proof.
  intros H Erow Hfit.
  unfold computeBatchLoss in H.
  cbn [collate label_tensor mal_tensor ben_tensor label_list input_tensor] in H.
  cbv zeta in H. rewrite length_map in H.
  bind_inv H dl Edl.
  bind_inv H m1 E1. bind_inv H m2 E2.
  bind_inv H tp Etp. bind_inv H fn Efn. bind_inv H fp Efp.
  bind_inv H m3 E3. bind_inv H m4 E4. bind_inv H m5 E5.
  bind_inv H MP EMP.
  bind_inv H mtp Emtp. bind_inv H mfn Emfn. bind_inv H mfp Emfp.
  bind_inv H ls Els.
  bind_inv H m6 E6. bind_inv H m7 E7. bind_inv H m8 E8.
  injection H as <- _.
  rewrite (@assign_other _ _ _ _ _ METRICS_LABEL_NDX _ E8), (@assign_other _ _ _ _ _ METRICS_LABEL_NDX _ E7),
    (@assign_other _ _ _ _ _ METRICS_LABEL_NDX _ E6), (@assign_other _ _ _ _ _ METRICS_LABEL_NDX _ E5),
    (@assign_other _ _ _ _ _ METRICS_LABEL_NDX _ E4), (@assign_other _ _ _ _ _ METRICS_LABEL_NDX _ E3),
    (@assign_other _ _ _ _ _ METRICS_LABEL_NDX _ E2) by discriminate.
  apply (@assign_row _ _ _ _ _ _ _ E1 Erow);
    [rewrite !length_map; reflexivity|exact Hfit].
Qed.

Lemma skipn_repeat (A : Type) (x : A) (j z : nat) :
  skipn j (repeat x z) = repeat x (z - j).
Proof.
  revert j. induction z as [|z IH]; intros [|j]; cbn; auto.
Qed.

Lemma firstn_pre (A : Type) (pre rest : list A) :
  firstn (List.length pre) (pre ++ rest) = pre.
Proof.
  rewrite firstn_app, Nat.sub_diag, firstn_all. cbn. apply app_nil_r.
Qed.

Lemma skipn_pre (A : Type) (x : A) (pre : list A) (j z : nat) :
  skipn (List.length pre + j) (pre ++ repeat x z) = repeat x (z - j).
Proof.
  rewrite skipn_app, skipn_all2 by lia.
  replace (List.length pre + j - List.length pre) with j by lia.
  apply skipn_repeat.
Qed.

(** The label row during an epoch: the labels of the batches done so
    far, in order, then zeros. *)
Lemma training_loop_label_row (sgd_step : params -> batch -> params)
    (batch_size : nat) (bl : list (list sample)) :
  chunked batch_size bl ->
  forall (k z : nat) (model model' : params) (m m' : metrics) (pre : vec),
  training_loop forward sgd_step model batch_size
    (enumerate_from k (map collate bl)) m = Ok (model', m') ->
  nth_error (data m) METRICS_LABEL_NDX = Some (pre ++ repeat zero z) ->
  List.length pre = k * batch_size ->
  total_length bl <= z ->
  nth_error (data m') METRICS_LABEL_NDX
  = Some (pre ++ map of_Z (map s_label (List.concat bl))
              ++ repeat zero (z - total_length bl)).
Proof.
  induction 1 as [|b H1 H2|b bl Hb Hc IH];
    intros k z model model' m m' pre H Erow Hpre Hz.
  - cbn in H. injection H as _ <-. rewrite Erow. cbn.
    rewrite Nat.sub_0_r. reflexivity.
  - cbn [map enumerate_from training_loop] in H.
    destruct (computeBatchLoss forward model k (collate b) batch_size m)
      as [[m1 loss]|] eqn:E; cbn [bind fst] in H; [|discriminate].
    injection H as _ <-. rewrite total_length_cons in Hz.
    rewrite (@computeBatchLoss_label_row _ _ _ _ _ _ _ _ E Erow)
      by (rewrite length_app, repeat_length; unfold total_length in Hz; lia).
    rewrite <- Hpre, firstn_pre, skipn_pre.
    cbn [List.concat]. rewrite app_nil_r, total_length_cons.
    unfold total_length. cbn [List.concat List.length].
    rewrite Nat.add_0_r. reflexivity.
  - cbn [map enumerate_from training_loop] in H.
    destruct (computeBatchLoss forward model k (collate b) batch_size m)
      as [[m1 loss]|] eqn:E; cbn [bind fst] in H; [|discriminate].
    rewrite total_length_cons in Hz.
    pose proof (@computeBatchLoss_label_row _ _ _ _ _ _ _ _ E Erow) as Hrow1.
    rewrite <- Hpre, firstn_pre, skipn_pre in Hrow1
      by (rewrite length_app, repeat_length; lia).
    specialize (Hrow1 ltac:(rewrite length_app, repeat_length; lia)).
    rewrite app_assoc in Hrow1.
    rewrite (IH (S k) (z - List.length b) _ _ _ _
               (pre ++ map of_Z (map s_label b)) H Hrow1).
    + cbn [List.concat]. rewrite !map_app, total_length_cons, <- !app_assoc.
      replace (z - List.length b - total_length bl)
        with (z - (List.length b + total_length bl)) by lia.
      reflexivity.
    + rewrite length_app, !length_map. cbn [Nat.mul]. lia.
    + lia.
Qed.

End LabelRow.

(** X15.  In the buffer an evaluation pass returns, the label row holds
    the labels of the data set, sample by sample in the order of the
    data set: column [c] belongs to the [c]-th sample, whatever the
    batch size. *)
Theorem doTesting_label_row (params : Type)
    (forward : params -> tensor -> tensor) (model : params) (dl : DataLoader) :
  1 <= batch_size dl ->
  Forall sample_ok (dataset dl) ->
  shape_contract forward (dataset dl) ->
  exists m : metrics,
    doTesting forward model dl = Ok m /\
    nth_error (data m) METRICS_LABEL_NDX
    = Some (map of_Z (map s_label (dataset dl))).
Proof.
  intros Hbs Hok Hct.
  destruct (@epoch_ok params forward (fun p _ => p) model dl Hbs Hok Hct)
    as (m & E & _).
  exists m. split.
  { unfold doTesting. rewrite testing_loop_as_training, E. reflexivity. }
  destruct (batches_facts dl Hbs) as (Hc & Htot & _).
  destruct (@batch_sampler_spec sample (batch_size dl) [] (dataset dl))
    as [_ Hcat]; [cbn [List.length]; lia|].
  cbn [List.app] in Hcat.
  unfold enumerateWithEstimate, batches in E.
  rewrite (@training_loop_label_row params forward (fun p _ => p)
             (batch_size dl) _ Hc 0 (List.length (dataset dl)) _ _ _ _ [] E).
  - rewrite Hcat, Htot, Nat.sub_diag. cbn [repeat List.app].
    rewrite app_nil_r. reflexivity.
  - cbn [data List.app]. apply zeros_row. unfold METRICS_SIZE, METRICS_LABEL_NDX.
    lia.
  - reflexivity.
  - lia.
Qed.

Lemma doTesting_label_row_witness :
  exists m : metrics,
    doTesting first_channel 0 scenario_C_dl = Ok m /\
    nth_error (data m) METRICS_LABEL_NDX = Some [of_Z 3; of_Z 2; of_Z 0].
Proof.
  apply (@doTesting_label_row nat first_channel 0 scenario_C_dl).
  - cbn. lia.
  - exact scenario_C_samples_ok.
  - exact first_channel_contract.
Defined.

(** ** More on the reducer and the loss *)

(** X16.  Whenever the reducer returns with finite ATP and AFN totals
    whose sum is not 0, 'correct/all' is the recall times 100; when both
    totals are 0 the recall is 0 and 'correct/all' is NaN. *)
Theorem correct_all_recall (metrics_ary : tensor) (d : metrics_dict) (s : num)
    (a n : Qc) :
  logMetrics metrics_ary = Ok (d, s) ->
  total metrics_ary METRICS_ATP_NDX = Ok (Fin a) ->
  total metrics_ary METRICS_AFN_NDX = Ok (Fin n) ->
  ((a + n)%Qc <> 0%Qc -> correct_all d = (pr_recall d * of_Z 100)%num) /\
  ((a + n)%Qc = 0%Qc -> a = 0%Qc ->
   pr_recall d = zero /\ correct_all d = NaN).
Proof.
  intros H Ha Hn.
  destruct (logMetrics_inv _ H)
    as (a' & n' & p & lr & mr & Ea & En & Ep & _ & _ & _ & Hre & _ & Hca & _).
  assert (a' = Fin a) by congruence. assert (n' = Fin n) by congruence.
  subst a' n'. cbn [add] in Hre, Hca. split.
  - intros Hne. rewrite Hca, Hre, (por_nonzero _ Hne). reflexivity.
  - intros Hz Ha0. subst a. rewrite Hz in Hre, Hca. split.
    + rewrite Hre. apply same_true_eq. reflexivity.
    + rewrite Hca. reflexivity.
Qed.

Lemma correct_all_recall_witness :
  exists (d : metrics_dict) (s : num),
    logMetrics scenario_B_metrics = Ok (d, s) /\
    correct_all d = (pr_recall d * of_Z 100)%num.
Proof.
  destruct (logMetrics scenario_B_metrics) as [[d s]|e] eqn:H;
    [|vm_compute in H; discriminate].
  exists d, s. split; [reflexivity|].
  apply (@correct_all_recall scenario_B_metrics d s
           (qz 3 + (qz 5 + qz 0))%Qc (qz 0 + (qz 0 + qz 0))%Qc H);
    [reflexivity|reflexivity|].
  intros E. apply (f_equal this) in E. vm_compute in E. discriminate.
Defined.

Section DiceMore.

Lemma dice_of_sample_sym (l p : vec) (epsilon : num) :
  dice_of_sample l p epsilon = dice_of_sample p l epsilon.
Proof.
  unfold dice_of_sample, overlap, predSum, labelSum.
  rewrite (zipw_mul_comm l p), (add_comm (sum p) (sum l)). reflexivity.
Qed.

Lemma combine_swap_map (B : Type) (f : list num -> list num -> B)
    (a b : tensor) :
  (forall x y, f x y = f y x) ->
  map (fun lp => f (fst lp) (snd lp)) (combine a b)
  = map (fun lp => f (fst lp) (snd lp)) (combine b a).
Proof.
  intros Hf. revert b. induction a as [|x a IH]; intros [|y b]; cbn; auto.
  rewrite IH, (Hf x y). reflexivity.
Qed.

End DiceMore.

(** X17.  The dice loss is symmetric: for tensors of one shape, swapping
    label and prediction does not change any per-sample loss. *)
Theorem diceLoss_symmetric (label prediction : tensor) (epsilon : num) :
  same_shape label prediction ->
  diceLoss label prediction epsilon = diceLoss prediction label epsilon.
Proof.
  intros Hs. rewrite (diceLoss_samples _ Hs).
  rewrite (diceLoss_samples _ (same_shape_sym Hs)). f_equal.
  apply (@combine_swap_map num (fun l p => dice_of_sample l p epsilon)).
  intros x y. apply dice_of_sample_sym.
Qed.

Lemma diceLoss_symmetric_witness :
  diceLoss [[one; zero]; [zero; zero]] [[lit 1 2; lit 1 4]; [zero; one]]
           default_epsilon
  = diceLoss [[lit 1 2; lit 1 4]; [zero; one]] [[one; zero]; [zero; zero]]
             default_epsilon.
Proof.
  apply (@diceLoss_symmetric [[one; zero]; [zero; zero]]
           [[lit 1 2; lit 1 4]; [zero; one]] default_epsilon).
  repeat constructor.
Defined.

Section ShapeKept.

Variable params : Type.
Variable forward : params -> tensor -> tensor.

Lemma set_slice_inv_length (row row' vals : vec) (start stop : nat) :
  set_slice row start stop vals = Ok row' ->
  List.length row' = List.length row.
Proof.
  unfold set_slice. intros H.
  destruct (Nat.eqb_spec (List.length vals)
              (Nat.max (Nat.min start (List.length row))
                       (Nat.min stop (List.length row))
               - Nat.min start (List.length row))) as [E|_]; [|discriminate].
  injection H as <-. rewrite !length_app, length_firstn, length_skipn. lia.
Qed.

Lemma assign_shape (m m' : metrics) (rows cols ndx start stop : nat)
    (vals : vec) :
  assign m ndx start stop vals = Ok m' ->
  shape (data m) rows cols -> shape (data m') rows cols.
Proof.
  intros H [Hlen Hall].
  destruct (@assign_inv_data _ _ _ _ _ _ H) as (row & row' & E & Es & ->).
  assert (Hn : ndx < List.length (data m)).
  { apply nth_error_Some. rewrite E. discriminate. }
  split.
  - rewrite length_app, length_firstn. cbn [List.length].
    rewrite length_skipn. lia.
  - apply Forall_forall. intros r Hr. apply In_nth_error in Hr as (i & Ei).
    rewrite (nth_error_replace _ _ _ Hn) in Ei.
    rewrite Forall_forall in Hall. destruct (Nat.eqb i ndx).
    + injection Ei as <-. rewrite (set_slice_inv_length _ _ _ _ Es).
      apply Hall. eapply nth_error_In, E.
    + apply Hall. eapply nth_error_In, Ei.
Qed.

Lemma computeBatchLoss_shape (model : params) (batch_ndx batch_size : nat)
    (b : batch) (m m' : metrics) (loss : num) (rows cols : nat) :
  computeBatchLoss forward model batch_ndx b batch_size m = Ok (m', loss) ->
  shape (data m) rows cols -> shape (data m') rows cols.
Proof.
  intros H Hs. unfold computeBatchLoss in H. cbv zeta in H.
  bind_inv H dl Edl.
  bind_inv H m1 E1. bind_inv H m2 E2.
  bind_inv H tp Etp. bind_inv H fn Efn. bind_inv H fp Efp.
  bind_inv H m3 E3. bind_inv H m4 E4. bind_inv H m5 E5.
  bind_inv H MP EMP.
  bind_inv H mtp Emtp. bind_inv H mfn Emfn. bind_inv H mfp Emfp.
  bind_inv H ls Els.
  bind_inv H m6 E6. bind_inv H m7 E7. bind_inv H m8 E8.
  injection H as <- _.
  apply (@assign_shape _ _ _ _ _ _ _ _ E8), (@assign_shape _ _ _ _ _ _ _ _ E7),
    (@assign_shape _ _ _ _ _ _ _ _ E6), (@assign_shape _ _ _ _ _ _ _ _ E5),
    (@assign_shape _ _ _ _ _ _ _ _ E4), (@assign_shape _ _ _ _ _ _ _ _ E3),
    (@assign_shape _ _ _ _ _ _ _ _ E2), (@assign_shape _ _ _ _ _ _ _ _ E1), Hs.
Qed.

Lemma training_loop_shape (sgd_step : params -> batch -> params)
    (batch_size rows cols : nat) (batch_iter : list (nat * batch)) :
  forall (model model' : params) (m m' : metrics),
  training_loop forward sgd_step model batch_size batch_iter m
  = Ok (model', m') ->
  shape (data m) rows cols -> shape (data m') rows cols.
Proof.
  induction batch_iter as [|[k b] rest IH]; intros model model' m m' H Hs.
  - cbn in H. injection H as _ <-. exact Hs.
  - cbn [training_loop] in H.
    destruct (computeBatchLoss forward model k b batch_size m)
      as [[m1 loss]|] eqn:E; cbn [bind fst] in H; [|discriminate].
    eapply IH; [exact H|]. eapply computeBatchLoss_shape; eassumption.
Qed.

End ShapeKept.

(** X18.  Whenever a training pass returns, for any data, batch size
    and network, its buffer has [METRICS_SIZE] rows and one column per
    sample of the data set, and the sample counter has advanced by the
    size of the data set; whenever an evaluation pass returns, its buffer
    has that shape too. *)
Theorem epoch_buffer_shape (params : Type)
    (forward : params -> tensor -> tensor)
    (sgd_step : params -> batch -> params) (model model' : params)
    (count count' : nat) (dl : DataLoader) (m : metrics) :
  (doTraining forward sgd_step model count dl = Ok (model', count', m) ->
   shape (data m) METRICS_SIZE (List.length (dataset dl)) /\
   count' = count + List.length (dataset dl)) /\
  (doTesting forward model dl = Ok m ->
   shape (data m) METRICS_SIZE (List.length (dataset dl))).
Proof.
  split.
  - unfold doTraining. intros H.
    destruct (training_loop forward sgd_step model (batch_size dl)
                (enumerateWithEstimate (batches dl) (num_workers dl))
                (Metrics (zeros METRICS_SIZE (List.length (dataset dl))) []))
      as [[model1 m1]|] eqn:E; cbn [bind fst snd] in H; [|discriminate].
    pose proof (training_loop_shape _ _ _ _ _ _ E
                  (zeros_shape METRICS_SIZE (List.length (dataset dl)))) as Hs.
    injection H as _ Hc <-. split; [exact Hs|]. subst count'.
    destruct Hs as [Hlen Hrows]. unfold METRICS_SIZE in Hlen.
    destruct (data m1) as [|row rest]; [discriminate|].
    inversion Hrows as [|? ? Hrow _]; subst. rewrite Hrow. reflexivity.
  - unfold doTesting. rewrite testing_loop_as_training. intros H.
    destruct (training_loop forward (fun p _ => p) model (batch_size dl)
                (enumerateWithEstimate (batches dl) (num_workers dl))
                (Metrics (zeros METRICS_SIZE (List.length (dataset dl))) []))
      as [[model1 m1]|] eqn:E; cbn [bind snd] in H; [|discriminate].
    injection H as <-.
    apply (training_loop_shape _ _ _ _ _ _ E
             (zeros_shape METRICS_SIZE (List.length (dataset dl)))).
Qed.

Lemma epoch_buffer_shape_witness :
  exists (model' : unit) (count' : nat) (m : metrics),
    doTraining predict_zero (fun p _ => p) tt 100 scenario_A_dl
    = Ok (model', count', m) /\
    shape (data m) METRICS_SIZE 4 /\ count' = 100 + 4.
Proof.
  destruct (doTraining predict_zero (fun p _ => p) tt 100 scenario_A_dl)
    as [[[model' count'] m]|e] eqn:H; [|vm_compute in H; discriminate].
  exists model', count', m. split; [reflexivity|].
  apply (proj1 (@epoch_buffer_shape unit predict_zero (fun p _ => p) tt model'
                  100 count' scenario_A_dl m)).
  exact H.
Defined.

(** ** The files of the epochs *)

Section CountPaths.
Local Open Scope string_scope.

Lemma string_length_app (a b : string) :
  String.length (a ++ b) = String.length a + String.length b.
Proof. induction a as [|c a IH]; cbn; [reflexivity|rewrite IH; reflexivity]. Qed.

Lemma string_app_inj_r (a b s : string) : a ++ s = b ++ s -> a = b.
Proof.
  revert b. induction a as [|c a IH]; intros [|c' b] H; cbn in H.
  - reflexivity.
  - apply (f_equal String.length) in H. cbn in H.
    rewrite string_length_app in H. lia.
  - apply (f_equal String.length) in H. cbn in H.
    rewrite string_length_app in H. lia.
  - injection H as -> H. f_equal. apply IH, H.
Qed.

Lemma string_of_uint_inj (d d' : Decimal.uint) :
  NilEmpty.string_of_uint d = NilEmpty.string_of_uint d' -> d = d'.
Proof.
  intros H. apply (f_equal NilEmpty.uint_of_string) in H.
  rewrite !NilEmpty.usu in H. injection H as ->. reflexivity.
Qed.

Lemma format_nat_inj (a b : nat) : format_nat a = format_nat b -> a = b.
Proof.
  unfold format_nat. intros H.
  apply DecimalNat.Unsigned.to_uint_inj, string_of_uint_inj, H.
Qed.

Variable params : Type.

(** Different sample counts name different files. *)
Lemma state_path_inj (self : app params) (type_str : string) (a b : nat) :
  state_path self type_str (format_nat a)
  = state_path self type_str (format_nat b) -> a = b.
Proof.
  destruct (state_path_shape self type_str) as (pre & E).
  rewrite !E. intros H.
  apply string_app_inj_l, string_app_inj_r in H. apply format_nat_inj, H.
Qed.

End CountPaths.

Section EpochFiles.

Variable params : Type.

Lemma saveModel_count_file (self : app params) (type_str : string)
    (epoch_ndx : nat) (isBest : bool) :
  read_file (files (saveModel self type_str epoch_ndx isBest))
    (state_path self type_str (format_nat (totalTrainingSamples_count self)))
  = Some (Checkpoint (model self) "UNetWrapper" "SGD" epoch_ndx
                     (totalTrainingSamples_count self)).
Proof.
  unfold saveModel. cbn [files]. destruct isBest.
  - rewrite read_file_save_other; [apply read_file_save_same|].
    intros E. symmetry in E. revert E. apply state_path_not_best.
  - apply read_file_save_same.
Qed.

Lemma saveModel_other_count (self : app params) (type_str : string)
    (epoch_ndx c : nat) (isBest : bool) :
  c <> totalTrainingSamples_count self ->
  read_file (files (saveModel self type_str epoch_ndx isBest))
    (state_path self type_str (format_nat c))
  = read_file (files self) (state_path self type_str (format_nat c)).
Proof.
  intros Hc. unfold saveModel. cbn [files].
  assert (H1 : state_path self type_str
                 (format_nat (totalTrainingSamples_count self))
               <> state_path self type_str (format_nat c)).
  { intros E. apply state_path_inj in E. congruence. }
  assert (H2 : state_path self type_str "best"
               <> state_path self type_str (format_nat c)).
  { intros E. symmetry in E. revert E. apply state_path_not_best. }
  destruct isBest; rewrite ?read_file_save_other by assumption; reflexivity.
Qed.

Variable run : app params -> nat -> result (app params * num).
Variable n : nat.
Hypothesis Hkeep : keeps_files run.
Hypothesis Hcount : counts_samples run n.
Hypothesis Hn : 1 <= n.

(** Every epoch of the loop leaves a file of its own, named by the
    sample count it reached, and later epochs do not touch it. *)
Lemma main_loop_epoch_files (N k : nat) (self : app params) (best : num)
    (hist0 : list epoch_log) :
  let fs' := fst (fst (main_loop run N k self best hist0)) in
  (forall c, c <= totalTrainingSamples_count self ->
     read_file fs' (state_path self "seg" (format_nat c))
     = read_file (files self) (state_path self "seg" (format_nat c))) /\
  exists new : list epoch_log,
    snd (fst (main_loop run N k self best hist0)) = hist0 ++ new /\
    forall h1 e h2, new = h1 ++ e :: h2 ->
      exists ck,
        read_file fs'
          (state_path self "seg"
             (format_nat (totalTrainingSamples_count self
                          + S (List.length h1) * n)))
        = Some ck /\
        epoch ck = e_ndx e /\
        ck_totalTrainingSamples_count ck
        = totalTrainingSamples_count self + S (List.length h1) * n.
Proof.
  cbv zeta. revert k self best hist0.
  induction N as [|N IH]; intros k self best hist0.
  - cbn. split; [reflexivity|]. exists []. rewrite app_nil_r.
    split; [reflexivity|]. intros [|x h1] e h2 H; discriminate.
  - cbn [main_loop]. destruct (run self k) as [[self1 score]|err] eqn:E.
    + destruct (Hkeep E) as (Hf & Hc & Ht).
      pose proof (Hcount E) as Hcnt.
      set (isBest := eqb score (pymax score best)).
      set (self2 := saveModel self1 "seg" k isBest).
      destruct (IH (S k) self2 (pymax score best)
                  (hist0 ++ [EpochLog k score isBest]))
        as (HA & new & En & HB).
      assert (Hp : forall tail,
                 state_path self2 "seg" tail = state_path self "seg" tail).
      { intros tail. apply state_path_ext; cbn; assumption. }
      assert (Hp1 : forall tail,
                 state_path self1 "seg" tail = state_path self "seg" tail).
      { intros tail. apply state_path_ext; assumption. }
      assert (Hc2 : totalTrainingSamples_count self2
                    = totalTrainingSamples_count self + n) by exact Hcnt.
      split.
      * intros c Hle. rewrite <- Hp, HA, Hp by lia.
        unfold self2. rewrite <- Hp1, saveModel_other_count by lia.
        rewrite Hf. reflexivity.
      * exists (EpochLog k score isBest :: new).
        split; [rewrite En, <- app_assoc; reflexivity|].
        intros [|e0 h1] e h2 H; injection H as H1 H2; subst.
        -- cbn [List.length Nat.mul]. rewrite Nat.add_0_r.
           rewrite <- Hc2, <- Hp, HA by lia.
           rewrite Hp, <- Hp1.
           change (totalTrainingSamples_count self2)
             with (totalTrainingSamples_count self1).
           unfold self2. rewrite saveModel_count_file.
           eexists. split; [reflexivity|]. cbn. split; [reflexivity|lia].
        -- destruct (HB h1 e h2 eq_refl) as (ck & Hck & He & Ht').
           exists ck. rewrite Hp, Hc2 in Hck. rewrite Hc2 in Ht'.
           cbn [List.length].
           replace (totalTrainingSamples_count self
                    + S (S (List.length h1)) * n)
             with (totalTrainingSamples_count self + n
                   + S (List.length h1) * n) by (cbn [Nat.mul]; lia).
           auto.
    + cbn. split; [reflexivity|]. exists []. rewrite app_nil_r.
      split; [reflexivity|]. intros [|x h1] e h2 H; discriminate.
Qed.

End EpochFiles.

Section RunCounts.

Variable params : Type.
Variable forward : params -> tensor -> tensor.
Variable observe : params -> tensor -> params.
Variable sgd_step : params -> batch -> params.
Variable getCt_shape0 : string -> nat.
Variable train_dl : DataLoader.
Variable test_dl : DataLoader.

Lemma doTraining_count (model model' : params) (count count' : nat)
    (m : metrics) :
  doTraining forward sgd_step model count train_dl = Ok (model', count', m) ->
  count' = count + List.length (dataset train_dl).
Proof.
  unfold doTraining. intros H.
  destruct (training_loop forward sgd_step model (batch_size train_dl)
              (enumerateWithEstimate (batches train_dl) (num_workers train_dl))
              (Metrics (zeros METRICS_SIZE (List.length (dataset train_dl))) []))
    as [[model1 m1]|] eqn:E; cbn [bind fst snd] in H; [|discriminate].
  pose proof (training_loop_shape _ _ _ _ _ _ E
                (zeros_shape METRICS_SIZE (List.length (dataset train_dl))))
    as [Hlen Hrows].
  injection H as _ <- _. unfold METRICS_SIZE in Hlen.
  destruct (data m1) as [|row rest]; [discriminate|].
  inversion Hrows as [|? ? Hrow _]; subst. rewrite Hrow. reflexivity.
Qed.

Lemma run_epoch_counts :
  counts_samples (run_epoch forward observe sgd_step getCt_shape0 train_dl test_dl)
                 (List.length (dataset train_dl)).
Proof.
  intros self k self1 s H.
  destruct (run_epoch_inv _ _ _ _ _ _ _ _ H)
    as (m1 & c1 & trn & d0 & m2 & m3 & tst & d & Et & _ & _ & _ & _ & _ & ->).
  cbn [totalTrainingSamples_count].
  apply (doTraining_count _ _ Et).
Qed.

End RunCounts.

(** X19.  In a run of [main] with a non-empty training set, every epoch
    that completes leaves a checkpoint file of its own, named by the
    sample count reached at that epoch (the count at the start plus the
    epoch's rank times the size of the training set); at the end of the
    run the file still holds that epoch's index and count: no later
    epoch, and no write of the ['best'] file, has overwritten it. *)
Theorem main_epoch_files (params : Type)
    (forward : params -> tensor -> tensor)
    (observe : params -> tensor -> params)
    (sgd_step : params -> batch -> params) (getCt_shape0 : string -> nat)
    (train_dl test_dl : DataLoader)
    (self : app params) (i : nat) (e : epoch_log) :
  dataset train_dl <> [] ->
  let fs' := fst (fst (main forward observe sgd_step getCt_shape0 train_dl test_dl self)) in
  let hist := snd (fst (main forward observe sgd_step getCt_shape0 train_dl test_dl self)) in
  let count :=
    totalTrainingSamples_count self + S i * List.length (dataset train_dl) in
  nth_error hist i = Some e ->
  exists ck,
    read_file fs' (state_path self "seg" (format_nat count))
    = Some ck /\
    epoch ck = e_ndx e /\ ck_totalTrainingSamples_count ck = count.
Proof.
  intros Hne. cbv zeta. rewrite ?main_hist, ?main_files. intros Hi.
  assert (Hn : 1 <= List.length (dataset train_dl)).
  { destruct (dataset train_dl); [contradiction|cbn; lia]. }
  destruct (@main_loop_epoch_files params
              (run_epoch forward observe sgd_step getCt_shape0 train_dl test_dl)
              (List.length (dataset train_dl))
              (@run_epoch_keeps_files params forward observe sgd_step getCt_shape0 train_dl test_dl)
              (@run_epoch_counts params forward observe sgd_step getCt_shape0 train_dl test_dl)
              Hn (epochs (cli self)) 1 self (of_Z 0) [])
    as (_ & new & E & Hfiles).
  cbn [List.app] in E. rewrite E in Hi.
  destruct (nth_error_split_firstn _ _ Hi) as (h2 & Es & Hlen & _).
  destruct (Hfiles _ _ _ Es) as (ck & Hck & Hep & Hct).
  rewrite Hlen in Hck, Hct. exists ck. auto.
Qed.

Lemma main_epoch_files_witness :
  exists (e : epoch_log) (ck : checkpoint unit),
    nth_error (snd (fst scenario_A_main)) 1 = Some e /\
    read_file (fst (fst scenario_A_main))
              (state_path scenario_A_app "seg" (format_nat (0 + 2 * 4)))
    = Some ck /\
    epoch ck = e_ndx e /\ ck_totalTrainingSamples_count ck = 0 + 2 * 4.
Proof.
  assert (H : exists e, nth_error (snd (fst scenario_A_main)) 1 = Some e)
    by (vm_compute; eexists; reflexivity).
  destruct H as (e & He). exists e.
  destruct (@main_epoch_files unit predict_zero (fun p _ => p) (fun p _ => p) (fun _ => 0) scenario_A_dl
              scenario_A_dl scenario_A_app 1 e ltac:(discriminate) He)
    as (ck & H1 & H2 & H3).
  exists ck. split; [exact He|]. split; [exact H1|]. split; [exact H2|exact H3].
Defined.

Section EmptyMasks.

Lemma sum_repeat_zero (n : nat) : sum (repeat zero n) = zero.
Proof.
  induction n as [|n IH]; [reflexivity|]. cbn [repeat sum]. rewrite IH.
  apply same_true_eq. reflexivity.
Qed.

Lemma add_zero_l (e : Qc) : (zero + Fin e)%num = Fin e.
Proof. cbn [add zero of_Z]. apply Fin_eq. qc_lra. Qed.

Lemma repeat_binary (n : nat) : Forall binary (repeat zero n).
Proof.
  apply Forall_forall. intros x Hx. apply repeat_spec in Hx. subst x.
  left. reflexivity.
Qed.

Lemma dice_of_sample_empty (n : nat) (e : Qc) :
  dice_of_sample (repeat zero n) (repeat zero n) (Fin e)
  = if Qc_eq_dec e 0 then NaN else zero.
Proof.
  unfold dice_of_sample, overlap, predSum, labelSum.
  rewrite (zipw_mul_binary (repeat_binary n)), sum_repeat_zero.
  replace (of_Z 2 * zero)%num with zero
    by (symmetry; apply same_true_eq; reflexivity).
  replace (zero + zero)%num with zero
    by (symmetry; apply same_true_eq; reflexivity).
  rewrite add_zero_l. destruct (Qc_eq_dec e 0) as [->|Hne].
  - reflexivity.
  - rewrite (div_self Hne). apply same_true_eq. reflexivity.
Qed.

Lemma combine_repeat (A : Type) (x : A) (k : nat) :
  combine (repeat x k) (repeat x k) = repeat (x, x) k.
Proof. induction k as [|k IH]; cbn; [reflexivity|rewrite IH; reflexivity]. Qed.

Lemma map_repeat (A B : Type) (f : A -> B) (x : A) (k : nat) :
  map f (repeat x k) = repeat (f x) k.
Proof. induction k as [|k IH]; cbn; [reflexivity|rewrite IH; reflexivity]. Qed.

End EmptyMasks.

(** X20.  On samples without any positive pixel, predicted as zero
    everywhere, the dice loss is 0 for every smoothing constant in the
    positive normal range of float32, and NaN for the smoothing constant
    0 (its 0/0). *)
Theorem diceLoss_empty_masks (k n : nat) (e : Qc) :
  float32_normal e ->
  diceLoss (repeat (repeat zero n) k) (repeat (repeat zero n) k) (Fin e)
  = Ok (repeat zero k) /\
  diceLoss (repeat (repeat zero n) k) (repeat (repeat zero n) k) (Fin 0)
  = Ok (repeat NaN k).
Proof.
  intros He. apply float32_normal_pos, Qc_pos_neq0 in He.
  rewrite !(diceLoss_samples _ (same_shape_refl _)).
  rewrite !combine_repeat, !map_repeat. cbn [fst snd].
  rewrite !dice_of_sample_empty.
  destruct (Qc_eq_dec e 0) as [E|_]; [contradiction|].
  destruct (Qc_eq_dec 0 0) as [_|E]; [|contradiction E; reflexivity].
  split; reflexivity.
Qed.

Lemma diceLoss_empty_masks_witness :
  diceLoss (repeat (repeat zero 4) 2) (repeat (repeat zero 4) 2)
           default_epsilon
  = Ok (repeat zero 2) /\
  diceLoss (repeat (repeat zero 4) 2) (repeat (repeat zero 4) 2) (Fin 0)
  = Ok (repeat NaN 2).
Proof.
  apply (@diceLoss_empty_masks 2 4 (qz 1024)).
  split; vm_compute; congruence.
Defined.

(** ** The count rows *)

Section RowTracking.

Variable params : Type.
Variable forward : params -> tensor -> tensor.
Variable r : nat.
Variable v : params -> list sample -> vec.

Hypothesis Hstep :
  forall (model : params) (k batch_size : nat) (ss : list sample)
         (m m' : metrics) (loss : num) (row : vec),
    computeBatchLoss forward model k (collate ss) batch_size m = Ok (m', loss) ->
    nth_error (data m) r = Some row ->
    k * batch_size + List.length ss <= List.length row ->
    List.length (v model ss) = List.length ss /\
    nth_error (data m') r
    = Some (firstn (k * batch_size) row ++ v model ss
              ++ skipn (k * batch_size + List.length ss) row).

(** A row during an evaluation pass: the values of the batches done so
    far, in order, then zeros. *)
Lemma testing_row (batch_size : nat) (bl : list (list sample)) :
  chunked batch_size bl ->
  forall (k z : nat) (model model' : params) (m m' : metrics) (pre : vec),
  training_loop forward (fun p _ => p) model batch_size
    (enumerate_from k (map collate bl)) m = Ok (model', m') ->
  nth_error (data m) r = Some (pre ++ repeat zero z) ->
  List.length pre = k * batch_size ->
  total_length bl <= z ->
  nth_error (data m') r
  = Some (pre ++ List.concat (map (v model) bl)
              ++ repeat zero (z - total_length bl)).
Proof.
  induction 1 as [|b H1 H2|b bl Hb Hc IH];
    intros k z model model' m m' pre H Erow Hpre Hz.
  - cbn in H. injection H as _ <-. rewrite Erow. cbn.
    rewrite Nat.sub_0_r. reflexivity.
  - cbn [map enumerate_from training_loop] in H.
    destruct (computeBatchLoss forward model k (collate b) batch_size m)
      as [[m1 loss]|] eqn:E; cbn [bind fst] in H; [|discriminate].
    injection H as _ <-. rewrite total_length_cons in Hz.
    destruct (Hstep _ _ _ _ _ E Erow) as [Hlen Hrow1].
    { rewrite length_app, repeat_length. unfold total_length in Hz. lia. }
    rewrite Hrow1, <- Hpre, firstn_pre, skipn_pre.
    cbn [map List.concat]. rewrite app_nil_r, total_length_cons.
    unfold total_length. cbn [List.concat List.length].
    rewrite Nat.add_0_r. reflexivity.
  - cbn [map enumerate_from training_loop] in H.
    destruct (computeBatchLoss forward model k (collate b) batch_size m)
      as [[m1 loss]|] eqn:E; cbn [bind fst] in H; [|discriminate].
    rewrite total_length_cons in Hz.
    destruct (Hstep _ _ _ _ _ E Erow) as [Hlen Hrow1].
    { rewrite length_app, repeat_length. lia. }
    rewrite <- Hpre, firstn_pre, skipn_pre, app_assoc in Hrow1.
    rewrite (IH (S k) (z - List.length b) _ _ _ _ (pre ++ v model b) H Hrow1).
    + cbn [map List.concat]. rewrite total_length_cons, <- !app_assoc.
      replace (z - List.length b - total_length bl)
        with (z - (List.length b + total_length bl)) by lia.
      reflexivity.
    + rewrite length_app, Hlen. cbn [Nat.mul]. lia.
    + lia.
Qed.

End RowTracking.

Section CountRows.

Variable params : Type.
Variable forward : params -> tensor -> tensor.

Lemma intersectionSum_inv_length (a b : tensor) (v : vec) :
  intersectionSum a b = Ok v -> List.length v = List.length a.
Proof.
  unfold intersectionSum. intros H.
  destruct (tzip mul a b) as [t|] eqn:E; cbn [bind] in H; [|discriminate].
  injection H as <-. destruct (tzip_inv _ _ _ E) as [-> Hs].
  unfold sum_dim1. rewrite !length_map, length_combine.
  rewrite (same_shape_length Hs). lia.
Qed.

(** What one call of [computeBatchLoss] does to the ATP and AFN rows. *)
Lemma computeBatchLoss_count_rows (model : params) (k batch_size : nat)
    (ss : list sample) (m m' : metrics) (loss : num) :
  computeBatchLoss forward model k (collate ss) batch_size m = Ok (m', loss) ->
  List.length (atp_values forward model ss) = List.length ss /\
  List.length (afn_values forward model ss) = List.length ss /\
  (forall row,
     nth_error (data m) METRICS_ATP_NDX = Some row ->
     k * batch_size + List.length ss <= List.length row ->
     nth_error (data m') METRICS_ATP_NDX
     = Some (firstn (k * batch_size) row ++ atp_values forward model ss
               ++ skipn (k * batch_size + List.length ss) row)) /\
  (forall row,
     nth_error (data m) METRICS_AFN_NDX = Some row ->
     k * batch_size + List.length ss <= List.length row ->
     nth_error (data m') METRICS_AFN_NDX
     = Some (firstn (k * batch_size) row ++ afn_values forward model ss
               ++ skipn (k * batch_size + List.length ss) row)).
Proof.
  intros H. unfold computeBatchLoss in H.
  cbn [collate label_tensor mal_tensor ben_tensor label_list input_tensor] in H.
  cbv zeta in H. rewrite length_map in H.
  bind_inv H dl Edl.
  bind_inv H m1 E1. bind_inv H m2 E2.
  bind_inv H tp Etp. bind_inv H fn Efn. bind_inv H fp Efp.
  bind_inv H m3 E3. bind_inv H m4 E4. bind_inv H m5 E5.
  bind_inv H MP EMP.
  bind_inv H mtp Emtp. bind_inv H mfn Emfn. bind_inv H mfp Emfp.
  bind_inv H ls Els.
  bind_inv H m6 E6. bind_inv H m7 E7. bind_inv H m8 E8.
  injection H as <- _.
  pose proof (intersectionSum_inv_length _ _ Etp) as Ltp.
  pose proof (intersectionSum_inv_length _ _ Efn) as Lfn.
  rewrite length_map in Ltp, Lfn.
  apply intersectionSum_inv in Etp, Efn.
  fold (predictionBool forward model ss) in Etp, Efn.
  unfold one_minus in Efn.
  fold (atp_values forward model ss) in Etp.
  fold (afn_values forward model ss) in Efn. subst tp fn.
  split; [exact Ltp|]. split; [exact Lfn|]. split.
  - intros row Erow Hfit.
    rewrite (@assign_other _ _ _ _ _ METRICS_ATP_NDX _ E8),
      (@assign_other _ _ _ _ _ METRICS_ATP_NDX _ E7),
      (@assign_other _ _ _ _ _ METRICS_ATP_NDX _ E6),
      (@assign_other _ _ _ _ _ METRICS_ATP_NDX _ E5),
      (@assign_other _ _ _ _ _ METRICS_ATP_NDX _ E4) by discriminate.
    apply (@assign_row _ _ _ _ _ _ _ E3); [|lia|lia].
    rewrite (@assign_other _ _ _ _ _ METRICS_ATP_NDX _ E2),
      (@assign_other _ _ _ _ _ METRICS_ATP_NDX _ E1) by discriminate.
    exact Erow.
  - intros row Erow Hfit.
    rewrite (@assign_other _ _ _ _ _ METRICS_AFN_NDX _ E8),
      (@assign_other _ _ _ _ _ METRICS_AFN_NDX _ E7),
      (@assign_other _ _ _ _ _ METRICS_AFN_NDX _ E6),
      (@assign_other _ _ _ _ _ METRICS_AFN_NDX _ E5) by discriminate.
    apply (@assign_row _ _ _ _ _ _ _ E4); [|lia|lia].
    rewrite (@assign_other _ _ _ _ _ METRICS_AFN_NDX _ E3),
      (@assign_other _ _ _ _ _ METRICS_AFN_NDX _ E2),
      (@assign_other _ _ _ _ _ METRICS_AFN_NDX _ E1) by discriminate.
    exact Erow.
Qed.

End CountRows.

Section Positives.
Local Open Scope Qc_scope.

Lemma tp_fn_sample_Fin (l pb : vec) :
  List.length l = List.length pb ->
  Forall (fun x => isfinite x = true) l -> Forall binary pb ->
  exists S1 S2 S : Qc,
    sum (zipw mul l pb) = Fin S1 /\
    sum (zipw mul l (map (fun x => one - x)%num pb)) = Fin S2 /\
    sum l = Fin S /\ S1 + S2 = S.
Proof.
  revert pb. induction l as [|x l IH]; intros [|b pb] Hlen Hl Hpb;
    try discriminate.
  - exists (qz 0), (qz 0), (qz 0). repeat split; apply Qc_is_canon; reflexivity.
  - inversion Hl as [|? ? Hx Hl']; inversion Hpb as [|? ? Hb Hpb']; subst.
    cbn [List.length] in Hlen. injection Hlen as Hlen.
    destruct (IH pb Hlen Hl' Hpb') as (S1 & S2 & S & E1 & E2 & E & HS).
    apply Fin_isfinite in Hx as (a & ->).
    unfold zipw in *. cbn [map combine fst snd sum]. rewrite E1, E2, E.
    destruct Hb as [-> | ->]; cbn [mul sub add neg one zero of_Z].
    + exists (a * qz 0 + S1), (a * (qz 1 + - qz 0) + S2), (a + S).
      repeat split. apply Qc_is_canon. rewrite <- HS. qc_lra.
    + exists (a * qz 1 + S1), (a * (qz 1 + - qz 1) + S2), (a + S).
      repeat split. apply Qc_is_canon. rewrite <- HS. qc_lra.
Qed.

Lemma tp_fn_sample (l pb : vec) :
  List.length l = List.length pb ->
  Forall (fun x => isfinite x = true) l -> Forall binary pb ->
  (sum (zipw mul l pb)
   + sum (zipw mul l (map (fun x => one - x) pb)))%num = sum l.
Proof.
  intros Hlen Hl Hpb.
  destruct (tp_fn_sample_Fin Hlen Hl Hpb) as (S1 & S2 & S & -> & -> & -> & <-).
  reflexivity.
Qed.

Lemma tp_fn_batch (L PB : tensor) :
  same_shape L PB ->
  Forall (Forall (fun x => isfinite x = true)) L ->
  Forall (Forall binary) PB ->
  zipw add
    (sum_dim1 (map (fun p => zipw mul (fst p) (snd p)) (combine L PB)))
    (sum_dim1 (map (fun p => zipw mul (fst p) (snd p))
                   (combine L (tscal (fun x => one - x)%num PB))))
  = map sum L.
Proof.
  induction 1 as [|l pb L PB Hlen _ IH]; intros HL HPB; [reflexivity|].
  inversion HL; inversion HPB; subst.
  unfold zipw, sum_dim1, tscal in *. cbn [map combine fst snd].
  rewrite IH by assumption. f_equal.
  apply (tp_fn_sample Hlen); assumption.
Qed.

Lemma zipw_app (f : num -> num -> num) (a1 a2 b1 b2 : vec) :
  List.length a1 = List.length b1 ->
  zipw f (a1 ++ a2) (b1 ++ b2) = zipw f a1 b1 ++ zipw f a2 b2.
Proof.
  unfold zipw. revert b1. induction a1 as [|x a1 IH]; intros [|y b1] H;
    try discriminate; [reflexivity|].
  cbn in *. rewrite IH by lia. reflexivity.
Qed.

Lemma zipw_concat (B : Type) (f : num -> num -> num) (va vb : B -> vec)
    (g : B -> vec) (bl : list B) :
  (forall b, In b bl -> List.length (va b) = List.length (vb b)) ->
  (forall b, In b bl -> zipw f (va b) (vb b) = g b) ->
  zipw f (List.concat (map va bl)) (List.concat (map vb bl))
  = List.concat (map g bl).
Proof.
  induction bl as [|b bl IH]; intros Hlen Hg; [reflexivity|].
  cbn [map List.concat]. rewrite zipw_app by (apply Hlen; left; reflexivity).
  rewrite Hg by (left; reflexivity). f_equal.
  apply IH; intros b' Hb'; [apply Hlen|apply Hg]; right; exact Hb'.
Qed.

End Positives.

Lemma Forall_binary_finite (l : vec) :
  Forall binary l -> Forall (fun x => isfinite x = true) l.
Proof.
  apply Forall_impl. intros x [->| ->]; reflexivity.
Qed.

(** X21.  In the buffer an evaluation pass returns, for data with binary
    label masks, the true positives and the false negatives of each
    sample add up to the sum of its label mask, the number of its
    positive pixels, column by column in the order of the data set: the
    denominator of the recall is the number of positive pixels, whatever
    the network predicts. *)
Theorem doTesting_positives (params : Type)
    (forward : params -> tensor -> tensor) (model : params) (dl : DataLoader) :
  1 <= batch_size dl ->
  Forall sample_ok (dataset dl) ->
  shape_contract forward (dataset dl) ->
  Forall (fun s => Forall binary (s_label_mask s)) (dataset dl) ->
  exists (m : metrics) (atp afn : vec),
    doTesting forward model dl = Ok m /\
    nth_error (data m) METRICS_ATP_NDX = Some atp /\
    nth_error (data m) METRICS_AFN_NDX = Some afn /\
    zipw add atp afn = map (fun s => sum (s_label_mask s)) (dataset dl).
Proof.
  intros Hbs Hok Hct Hfin.
  destruct (@epoch_ok params forward (fun p _ => p) model dl Hbs Hok Hct)
    as (m & E & _).
  assert (Hdo : doTesting forward model dl = Ok m).
  { unfold doTesting. rewrite testing_loop_as_training, E. reflexivity. }
  destruct (batches_facts dl Hbs) as (Hc & Htot & Hincl).
  destruct (@batch_sampler_spec sample (batch_size dl) [] (dataset dl))
    as [_ Hcat]; [cbn [List.length]; lia|].
  cbn [List.app] in Hcat.
  unfold enumerateWithEstimate, batches in E.
  set (bl := batch_sampler (batch_size dl) [] (dataset dl)) in *.
  set (n := List.length (dataset dl)) in *.
  pose proof (@testing_row params forward METRICS_ATP_NDX
                (atp_values forward)) as Hatp.
  pose proof (@testing_row params forward METRICS_AFN_NDX
                (afn_values forward)) as Hafn.
  assert (Ra : nth_error (data m) METRICS_ATP_NDX
               = Some (List.concat (map (atp_values forward model) bl))).
  { rewrite (Hatp ltac:(intros mo k bs ss m0 m0' loss row H0 Er Hf;
                         destruct (computeBatchLoss_count_rows _ _ _ _ _ _ H0)
                           as (L1 & _ & R1 & _); split; [exact L1|];
                         apply R1; assumption)
               (batch_size dl) bl Hc 0 n _ _ _ _ [] E).
    - rewrite Htot, Nat.sub_diag. cbn [repeat List.app].
      rewrite app_nil_r. reflexivity.
    - cbn [data List.app]. apply zeros_row.
      unfold METRICS_SIZE, METRICS_ATP_NDX. lia.
    - reflexivity.
    - lia. }
  assert (Rn : nth_error (data m) METRICS_AFN_NDX
               = Some (List.concat (map (afn_values forward model) bl))).
  { rewrite (Hafn ltac:(intros mo k bs ss m0 m0' loss row H0 Er Hf;
                         destruct (computeBatchLoss_count_rows _ _ _ _ _ _ H0)
                           as (_ & L2 & _ & R2); split; [exact L2|];
                         apply R2; assumption)
               (batch_size dl) bl Hc 0 n _ _ _ _ [] E).
    - rewrite Htot, Nat.sub_diag. cbn [repeat List.app].
      rewrite app_nil_r. reflexivity.
    - cbn [data List.app]. apply zeros_row.
      unfold METRICS_SIZE, METRICS_AFN_NDX. lia.
    - reflexivity.
    - lia. }
  exists m, (List.concat (map (atp_values forward model) bl)),
    (List.concat (map (afn_values forward model) bl)).
  split; [exact Hdo|]. split; [exact Ra|]. split; [exact Rn|].
  rewrite (@zipw_concat (list sample) add _ _
             (fun b => map (fun s => sum (s_label_mask s)) b)).
  - rewrite <- Hcat at 1. rewrite concat_map. reflexivity.
  - intros b Hb. unfold atp_values, afn_values, sum_dim1, predictionBool, tscal.
    rewrite !length_map, !length_combine, !length_map. reflexivity.
  - intros b Hb. unfold atp_values, afn_values, predictionBool.
    pose proof (Hct model b (Hincl b Hb)) as Hs.
    pose proof (same_shape_trans Hs
                  (same_shape_tscal (fun x => of_bool (gtb x (lit 1 2)))
                     (forward model (map s_input b)))) as Hs1.
    rewrite (tp_fn_batch Hs1).
    + apply map_map.
    + apply Forall_map_sample. rewrite Forall_forall in Hfin |- *.
      intros s Hs'. apply Forall_binary_finite, Hfin, (Hincl b Hb s Hs').
    + apply Forall_threshold.
Qed.

Lemma doTesting_positives_witness :
  exists (m : metrics) (atp afn : vec),
    doTesting first_channel 0 scenario_C_dl = Ok m /\
    nth_error (data m) METRICS_ATP_NDX = Some atp /\
    nth_error (data m) METRICS_AFN_NDX = Some afn /\
    zipw add atp afn = [of_Z 2; of_Z 1; of_Z 0].
Proof.
  destruct (@doTesting_positives nat first_channel 0 scenario_C_dl)
    as (m & atp & afn & E & Ea & En & H).
  - cbn. lia.
  - exact scenario_C_samples_ok.
  - exact first_channel_contract.
  - unfold scenario_C_dl, scenario_C_samples. cbn [dataset].
    repeat (constructor; [cbn [s_label_mask]; solve_binary|]). constructor.
  - exists m, atp, afn. rewrite H.
    split; [exact E|]. split; [exact Ea|]. split; [exact En|].
    cbn [map dataset scenario_C_dl scenario_C_samples s_label_mask].
    repeat f_equal; apply same_true_eq; reflexivity.
Defined.

(** X22.  When the loop of [main] ends on an exception, in some epoch,
    the files and the history it leaves are exactly those of a run of the
    epochs before that one, and the exception is that of the next epoch
    started from the state those epochs left: the failed epoch saves
    nothing, and nothing saved earlier is lost. *)
Theorem main_loop_abort (params : Type)
    (run : app params -> nat -> result (app params * num))
    (N k : nat) (self : app params) (best : num) (hist0 : list epoch_log)
    (err : error) :
  snd (main_loop run N k self best hist0) = Aborted err ->
  exists (j : nat) (self_j : app params),
    j < N /\
    main_loop run j k self best hist0
    = (fst (fst (main_loop run N k self best hist0)),
       snd (fst (main_loop run N k self best hist0)), Finished self_j) /\
    run self_j (k + j) = Raise err.
Proof.
  revert k self best hist0. induction N as [|N IH]; intros k self best hist0 H.
  - cbn in H. discriminate.
  - cbn [main_loop] in H |- *.
    destruct (run self k) as [[self1 score]|e] eqn:E.
    + destruct (IH _ _ _ _ H) as (j & self_j & Hj & Hrun & Herr).
      exists (S j), self_j. split; [lia|]. split.
      * cbn [main_loop]. rewrite E. exact Hrun.
      * rewrite <- Herr. f_equal. lia.
    + cbn in H. injection H as ->. exists 0, self. split; [lia|]. split.
      * reflexivity.
      * rewrite Nat.add_0_r. exact E.
Qed.

Lemma main_loop_abort_witness :
  exists (j : nat) (self_j : app unit),
    j < 3 /\
    main_loop (@scripted_epoch unit [lit 9 10]) j 1 scenario_A_app (of_Z 0) []
    = (fst (fst (main_loop (@scripted_epoch unit [lit 9 10]) 3 1
                   scenario_A_app (of_Z 0) [])),
       snd (fst (main_loop (@scripted_epoch unit [lit 9 10]) 3 1
                   scenario_A_app (of_Z 0) [])), Finished self_j) /\
    @scripted_epoch unit [lit 9 10] self_j (1 + j) = Raise AssertionError.
Proof.
  apply (@main_loop_abort unit (@scripted_epoch unit [lit 9 10]) 3 1
           scenario_A_app (of_Z 0) [] AssertionError).
  reflexivity.
Defined.

(** ** The promotion rule *)

Section Promotion.
Local Open Scope Qc_scope.

Lemma promotion_finite (new : list epoch_log) (i : nat) (e : epoch_log) :
  flags_ok 1 (of_Z 0) new ->
  Forall (fun e => isfinite (e_score e) = true) new ->
  nth_error new i = Some e ->
  (e_isBest e = true <->
   geb (e_score e) (of_Z 0) = true /\
   forall e', In e' (firstn i new) -> geb (e_score e) (e_score e') = true).
Proof.
  intros Hnew Hfin Hi.
  destruct (nth_error_split_firstn _ _ Hi) as (h2 & Esplit & Hlen & _).
  destruct (Hnew _ _ _ Esplit) as [Hndx Hbest].
  rewrite Esplit in Hfin. apply Forall_app in Hfin as [Hf1 Hf2].
  inversion Hf2 as [|? ? He _]; subst.
  apply Fin_isfinite in He as (s & Es).
  destruct (best_after_Fin (qz 0) Hf1) as (b & Eb & Hb0 & Hall & Hin).
  change (Fin (qz 0)) with (of_Z 0) in Eb.
  rewrite Hbest, Es, Eb, isBest_Fin. unfold of_Z. rewrite geb_Fin. split.
  - intros Hbs'. split; [eapply Qcle_trans; eassumption|].
    intros e' He'. rewrite Forall_forall in Hf1.
    destruct (proj1 (Fin_isfinite _) (Hf1 e' He')) as (s' & Es').
    rewrite Es'. apply geb_Fin. eapply Qcle_trans; [|exact Hbs'].
    eapply Hall; eassumption.
  - intros [H0 Hprev]. destruct Hin as [->|(e' & He' & Ee')]; [exact H0|].
    specialize (Hprev e' He'). rewrite Ee' in Hprev. apply geb_Fin, Hprev.
Qed.

Lemma promotion_nan (new : list epoch_log) (i : nat) (e : epoch_log) :
  flags_ok 1 (of_Z 0) new ->
  Forall (fun e => e_score e = NaN) new ->
  nth_error new i = Some e ->
  (e_isBest e = true <->
   geb (e_score e) (of_Z 0) = true /\
   forall e', In e' (firstn i new) -> geb (e_score e) (e_score e') = true).
Proof.
  intros Hnew Hnan Hi.
  destruct (nth_error_split _ _ Hi) as (h1 & h2 & Es & _).
  destruct (Hnew _ _ _ Es) as [_ Hb].
  rewrite Forall_forall in Hnan.
  rewrite Hb, (Hnan e (nth_error_In _ _ Hi)). cbn.
  split; [discriminate|intros [H _]; discriminate].
Qed.

Lemma last_best_none (hist : list epoch_log) :
  last_best hist = None -> Forall (fun e => e_isBest e = false) hist.
Proof.
  induction hist as [|e hist IH]; cbn [last_best]; [constructor|].
  destruct (last_best hist); [discriminate|].
  destruct (e_isBest e) eqn:E; [discriminate|]. intros _.
  constructor; [exact E|apply IH; reflexivity].
Qed.

Lemma last_best_split (hist : list epoch_log) (j : nat) :
  last_best hist = Some j ->
  exists h1 e h2,
    hist = h1 ++ e :: h2 /\ e_isBest e = true /\ e_ndx e = j /\
    Forall (fun e' => e_isBest e' = false) h2.
Proof.
  revert j. induction hist as [|e hist IH]; cbn [last_best]; [discriminate|].
  intros j. destruct (last_best hist) as [j'|] eqn:E.
  - intros H. injection H as <-.
    destruct (IH j' eq_refl) as (h1 & e0 & h2 & -> & Hb & Hn & Hno).
    exists (e :: h1), e0, h2. auto.
  - destruct (e_isBest e) eqn:Eb; [|discriminate].
    intros H. injection H as <-.
    exists [], e, hist. split; [reflexivity|]. split; [exact Eb|].
    split; [reflexivity|apply last_best_none, E].
Qed.

(** Epochs that are not promoted leave the best score as it is, and
    score below it. *)
Lemma not_promoted_below (b : Qc) (h2 prefix : list epoch_log) :
  best_after (of_Z 0) prefix = Fin b ->
  Forall (fun e => isfinite (e_score e) = true) h2 ->
  (forall g1 e g2, h2 = g1 ++ e :: g2 ->
     e_isBest e
     = eqb (e_score e)
           (pymax (e_score e) (best_after (of_Z 0) (prefix ++ g1)))) ->
  Forall (fun e => e_isBest e = false) h2 ->
  Forall (fun e => geb (Fin b) (e_score e) = true) h2.
Proof.
  intros Hb Hfin. revert prefix Hb.
  induction Hfin as [|e h2 He _ IH]; intros prefix Hb Hflags Hno;
    constructor.
  - inversion Hno as [|? ? Hn _]; subst.
    apply Fin_isfinite in He as (s & Es).
    pose proof (Hflags [] e h2 eq_refl) as Hf.
    rewrite app_nil_r, Hb, Es, Hn in Hf.
    rewrite Es. apply geb_Fin.
    destruct (Qclt_le_dec s b) as [Hlt|Hle]; [apply Qclt_le_weak, Hlt|].
    exfalso. symmetry in Hf. apply not_true_iff_false in Hf. apply Hf.
    apply isBest_Fin, Hle.
  - inversion Hno as [|? ? Hn Hno']; subst.
    apply Fin_isfinite in He as (s & Es).
    pose proof (Hflags [] e h2 eq_refl) as Hf.
    rewrite app_nil_r, Hb, Es, Hn in Hf.
    apply (IH (prefix ++ [e])).
    + rewrite best_after_app, Hb. cbn [best_after fold_left]. rewrite Es.
      rewrite pymax_Fin. destruct (Qclt_le_dec s b) as [Hlt|Hle];
        [reflexivity|].
      exfalso. symmetry in Hf. apply not_true_iff_false in Hf. apply Hf.
      apply isBest_Fin, Hle.
    + intros g1 e' g2 E. rewrite <- app_assoc. cbn [List.app].
      apply (Hflags (e :: g1) e' g2). rewrite E. reflexivity.
    + exact Hno'.
Qed.

(** The last promoted epoch has the highest score of the run. *)
Lemma last_best_highest (new : list epoch_log) (j : nat) :
  flags_ok 1 (of_Z 0) new ->
  Forall (fun e => isfinite (e_score e) = true) new ->
  last_best new = Some j ->
  exists e_j,
    nth_error new (j - 1) = Some e_j /\ e_ndx e_j = j /\
    forall e', In e' new -> geb (e_score e_j) (e_score e') = true.
Proof.
  intros Hnew Hfin Hj.
  destruct (last_best_split _ Hj) as (h1 & e & h2 & E & Hb & Hn & Hno).
  destruct (Hnew _ _ _ E) as [Hndx Hflag].
  assert (Hi : nth_error new (List.length h1) = Some e).
  { rewrite E, nth_error_app2, Nat.sub_diag by lia. reflexivity. }
  exists e. rewrite <- Hn, Hndx.
  replace (1 + List.length h1 - 1)%nat with (List.length h1) by lia.
  split; [exact Hi|]. split; [reflexivity|].
  destruct (proj1 (@promotion_finite new (List.length h1) e Hnew Hfin Hi) Hb)
    as [H0 Hprev].
  assert (Hfirst : firstn (List.length h1) new = h1).
  { rewrite E, firstn_app, Nat.sub_diag, firstn_all. cbn. apply app_nil_r. }
  rewrite Hfirst in Hprev.
  pose proof Hfin as Hfin'. rewrite E in Hfin'.
  apply Forall_app in Hfin' as [Hf1 Hf2].
  inversion Hf2 as [|? ? He Hf3]; subst x l.
  apply Fin_isfinite in He as (s & Es).
  assert (Hbest : best_after (of_Z 0) (h1 ++ [e]) = Fin s).
  { rewrite best_after_app. cbn [best_after fold_left].
    destruct (best_after_Fin (qz 0) Hf1) as (b & Eb & _).
    change (Fin (qz 0)) with (of_Z 0) in Eb.
    fold (best_after (of_Z 0) h1). rewrite Eb, Es, pymax_Fin.
    destruct (Qclt_le_dec s b) as [Hlt|Hle]; [|reflexivity].
    exfalso. rewrite Hflag, Es, Eb in Hb. apply isBest_Fin in Hb.
    apply (Qclt_not_le _ _ Hlt), Hb. }
  assert (Hlater : Forall (fun e' => geb (Fin s) (e_score e') = true) h2).
  { apply (@not_promoted_below s h2 (h1 ++ [e]) Hbest Hf3); [|exact Hno].
    intros g1 e' g2 E2. rewrite <- app_assoc. cbn [List.app].
    apply (Hnew (h1 ++ e :: g1) e' g2).
    rewrite E, E2, <- app_assoc. reflexivity. }
  intros e' He'. rewrite E in He'. apply in_app_or in He' as [H1|[<-|H2]].
  - apply Hprev, H1.
  - rewrite Es. apply geb_Fin, Qcle_refl.
  - rewrite Es. rewrite Forall_forall in Hlater. apply Hlater, H2.
Qed.

End Promotion.

Section RunScores.

Variable params : Type.
Variable forward : params -> tensor -> tensor.
Variable observe : params -> tensor -> params.
Variable sgd_step : params -> batch -> params.
Variable getCt_shape0 : string -> nat.
Variable train_dl : DataLoader.
Variable test_dl : DataLoader.

Lemma doTesting_shape (model : params) (dl : DataLoader) (m : metrics) :
  doTesting forward model dl = Ok m ->
  shape (data m) METRICS_SIZE (List.length (dataset dl)).
Proof.
  unfold doTesting. rewrite testing_loop_as_training. intros H.
  destruct (training_loop forward (fun p _ => p) model (batch_size dl)
              (enumerateWithEstimate (batches dl) (num_workers dl))
              (Metrics (zeros METRICS_SIZE (List.length (dataset dl))) []))
    as [[model1 m1]|] eqn:E; cbn [bind snd] in H; [|discriminate].
  injection H as <-.
  apply (training_loop_shape _ _ _ _ _ _ E
           (zeros_shape METRICS_SIZE (List.length (dataset dl)))).
Qed.

(** The score of an epoch of [main] is finite when the evaluation set
    has a sample, whatever the data and the network. *)
Lemma run_epoch_score_isfinite (self self1 : app params) (k : nat) (s : num) :
  dataset test_dl <> [] ->
  run_epoch forward observe sgd_step getCt_shape0 train_dl test_dl self k
  = Ok (self1, s) ->
  isfinite s = true.
Proof.
  intros Hne H.
  destruct (run_epoch_score _ _ _ _ _ _ _ _ H) as (model1 & tst & d & Et & El).
  pose proof (doTesting_shape _ _ Et) as Hs.
  destruct (dataset test_dl) as [|x ds]; [contradiction|].
  cbn [List.length] in Hs.
  destruct (forallb (forallb isfinite) (data tst)) eqn:Ef.
  - apply all_finite_forallb in Ef.
    destruct (logMetrics_finite_score Hs Ef) as (d' & q & E').
    rewrite E' in El. injection El as _ <-. reflexivity.
  - rewrite (logMetrics_not_finite _ Ef) in El. discriminate.
Qed.

End RunScores.

(** C5.  In every run of [main]: the epochs that complete are numbered
    from 1 in order; [saveModel] is told [isBest] for an epoch, and so
    writes the ['best'] file, exactly when the score of the epoch is at
    least 0, the initial best score, and at least the score of every
    earlier epoch of the run; and after the run the ['best'] file holds
    the checkpoint of the last epoch it was written for, whose score is
    the highest of the run: the state of the network and the sample count
    the application had when the epochs up to that one were done, and
    the index of that epoch.  An epoch that scores below an earlier one
    leaves the file alone. *)
Theorem best_checkpoint_rule (params : Type)
    (forward : params -> tensor -> tensor)
    (observe : params -> tensor -> params)
    (sgd_step : params -> batch -> params) (getCt_shape0 : string -> nat)
    (train_dl test_dl : DataLoader) (self : app params) :
  let run := run_epoch forward observe sgd_step getCt_shape0 train_dl test_dl in
  let fs' := fst (fst (main forward observe sgd_step getCt_shape0 train_dl test_dl self)) in
  let hist := snd (fst (main forward observe sgd_step getCt_shape0 train_dl test_dl self)) in
  (forall i e, nth_error hist i = Some e ->
     e_ndx e = S i /\
     (e_isBest e = true <->
      geb (e_score e) (of_Z 0) = true /\
      forall e', In e' (firstn i hist) ->
                 geb (e_score e) (e_score e') = true)) /\
  (forall (a : app params) (epoch_ndx : nat) (isBest : bool),
     read_file (files (saveModel a "seg" epoch_ndx isBest))
               (state_path a "seg" "best")
     = if isBest
       then Some (Checkpoint (model a) "UNetWrapper" "SGD" epoch_ndx
                             (totalTrainingSamples_count a))
       else read_file (files a) (state_path a "seg" "best")) /\
  match last_best hist with
  | Some j =>
      exists (e_j : epoch_log) (self_j : app params)
             (hist_j : list epoch_log),
        nth_error hist (j - 1) = Some e_j /\ e_ndx e_j = j /\
        (forall e', In e' hist -> geb (e_score e_j) (e_score e') = true) /\
        main_loop run j 1 self (of_Z 0) []
        = (files self_j, hist_j, Finished self_j) /\
        read_file fs' (state_path self "seg" "best")
        = Some (Checkpoint (model self_j) "UNetWrapper" "SGD" j
                           (totalTrainingSamples_count self_j))
  | None =>
      read_file fs' (state_path self "seg" "best")
      = read_file (files self) (state_path self "seg" "best")
  end.
Proof.
  cbv zeta. rewrite ?main_hist, ?main_files.
  set (run := run_epoch forward observe sgd_step getCt_shape0 train_dl test_dl).
  destruct (main_loop_hist run (epochs (cli self)) 1 self (of_Z 0) [])
    as (new & E & Hnew).
  destruct (main_loop_files
              (@run_epoch_keeps_files params forward observe sgd_step
                 getCt_shape0 train_dl test_dl)
              (epochs (cli self)) 1 self (of_Z 0) [])
    as (new' & E' & Hfile).
  fold run in E', Hfile. cbn [List.app] in E, E'. rewrite E in *.
  subst new'.
  assert (Hflags : flags_ok 1 (of_Z 0) new) by exact Hnew.
  assert (Hkind : Forall (fun e => isfinite (e_score e) = true) new \/
                  Forall (fun e => e_score e = NaN) new).
  { destruct (dataset test_dl) as [|x ds] eqn:Ed.
    - right. rewrite <- E.
      apply main_loop_scores with (P := fun s => s = NaN); [|constructor].
      intros a k a1 s H.
      exact (@run_epoch_score_nan params forward observe sgd_step
               getCt_shape0 train_dl test_dl a a1 k s Ed H).
    - left. rewrite <- E.
      apply main_loop_scores with (P := fun s => isfinite s = true);
        [|constructor].
      intros a k a1 s H.
      apply (@run_epoch_score_isfinite params forward observe sgd_step
               getCt_shape0 train_dl test_dl a a1 k s); [|exact H].
      rewrite Ed. discriminate. }
  split; [|split].
  - intros i e Hi.
    destruct (nth_error_split_firstn _ _ Hi) as (h2 & Esplit & Hlen & _).
    destruct (Hnew _ _ _ Esplit) as [Hndx _]. rewrite Hlen in Hndx.
    split; [exact Hndx|].
    destruct Hkind as [Hfin|Hnan].
    + apply promotion_finite; assumption.
    + apply promotion_nan; assumption.
  - intros a epoch_ndx isBest. apply saveModel_best.
  - destruct (last_best new) as [j|] eqn:Ej; [|exact Hfile].
    destruct Hfile as (i & self_j & hist_j & -> & Hi & Erun & Hread).
    destruct Hkind as [Hfin|Hnan].
    + destruct (last_best_highest Hflags Hfin Ej) as (e_j & Hn & Hx & Hmax).
      exists e_j, self_j, hist_j. auto.
    + exfalso. destruct (last_best_split _ Ej) as (h1 & e & h2 & Es & Hb & _).
      destruct (Hnew _ _ _ Es) as [_ Hf].
      rewrite Forall_forall in Hnan.
      rewrite Hf, (Hnan e) in Hb by (rewrite Es; apply in_elt).
      cbn in Hb. discriminate.
Qed.

(** C10, as amended.  For a metrics buffer with at least one column,
    all entries finite, the two loss rows in [0,1] and the ATP, AFN and
    AFP rows not negative, the score of the reducer is at least 0, in
    fact at least 1 - 0.01 - 0.001 - 0.0001 = 0.9889; so
    [score == max(score, best_score)] holds at the initial best score
    0.0: the first evaluation epoch of a run is promoted. *)
Theorem first_score_qualifies (metrics_ary : tensor) (n : nat) :
  shape metrics_ary METRICS_SIZE (S n) ->
  all_finite metrics_ary ->
  row_all probability metrics_ary METRICS_LOSS_NDX ->
  row_all probability metrics_ary METRICS_MAL_LOSS_NDX ->
  row_all nonneg metrics_ary METRICS_ATP_NDX ->
  row_all nonneg metrics_ary METRICS_AFN_NDX ->
  row_all nonneg metrics_ary METRICS_AFP_NDX ->
  exists (d : metrics_dict) (q : Qc),
    logMetrics metrics_ary = Ok (d, Fin q) /\
    (Q2Qc (9889 # 10000) <= q)%Qc /\
    geb (Fin q) (of_Z 0) = true /\
    eqb (Fin q) (pymax (Fin q) (of_Z 0)) = true.
Proof.
  intros Hs Hf H1 H2 H7 H8 H9.
  destruct (score_lower_bound Hs Hf H1 H2 H7 H8 H9) as (d & q & E & Hq).
  exists d, q. split; [exact E|]. split; [exact Hq|].
  assert (H0 : (qz 0 <= q)%Qc).
  { apply Qcle_trans with (y := Q2Qc (9889 # 10000)); [|exact Hq].
    discriminate. }
  split; [apply geb_Fin, H0|apply isBest_Fin, H0].
Qed.

(** ** Scenario C in the epoch drivers *)

Lemma epoch_rows_written_witness :
  exists (trn tst : metrics) (model' : nat) (count' : nat),
    doTraining first_channel (fun p _ => S p) 0 0 scenario_C_dl
    = Ok (model', count', trn) /\
    doTesting first_channel 0 scenario_C_dl = Ok tst /\
    forall m : metrics, m = trn \/ m = tst ->
      writes m
      = epoch_writes 2 0 (batch_sampler 2 [] scenario_C_samples) /\
      (forall r c, In r written_rows -> c < 3 ->
                   times_written (writes m) r c = 1) /\
      (forall c, times_written (writes m) METRICS_MFP_NDX c = 0) /\
      nth_error (data m) METRICS_MFP_NDX = Some (repeat zero 3).
Proof.
  apply (@epoch_rows_written nat first_channel (fun p _ => S p) 0 0
           scenario_C_dl).
  - cbn. lia.
  - exact scenario_C_samples_ok.
  - exact first_channel_contract.
Defined.

(** C4, as stated, fails: in the evaluation pass of scenario C no cell
    of the row of the malignant false positives is assigned, not even
    once. *)
Lemma epoch_rows_written_counterexample :
  exists m : metrics,
    doTesting first_channel 0 scenario_C_dl = Ok m /\
    ~ (forall c, c < 3 -> times_written (writes m) METRICS_MFP_NDX c = 1).
Proof.
  destruct (doTesting first_channel 0 scenario_C_dl) as [m|e] eqn:E;
    [|vm_compute in E; discriminate].
  exists m. split; [reflexivity|].
  intros H. specialize (H 0 ltac:(lia)).
  assert (W : writes m
              = epoch_writes 2 0 (batch_sampler 2 [] scenario_C_samples)).
  { unfold doTesting in E. rewrite testing_loop_as_training in E.
    destruct (training_loop first_channel (fun p _ => p) 0
                (batch_size scenario_C_dl)
                (enumerateWithEstimate (batches scenario_C_dl)
                   (num_workers scenario_C_dl))
                (Metrics (zeros METRICS_SIZE
                            (List.length (dataset scenario_C_dl))) []))
      as [[model' m']|] eqn:E'; cbn [bind snd] in E; [|discriminate].
    injection E as <-.
    apply (@epoch_log_writes nat first_channel (fun p _ => p) 0 model'
             scenario_C_dl m');
      [cbn; lia|exact scenario_C_samples_ok|exact first_channel_contract
      |exact E']. }
  rewrite W in H. vm_compute in H. discriminate.
Qed.

Lemma best_checkpoint_rule_witness :
  exists e1 e2 : epoch_log,
    snd (fst scenario_C_main) = [e1; e2] /\
    lt (e_score e2) (e_score e1) /\
    e_isBest e1 = true /\ e_isBest e2 = false /\
    read_file (fst (fst scenario_C_main))
              (state_path scenario_C_app "seg" "best")
    = Some (Checkpoint 2 "UNetWrapper" "SGD" 1 3).
Proof.
  destruct (@best_checkpoint_rule nat first_channel (fun p _ => p)
              (fun p _ => S p) (fun _ => 0) scenario_C_dl scenario_C_dl
              scenario_C_app) as (Hiff & _ & Hfile).
  assert (Eh : exists e1 e2,
             snd (fst scenario_C_main) = [e1; e2] /\
             lt (e_score e2) (e_score e1) /\
             geb (e_score e1) (of_Z 0) = true /\
             e_ndx e1 = 1 /\ e_ndx e2 = 2 /\
             e_isBest e2 = false)
    by (vm_compute; eexists _, _; repeat split; reflexivity).
  destruct Eh as (e1 & e2 & Eh & Hlt & H0 & Hn1 & Hn2 & Hb2).
  unfold scenario_C_main in Eh |- *. rewrite Eh in Hiff, Hfile.
  exists e1, e2. split; [exact Eh|]. split; [exact Hlt|].
  assert (Hb1 : e_isBest e1 = true).
  { apply (Hiff 0 e1 eq_refl). split; [exact H0|]. intros e' []. }
  split; [exact Hb1|]. split; [exact Hb2|].
  cbn [last_best] in Hfile. rewrite Hb2, Hb1, Hn1 in Hfile.
  destruct Hfile as (e_j & self_j & hist_j & _ & _ & _ & Erun & Hread).
  rewrite Hread.
  assert (Es : model self_j = 2 /\ totalTrainingSamples_count self_j = 3).
  { revert Erun. vm_compute. intros Erun. injection Erun as _ _ <-.
    split; reflexivity. }
  destruct Es as [-> ->]. reflexivity.
Defined.

Lemma nonneg_of_Z (z : Z) : (0 <= z)%Z -> nonneg (of_Z z).
Proof.
  intros H. exists (qz z). split; [reflexivity|].
  unfold Qcle, qz. cbn [this Q2Qc]. rewrite !Qred_correct.
  unfold Qle, inject_Z. cbn. lia.
Qed.

Ltac solve_row :=
  let row := fresh "row" in
  let E := fresh "E" in
  intros row E; unfold mixed_metrics in E; cbn [nth_error] in E;
  injection E as <-;
  repeat match goal with
         | |- Forall _ (_ :: _) => constructor
         | |- Forall _ [] => constructor
         | |- probability zero => apply (@probability_lit 0 1); lia
         | |- probability one => apply (@probability_lit 1 1); lia
         | |- probability (lit _ _) => apply probability_lit; lia
         | |- nonneg zero => apply (@nonneg_of_Z 0); lia
         | |- nonneg (of_Z _) => apply nonneg_of_Z; lia
         end.

Lemma first_score_qualifies_witness :
  exists (d : metrics_dict) (q : Qc),
    logMetrics mixed_metrics = Ok (d, Fin q) /\
    (Q2Qc (9889 # 10000) <= q)%Qc /\
    geb (Fin q) (of_Z 0) = true /\
    eqb (Fin q) (pymax (Fin q) (of_Z 0)) = true.
Proof.
  apply (@first_score_qualifies mixed_metrics 1).
  - split; [reflexivity|]. unfold mixed_metrics. repeat constructor.
  - apply all_finite_forallb. reflexivity.
  - unfold METRICS_LOSS_NDX. solve_row.
  - unfold METRICS_MAL_LOSS_NDX. solve_row.
  - unfold METRICS_ATP_NDX. solve_row.
  - unfold METRICS_AFN_NDX. solve_row.
  - unfold METRICS_AFP_NDX. solve_row.
Defined.

(** C10, as stated, fails: the buffer of an epoch without samples is
    finite, and its rows are in range, but its score is NaN: it is not at
    least 0, and the epoch is not promoted.  A run of [main] with an
    empty evaluation set makes such a buffer in every epoch. *)
Lemma first_score_qualifies_counterexample :
  all_finite (zeros METRICS_SIZE 0) /\
  row_all probability (zeros METRICS_SIZE 0) METRICS_LOSS_NDX /\
  row_all probability (zeros METRICS_SIZE 0) METRICS_MAL_LOSS_NDX /\
  row_all nonneg (zeros METRICS_SIZE 0) METRICS_MTP_NDX /\
  row_all nonneg (zeros METRICS_SIZE 0) METRICS_MFN_NDX /\
  row_all nonneg (zeros METRICS_SIZE 0) METRICS_MFP_NDX /\
  row_all nonneg (zeros METRICS_SIZE 0) METRICS_ATP_NDX /\
  row_all nonneg (zeros METRICS_SIZE 0) METRICS_AFN_NDX /\
  row_all nonneg (zeros METRICS_SIZE 0) METRICS_AFP_NDX /\
  (exists d : metrics_dict,
     logMetrics (zeros METRICS_SIZE 0) = Ok (d, NaN)) /\
  geb NaN (of_Z 0) = false /\
  eqb NaN (pymax NaN (of_Z 0)) = false /\
  doTesting predict_zero tt empty_dl
  = Ok (Metrics (zeros METRICS_SIZE 0) []) /\
  snd (fst empty_test_main) = [EpochLog 1 NaN false; EpochLog 2 NaN false].
Proof.
  split; [apply all_finite_forallb; reflexivity|].
  repeat (split; [intros row E; cbn in E; injection E as <-; constructor|]).
  split; [eexists; reflexivity|].
  split; [reflexivity|]. split; [reflexivity|].
  split; [reflexivity|]. vm_compute. reflexivity.
Qed.
